(** * rtl_src_config: manifest resolution and directive emission

    A shallow embedding of [platforms/platmgr/tools/rtl_src_config.py].

    Python text is modelled as [string] over 7-bit ASCII characters; the
    Python built-ins and the [os.path] (POSIX) functions the script calls
    are written out below, following CPython's [str] methods and
    [posixpath] module.  The process environment, the file system and the
    two external commands are made explicit: the script's functions are
    state transformers over a [world]. *)

From Stdlib Require Import String Ascii List ZArith Lia Bool.
From stdpp Require Import base option list gmap strings.

Local Open Scope string_scope.
Local Open Scope list_scope.
Local Open Scope nat_scope.

(** ** Python [str] built-ins *)

Module PyStr.

(** [s[:n]] *)
Fixpoint take (n : nat) (s : string) : string :=
  match n, s with
  | S n', String c s' => String c (take n' s')
  | _, _ => ""
  end.

(** [s[n:]] *)
Fixpoint drop (n : nat) (s : string) : string :=
  match n, s with
  | S n', String _ s' => drop n' s'
  | _, _ => s
  end.

(** [s.split(sep, 1)] when [sep] occurs in [s]: the text before and after
    its first occurrence.  [None] stands for the one-element list [[s]]. *)
Fixpoint split_once (sep : ascii) (s : string) : option (string * string) :=
  match s with
  | "" => None
  | String c s' =>
      if Ascii.eqb c sep then Some ("", s')
      else match split_once sep s' with
           | Some (a, b) => Some (String c a, b)
           | None => None
           end
  end.

(** [s.split(sep, 1)[0]] *)
Definition before_first (sep : ascii) (s : string) : string :=
  match split_once sep s with
  | Some (a, _) => a
  | None => s
  end.

(** [s.split(sep)] *)
Fixpoint split (sep : ascii) (s : string) : list string :=
  match s with
  | "" => [""]
  | String c s' =>
      if Ascii.eqb c sep then "" :: split sep s'
      else match split sep s' with
           | h :: t => String c h :: t
           | [] => [String c ""]
           end
  end.

(** [sep.join(l)] *)
Definition join (sep : string) (l : list string) : string :=
  String.concat sep l.

(** [s.rfind(c)], [-1] when [c] does not occur. *)
Fixpoint rfind (c : ascii) (s : string) : Z :=
  match s with
  | "" => (-1)%Z
  | String a s' =>
      let r := rfind c s' in
      if (0 <=? r)%Z then (r + 1)%Z
      else if Ascii.eqb a c then 0%Z else (-1)%Z
  end.

Definition lower_char (c : ascii) : ascii :=
  let n := nat_of_ascii c in
  if (65 <=? n) && (n <=? 90) then ascii_of_nat (n + 32) else c.

(** [s.lower()] *)
Fixpoint lower (s : string) : string :=
  match s with
  | "" => ""
  | String c s' => String (lower_char c) (lower s')
  end.

(** [c.isspace()] on ASCII: TAB, LF, VT, FF, CR, FS, GS, RS, US, SPACE. *)
Definition isspace (c : ascii) : bool :=
  let n := nat_of_ascii c in
  ((9 <=? n) && (n <=? 13)) || ((28 <=? n) && (n <=? 32)).

(** [s.lstrip()] *)
Fixpoint lstrip (s : string) : string :=
  match s with
  | String c s' => if isspace c then lstrip s' else s
  | "" => ""
  end.

(** [s.rstrip()] *)
Fixpoint rstrip (s : string) : string :=
  match s with
  | "" => ""
  | String c s' =>
      match rstrip s' with
      | "" => if isspace c then "" else String c ""
      | r => String c r
      end
  end.

(** [s.strip()] *)
Definition strip (s : string) : string := rstrip (lstrip s).

(** [s.lstrip(c)] and [s.rstrip(c)] for a single character [c]. *)
Fixpoint lstrip_char (c : ascii) (s : string) : string :=
  match s with
  | String a s' => if Ascii.eqb a c then lstrip_char c s' else s
  | "" => ""
  end.

Fixpoint rstrip_char (c : ascii) (s : string) : string :=
  match s with
  | "" => ""
  | String a s' =>
      match rstrip_char c s' with
      | "" => if Ascii.eqb a c then "" else String a ""
      | r => String a r
      end
  end.

(** [s.startswith(p)] *)
Definition startswith (p s : string) : bool := String.prefix p s.

(** [s.endswith(c)] for a single character [c]. *)
Fixpoint endswith_char (c : ascii) (s : string) : bool :=
  match s with
  | "" => false
  | String a "" => Ascii.eqb a c
  | String _ s' => endswith_char c s'
  end.

(** [needle in s] *)
Fixpoint contains (needle s : string) : bool :=
  String.prefix needle s
  || match s with
     | "" => false
     | String _ s' => contains needle s'
     end.

(** [c in s] for a single character. *)
Fixpoint has_char (c : ascii) (s : string) : bool :=
  match s with
  | "" => false
  | String a s' => Ascii.eqb a c || has_char c s'
  end.

(** Every character of [s] satisfies [p]. *)
Fixpoint all_chars (p : ascii -> bool) (s : string) : bool :=
  match s with
  | "" => true
  | String a s' => p a && all_chars p s'
  end.

End PyStr.

(** ** Outcomes

    [errorExit] writes a diagnostic on the error stream and leaves the
    process with status 1; an exception no handler catches ends it with a
    traceback on the error stream.  Either is the last thing the process
    writes there.  The outcome [Exit e] stands for that diagnostic and
    exit, and [Raise x] for that exception and, once out of [main], its
    traceback: the kind of a diagnostic is modelled, its text is not. *)

Inductive fatal : Type :=
| UnrecognizedExtension (ext filename : string)
| OpenFailed (cfg_file_name : string)
| HwLibUnspecified
| HwLibNotRelease (hw_lib_dir : string)
| FpgaFamilyExitCode
| FpgaFamilyException
| QuartusVersionFailed
| QuartusVersionException.

Inductive pyexn : Type :=
| ValueError
| KeyError
| OSError
| UnicodeDecodeError
| RecursionError.

Inductive outcome (A : Type) : Type :=
| Ok (a : A)
| Exit (e : fatal)
| Raise (x : pyexn).

Arguments Ok {A} a.
Arguments Exit {A} e.
Arguments Raise {A} x.

(** ** Suffix tables *)

(** Suffix to Quartus tag. *)
Definition quartus_tag_map : gmap string string :=
  list_to_map
    [ (".v", "VERILOG_FILE");
      (".sv", "SYSTEMVERILOG_FILE");
      (".vh", "SYSTEMVERILOG_FILE");
      (".svh", "SYSTEMVERILOG_FILE");
      (".vhd", "VHDL_FILE");
      (".vhdl", "VHDL_FILE");
      (".sdc", "SDC_FILE");
      (".qsys", "QSYS_FILE");
      (".ip", "IP_FILE");
      (".qip", "QIP_FILE");
      (".json", "MISC_FILE");
      (".tcl", "SOURCE_TCL_SCRIPT_FILE");
      (".stp", "USE_SIGNALTAP_FILE");
      (".hex", "MIF_FILE");
      (".mif", "MIF_FILE") ].

(** QSYS-only tags. *)
Definition qsys_tag_map : gmap string string :=
  list_to_map
    [ (".qsys", "QSYS_FILE"); (".qip", "QIP_FILE"); (".ip", "IP_FILE") ].

Definition tcl_tag_map : gmap string string :=
  list_to_map [ (".tcl", "SOURCE_TCL_SCRIPT_FILE") ].

(** QSYS ipx tag. *)
Definition qsys_ipx_tag_map : gmap string string :=
  list_to_map [ (".ipx", "IPX_FILE") ].

(** JSON-only tags. *)
Definition json_tag_map : gmap string string :=
  list_to_map [ (".json", "MISC_FILE") ].

(** Suffixes to emit for simulation targets. *)
Definition sim_vlog_tag_map : gmap string string :=
  list_to_map
    [ (".v", "VERILOG_FILE");
      (".sv", "SYSTEMVERILOG_FILE");
      (".vh", "SYSTEMVERILOG_FILE");
      (".svh", "SYSTEMVERILOG_FILE");
      (".json", "MISC_FILE") ].

Definition sim_vhdl_tag_map : gmap string string :=
  list_to_map [ (".vhd", "VHDL_FILE"); (".vhdl", "VHDL_FILE") ].

Arguments quartus_tag_map : simpl never.
Arguments qsys_tag_map : simpl never.
Arguments tcl_tag_map : simpl never.
Arguments qsys_ipx_tag_map : simpl never.
Arguments json_tag_map : simpl never.
Arguments sim_vlog_tag_map : simpl never.
Arguments sim_vhdl_tag_map : simpl never.

(** [ext in db] *)
Definition in_map (ext : string) (db : gmap string string) : bool :=
  match db !! ext with
  | Some _ => true
  | None => false
  end.

(** ** [os.path] on POSIX *)

Module PosixPath.

Definition sep : ascii := "/"%char.
Definition extsep : ascii := "."%char.

(** [os.path.splitext(p)]: the extension starts at the last dot of the
    last component, unless only dots precede it there. *)
Definition splitext (p : string) : string * string :=
  let sepIndex := PyStr.rfind sep p in
  let dotIndex := PyStr.rfind extsep p in
  if (sepIndex <? dotIndex)%Z then
    let filenameIndex := Z.to_nat (sepIndex + 1) in
    let leading :=
      PyStr.take (Z.to_nat dotIndex - filenameIndex)
                 (PyStr.drop filenameIndex p) in
    if PyStr.all_chars (fun c => Ascii.eqb c extsep) leading
    then (p, "")
    else (PyStr.take (Z.to_nat dotIndex) p, PyStr.drop (Z.to_nat dotIndex) p)
  else (p, "").

(** [os.path.isabs(s)] *)
Definition isabs (s : string) : bool := PyStr.startswith "/" s.

(** [os.path.join(a, b)] *)
Definition join (a b : string) : string :=
  if PyStr.startswith "/" b then b
  else if (a =? "")%string || PyStr.endswith_char sep a then a +:+ b
  else a +:+ "/" +:+ b.

(** [os.path.dirname(p)] *)
Definition dirname (p : string) : string :=
  let i := Z.to_nat (PyStr.rfind sep p + 1) in
  let head := PyStr.take i p in
  if negb (head =? "")%string
     && negb (PyStr.all_chars (fun c => Ascii.eqb c sep) head)
  then PyStr.rstrip_char sep head
  else head.

(** One round of the loop of [normpath].  [new_comps] is held with its
    last element first, so that [append] is a cons and [pop] a tail. *)
Definition normpath_step (initial_slashes : nat)
           (new_comps : list string) (comp : string) : list string :=
  if (comp =? "")%string || (comp =? ".")%string then new_comps
  else if negb (comp =? "..")%string
          || ((initial_slashes =? 0) && bool_decide (new_comps = []))
          || match new_comps with
             | top :: _ => (top =? "..")%string
             | [] => false
             end
       then comp :: new_comps
       else tail new_comps.

Definition initial_slashes_of (path : string) : nat :=
  if PyStr.startswith "/" path then
    if PyStr.startswith "//" path && negb (PyStr.startswith "///" path)
    then 2 else 1
  else 0.

(** The components [normpath] keeps, in path order. *)
Definition normcomps (path : string) : list string :=
  rev (fold_left (normpath_step (initial_slashes_of path))
                 (PyStr.split sep path) []).

Fixpoint slashes (n : nat) : string :=
  match n with
  | 0 => ""
  | S n' => String sep (slashes n')
  end.

(** [os.path.normpath(path)] *)
Definition normpath (path : string) : string :=
  if (path =? "")%string then "."
  else
    let p := slashes (initial_slashes_of path)
             +:+ PyStr.join "/" (normcomps path) in
    if (p =? "")%string then "." else p.

(** [os.path.abspath(path)], [cwd] being [os.getcwd()]. *)
Definition abspath (cwd path : string) : string :=
  normpath (if isabs path then path else join cwd path).

(** [len(commonprefix([l1, l2]))] for two lists of components. *)
Fixpoint commonprefix_len (l1 l2 : list string) : nat :=
  match l1, l2 with
  | a :: l1', b :: l2' =>
      if (a =? b)%string then S (commonprefix_len l1' l2') else 0
  | _, _ => 0
  end.

(** [[x for x in s.split(sep) if x]] *)
Definition nonempty_comps (s : string) : list string :=
  filter (fun x => x ≠ "") (PyStr.split sep s).

(** [os.path.relpath(path, start)]; an empty [path] is a [ValueError]. *)
Definition relpath (cwd path start : string) : outcome string :=
  if (path =? "")%string then Raise ValueError
  else
    let start_list := nonempty_comps (abspath cwd start) in
    let path_list := nonempty_comps (abspath cwd path) in
    let i := commonprefix_len start_list path_list in
    let rel_list :=
      repeat ".." (length start_list - i) ++ skipn i path_list in
    match rel_list with
    | [] => Ok "."
    | _ => Ok (PyStr.join "/" rel_list)
    end.

(** The character class [\w] under [re.ASCII]. *)
Definition is_word (c : ascii) : bool :=
  let n := nat_of_ascii c in
  ((48 <=? n) && (n <=? 57)) || ((65 <=? n) && (n <=? 90))
  || ((97 <=? n) && (n <=? 122)) || (n =? 95).

(** The longest prefix whose characters satisfy [p], and the rest. *)
Fixpoint span (p : ascii -> bool) (s : string) : string * string :=
  match s with
  | String c s' =>
      if p c then let '(a, b) := span p s' in (String c a, b) else ("", s)
  | "" => ("", "")
  end.

(** A match of [\$(\w+|\{[^}]*\}?)] at a dollar sign, [s] being the text
    after the dollar: the matched text, the variable it names (if the
    braces are closed or absent) and the text after the match. *)
Definition match_var (s : string) : option (string * option string * string) :=
  match s with
  | String c s' =>
      if is_word c then
        let '(name, rest) := span is_word s in
        Some (name, Some name, rest)
      else if Ascii.eqb c "{" then
        let '(body, rest) := span (fun a => negb (Ascii.eqb a "}")) s' in
        match rest with
        | String _ rest' =>
            Some ("{" +:+ body +:+ "}", Some body, rest')
        | "" => Some ("{" +:+ body, None, "")
        end
      else None
  | "" => None
  end.

Fixpoint expandvars_go (fuel : nat) (environ : gmap string string)
         (s : string) : string :=
  match fuel with
  | 0 => s
  | S fuel' =>
      match s with
      | "" => ""
      | String c s' =>
          if Ascii.eqb c "$" then
            match match_var s' with
            | Some (m0, name, rest) =>
                let value :=
                  match name with
                  | Some n =>
                      match environ !! n with
                      | Some v => v
                      | None => String c m0
                      end
                  | None => String c m0
                  end in
                value +:+ expandvars_go fuel' environ rest
            | None => String c (expandvars_go fuel' environ s')
            end
          else String c (expandvars_go fuel' environ s')
      end
  end.

(** [os.path.expandvars(path)]: [$name] and [${name}] are replaced by the
    value of [name] when the environment has one and left as they are
    otherwise; a replaced value is not expanded again. *)
Definition expandvars (environ : gmap string string) (path : string)
  : string :=
  if negb (PyStr.has_char "$" path) then path
  else expandvars_go (String.length path) environ path.

End PosixPath.

(** ** Tag validation and lookup *)

Definition file_ext (filename : string) : string :=
  PyStr.lower (snd (PosixPath.splitext filename)).

Definition validateTag (filename : string) : outcome unit :=
  let ext := file_ext filename in
  if negb (in_map ext quartus_tag_map)
     && negb (in_map ext qsys_tag_map)
     && negb (in_map ext tcl_tag_map)
     && negb (in_map ext qsys_ipx_tag_map)
     && negb (in_map ext json_tag_map)
     && negb (in_map ext sim_vlog_tag_map)
     && negb (in_map ext sim_vhdl_tag_map)
  then Exit (UnrecognizedExtension ext filename)
  else Ok tt.

Definition lookupTag (filename : string) (db : gmap string string)
  : option string :=
  let ext := file_ext filename in
  if negb (in_map ext db) then None else db !! ext.

(** ** Regular expressions of [getQuartusVersion]

    A backtracking matcher for the fragment the script uses: literal
    characters, a greedy star over a character class and one capture
    group. *)

Module Re.

Inductive item : Type :=
| Lit (c : ascii)
| Star (p : ascii -> bool)
| GroupOpen
| GroupClose.

(** Match [pat] at the start of [s]: the text of group 1 and the text
    after the match.  [inside] tells whether group 1 is open, [cap] is
    what it has captured so far. *)
Fixpoint go (pat : list item) (s : string) (inside : bool) (cap : string)
  : option (string * string) :=
  match pat with
  | [] => Some (cap, s)
  | GroupOpen :: pat' => go pat' s true ""
  | GroupClose :: pat' => go pat' s false cap
  | Lit c :: pat' =>
      match s with
      | String a s' =>
          if Ascii.eqb a c
          then go pat' s' inside (if inside then cap +:+ String a "" else cap)
          else None
      | "" => None
      end
  | Star p :: pat' =>
      (fix star (s : string) (cap : string) : option (string * string) :=
         match s with
         | String a s' =>
             if p a then
               match star s' (if inside then cap +:+ String a "" else cap) with
               | Some r => Some r
               | None => go pat' s inside cap
               end
             else go pat' s inside cap
         | "" => go pat' "" inside cap
         end) s cap
  end.

Fixpoint sub_go (fuel : nat) (pat : list item) (s : string) : string :=
  match fuel with
  | 0 => s
  | S fuel' =>
      match go pat s false "" with
      | Some (g, rest) => g +:+ sub_go fuel' pat rest
      | None =>
          match s with
          | String c s' => String c (sub_go fuel' pat s')
          | "" => ""
          end
      end
  end.

(** [re.sub(pat, r'\1', s)] for a pattern that matches no empty text. *)
Definition sub_group1 (pat : list item) (s : string) : string :=
  sub_go (S (String.length s)) pat s.

Definition digit (c : ascii) : bool :=
  let n := nat_of_ascii c in (48 <=? n) && (n <=? 57).
Definition nondigit (c : ascii) : bool := negb (digit c).
Definition any (c : ascii) : bool := negb (Ascii.eqb c (ascii_of_nat 10)).

(** The pattern of the major version: any non-digits, then group 1 made
    of digits, then a dot and the rest of the line. *)
Definition major : list item :=
  [Star nondigit; GroupOpen; Star digit; GroupClose; Lit "."; Star any].

(** The pattern of the major.minor version: any non-digits, then group 1
    made of digits, a dot and digits, then a dot and the rest of the
    line. *)
Definition major_minor : list item :=
  [Star nondigit; GroupOpen; Star digit; Lit "."; Star digit; GroupClose;
   Lit "."; Star any].

End Re.

(** ** Options, the system and the process state *)

(** The namespace [argparse] returns. *)
Record options : Type := {
  config_file : string;
  sim : bool;
  sim_vlog : bool;
  sim_vhdl : bool;
  qsf : bool;
  qsys : bool;
  tcl : bool;
  ipx : bool;
  json : bool;
  rel : string;
  abs : bool;
  verbose : bool;
  quiet : bool;
  lib : option string
}.

(** What the script reads from outside and does not change: the working
    directory, the files ([file_lines name] is the sequence of lines that
    iterating over [open(name)] yields, [None] when [open] fails), the
    directory and existence tests, and the shell ([popen cmd] is the
    standard output of [cmd], line by line, and its exit status). *)
Record system : Type := {
  getcwd : string;
  file_lines : string -> option (list string);
  isdir : string -> bool;
  path_exists : string -> bool;
  popen : string -> list string * Z
}.

(** What the script changes: [os.environ], the commands it has launched
    (oldest first) and the reports it has written on the error stream with
    [sys.stderr.write] outside [errorExit].  The diagnostic of [errorExit]
    is not in [stderr]: it is the outcome [Exit e], and [error_stream]
    below puts the two together. *)
Record world : Type := {
  environ : gmap string string;
  launched : list string;
  stderr : list string
}.

Definition set_environ (k v : string) (w : world) : world :=
  {| environ := <[k := v]> (environ w);
     launched := launched w;
     stderr := stderr w |}.

Definition log_launch (cmd : string) (w : world) : world :=
  {| environ := environ w;
     launched := launched w ++ [cmd];
     stderr := stderr w |}.

Definition log_stderr (msg : string) (w : world) : world :=
  {| environ := environ w;
     launched := launched w;
     stderr := stderr w ++ [msg] |}.

(** A computation that may change the world, leave with [errorExit] or
    raise. *)
Definition M (A : Type) : Type := world -> outcome A * world.

Definition ret {A} (a : A) : M A := fun w => (Ok a, w).

Definition bind {A B} (m : M A) (k : A -> M B) : M B :=
  fun w =>
    match m w with
    | (Ok a, w') => k a w'
    | (Exit e, w') => (Exit e, w')
    | (Raise x, w') => (Raise x, w')
    end.

(** [errorExit(msg)]: the diagnostic it writes and the exit are the
    outcome [Exit e]; nothing runs after it. *)
Definition errorExit {A} (e : fatal) : M A := fun w => (Exit e, w).
Definition raise {A} (x : pyexn) : M A := fun w => (Raise x, w).
Definition lift {A} (o : outcome A) : M A := fun w => (o, w).
Definition get_environ : M (gmap string string) := fun w => (Ok (environ w), w).
Definition modify (f : world -> world) : M unit := fun w => (Ok tt, f w).

(** [try: m  except Exception: errorExit(e)].  [errorExit] raises
    [SystemExit], which is no [Exception] and passes through. *)
Definition except_Exception {A} (m : M A) (e : fatal) : M A :=
  fun w =>
    match m w with
    | (Raise _, w') => (Exit e, w')
    | r => r
    end.

(** [try: m  except IOError: errorExit(e)] *)
Definition except_IOError {A} (m : M A) (e : fatal) : M A :=
  fun w =>
    match m w with
    | (Raise OSError, w') => (Exit e, w')
    | r => r
    end.

Notation "'let*' x ':=' m 'in' k" := (bind m (fun x => k))
  (at level 10, x name, m at level 100, k at level 200).

(** [for x in l: body x] *)
Fixpoint for_each {A} (l : list A) (body : A -> M unit) : M unit :=
  match l with
  | [] => ret tt
  | x :: l' => let* _ := body x in for_each l' body
  end.

Definition dquote : string := String (ascii_of_nat 34) "".
Definition newline : string := String (ascii_of_nat 10) "".

Definition FPGA_FAMILY : string := "OPAE_PLATFORM_FPGA_FAMILY".
Definition afu_platform_info : string := "afu_platform_info --key=fpga-family ".
Definition quartus_sh : string := "quartus_sh --version".

(** [line.decode('ascii')] *)
Definition decode_ascii (line : string) : M string :=
  if PyStr.all_chars (fun c => nat_of_ascii c <? 128) line
  then ret line else raise UnicodeDecodeError.

Section Script.

Variable sys : system.

(** [subprocess.Popen(cmd, shell=True, stdout=PIPE)], read to the end and
    waited for. *)
Definition run (cmd : string) : M (list string * Z) :=
  fun w => (Ok (popen sys cmd), log_launch cmd w).

(** [with open(name) as f: f.read()] *)
Definition read_file (name : string) : M string :=
  match file_lines sys name with
  | Some ls => ret (String.concat "" ls)
  | None => raise OSError
  end.

(** *** Path normalization *)

(** The prefix of an entry and the path that follows it: an explicit
    [+incdir+], the command of a [cmd:value] entry, or the [+incdir+] of
    an entry that names a directory. *)
Definition split_prefix (c config_dir : string) : string * string :=
  if ("+incdir+" =? PyStr.take 8 c)%string
  then ("+incdir+", PyStr.drop 8 c)
  else
    match PyStr.split_once ":" c with
    | None =>
        if isdir sys (PosixPath.join config_dir c)
        then ("+incdir+", c) else ("", c)
    | Some (cmd, value) => (cmd +:+ ":", value)
    end.

Definition fixRelPath (opts : options) (c config_dir tgt_dir : string)
  : outcome string :=
  if String.length c =? 0 then Ok c
  else if ("+define+" =? PyStr.take 8 c)%string then Ok c
  else
    let '(prefix, c) := split_prefix c config_dir in
    match PosixPath.relpath (getcwd sys)
                            (PosixPath.join config_dir c) tgt_dir with
    | Ok p =>
        let p := if abs opts then PosixPath.abspath (getcwd sys) p else p in
        Ok (prefix +:+ p)
    | Exit e => Exit e
    | Raise x => Raise x
    end.

(** *** External context *)

Definition getHWLibPath (opts : options) : M string :=
  let* env := get_environ in
  let* hw_lib_dir :=
    match lib opts with
    | Some l => ret l
    | None =>
        match env !! "BBS_LIB_PATH" with
        | Some v => ret (PyStr.rstrip_char "/" v)
        | None =>
            match env !! "OPAE_PLATFORM_ROOT" with
            | Some v =>
                ret (PosixPath.join (PyStr.rstrip_char "/" v) "hw/lib")
            | None => errorExit HwLibUnspecified
            end
        end
    end in
  if negb (path_exists sys
             (PosixPath.join hw_lib_dir "fme-platform-class.txt"))
  then errorExit (HwLibNotRelease hw_lib_dir)
  else ret hw_lib_dir.

Definition addDefaultFpgaFamily (opts : options) : M unit :=
  let* env := get_environ in
  if negb (bool_decide (is_Some (env !! FPGA_FAMILY))) then
    except_Exception
      (let* hw_lib_dir := getHWLibPath opts in
       let plat_class_file :=
         PosixPath.join hw_lib_dir "fme-platform-class.txt" in
       let* text := read_file plat_class_file in
       let cmd := afu_platform_info +:+ PyStr.strip text in
       let* proc := run cmd in
       let* _ :=
         for_each (fst proc)
           (fun line =>
              let* line := decode_ascii line in
              modify (set_environ FPGA_FAMILY (PyStr.strip line))) in
       let* _ :=
         if negb (snd proc =? 0)%Z then errorExit FpgaFamilyExitCode
         else ret tt in
       if negb (quiet opts) then
         let* env := get_environ in
         match env !! FPGA_FAMILY with
         | Some v =>
             modify (log_stderr
                       ("Set OPAE_PLATFORM_FPGA_FAMILY to " +:+ v
                        +:+ newline))
         | None => raise KeyError
         end
       else ret tt)
      FpgaFamilyException
  else ret tt.

Definition version_known (env : gmap string string) : bool :=
  bool_decide (is_Some (env !! "QUARTUS_VERSION"))
  && bool_decide (is_Some (env !! "QUARTUS_VERSION_MAJOR")).

(** The loop of [getQuartusVersion] over the lines of the command's
    output; [ok] is its flag. *)
Fixpoint scan_version (lines : list string) (ok : bool) : M bool :=
  match lines with
  | [] => ret ok
  | line :: lines' =>
      let* line := decode_ascii line in
      let line := PyStr.strip line in
      if (PyStr.take 7 line =? "Version")%string then
        let* _ := modify (set_environ "QUARTUS_VERSION_MAJOR"
                                      (Re.sub_group1 Re.major line)) in
        let* _ := modify (set_environ "QUARTUS_VERSION"
                                      (Re.sub_group1 Re.major_minor line)) in
        scan_version lines' true
      else scan_version lines' ok
  end.

Definition getQuartusVersion (opts : options) : M unit :=
  let* env := get_environ in
  if negb (version_known env) then
    except_Exception
      (let* proc := run quartus_sh in
       let* ok := scan_version (fst proc) false in
       let* _ :=
         if negb (snd proc =? 0)%Z || negb ok
         then errorExit QuartusVersionFailed else ret tt in
       if negb (quiet opts) then
         let* env := get_environ in
         match env !! "QUARTUS_VERSION", env !! "QUARTUS_VERSION_MAJOR" with
         | Some v, Some m =>
             let* _ :=
               modify (log_stderr ("Set QUARTUS_VERSION to " +:+ v
                                   +:+ newline)) in
             modify (log_stderr ("Set QUARTUS_VERSION_MAJOR to " +:+ m
                                 +:+ newline))
         | _, _ => raise KeyError
         end
       else ret tt)
      QuartusVersionException
  else ret tt.

(** *** Recursive parse of configuration files *)

(** The text of a line once stripped and cut at its comment. *)
Definition clean_line (c : string) : string :=
  PyStr.before_first "#" (PyStr.strip c).

(** Replace environment variables in a cleaned line, after resolving the
    FPGA family and the Quartus version when the line mentions them and
    the environment does not have them yet. *)
Definition substitute (opts : options) (c : string) : M string :=
  let* env := get_environ in
  let* _ :=
    if PyStr.contains FPGA_FAMILY c
       && negb (bool_decide (is_Some (env !! FPGA_FAMILY)))
    then addDefaultFpgaFamily opts else ret tt in
  let* env := get_environ in
  let* _ :=
    if PyStr.contains "QUARTUS_VERSION" c && negb (version_known env)
    then getQuartusVersion opts else ret tt in
  let* env := get_environ in
  ret (PosixPath.expandvars env c).

(** One round of the loop over the lines of a file: the entries the
    line adds to the list, [parse] being the recursive call for an
    included file. *)
Definition parseLine (parse : string -> M (list string)) (opts : options)
           (dir tgt_dir : string) (c : string) : M (list string) :=
  let* c := substitute opts (clean_line c) in
  if (PyStr.take 2 c =? "C:")%string then
    parse (PosixPath.join dir (PyStr.drop 2 c))
  else if negb (String.length c =? 0) then
    let* e := lift (fixRelPath opts c dir tgt_dir) in
    ret [e]
  else ret [].

(** The loop over the lines of one file; [cfg] is the list built so
    far. *)
Fixpoint parseLines (parse : string -> M (list string)) (opts : options)
         (dir tgt_dir : string) (lines : list string) (cfg : list string)
  : M (list string) :=
  match lines with
  | [] => ret cfg
  | c :: lines' =>
      let* new := parseLine parse opts dir tgt_dir c in
      parseLines parse opts dir tgt_dir lines' (cfg ++ new)
  end.

(** [fuel] bounds the depth of nested includes, as the interpreter's
    recursion limit does. *)
Fixpoint parseConfigFile (fuel : nat) (opts : options)
         (cfg_file_name tgt_dir : string) : M (list string) :=
  match fuel with
  | 0 => raise RecursionError
  | S fuel' =>
      if String.length cfg_file_name =? 0 then ret []
      else
        except_IOError
          (let dir := PosixPath.dirname cfg_file_name in
           match file_lines sys cfg_file_name with
           | None => raise OSError
           | Some lines =>
               parseLines (fun name => parseConfigFile fuel' opts name tgt_dir)
                          opts dir tgt_dir lines []
           end)
          (OpenFailed cfg_file_name)
  end.

End Script.

(** ** Emission

    The standard output is the list of the texts the script prints, one
    per call of [print]. *)

(** The truth value of the [None] or tag that [lookupTag] returns. *)
Definition truthy (tag : option string) : bool :=
  match tag with
  | Some t => negb (t =? "")%string
  | None => false
  end.

Definition file_type_filter (opts : options) : bool :=
  qsys opts || ipx opts || json opts || tcl opts.

Definition rel_prefix_of (opts : options) : string :=
  if negb (file_type_filter opts) && (negb (sim opts) && negb (abs opts))
  then "${THIS_DIR}/" else "".

(** The lines printed for one entry by the loop over the preprocessor
    definitions. *)
Definition emit_define (opts : options) (c : string) : list string :=
  if ("+define+" =? PyStr.take 8 c)%string then
    if sim_vlog opts then [c]
    else if sim_vhdl opts then []
    else ["set_global_assignment -name VERILOG_MACRO " +:+ dquote
          +:+ PyStr.drop 8 c +:+ dquote]
  else [].

(** The lines printed for one entry by the loop over the include
    directives. *)
Definition emit_incdir (opts : options) (rel_prefix c : string)
  : list string :=
  if ("+incdir+" =? PyStr.take 8 c)%string then
    if sim_vlog opts then [c]
    else if sim_vhdl opts then []
    else ["set_global_assignment -name SEARCH_PATH " +:+ dquote
          +:+ rel_prefix +:+ PyStr.drop 8 c +:+ dquote]
  else [].

(** The last branch of the loop over sources and includes: a bare source
    file is validated, then printed if the table of the mode has it. *)
Definition emit_source_file (opts : options) (rel_prefix c : string)
  : list string * outcome unit :=
  match validateTag c with
  | Ok _ =>
      let tag := lookupTag c quartus_tag_map in
      let printed (db : gmap string string) :=
        if truthy (lookupTag c db) then [c] else [] in
      (if sim_vlog opts then printed sim_vlog_tag_map
       else if sim_vhdl opts then printed sim_vhdl_tag_map
       else if json opts then printed json_tag_map
       else if qsys opts then printed qsys_tag_map
       else if ipx opts then printed qsys_ipx_tag_map
       else if tcl opts then printed tcl_tag_map
       else
         match tag with
         | Some tag =>
             if negb (tag =? "SOURCE_TCL_SCRIPT_FILE")%string
             then ["set_global_assignment -name " +:+ tag +:+ " " +:+ dquote
                   +:+ rel_prefix +:+ c +:+ dquote]
             else []
         | None => []
         end,
       Ok tt)
  | Exit e => ([], Exit e)
  | Raise x => ([], Raise x)
  end.

(** One round of the loop over sources and includes: what it prints, and
    whether the script goes on. *)
Definition emit_entry (opts : options) (rel_prefix c : string)
  : list string * outcome unit :=
  let split := PyStr.split_once ":" c in
  let has_cmd := bool_decide (is_Some split) in
  let cmd := from_option fst "" split in
  let value := from_option snd "" split in
  if ("+" =? PyStr.take 1 c)%string then ([], Ok tt)
  else if has_cmd && ((cmd =? "SI") || (cmd =? "SI_VLOG"))%string then
    if truthy (lookupTag value tcl_tag_map) && (sim_vlog opts || tcl opts)
    then ([value], Ok tt)
    else if sim_vlog opts then (["-F " +:+ value], Ok tt)
    else ([], Ok tt)
  else if has_cmd && (cmd =? "SI_VHDL")%string then
    if truthy (lookupTag value tcl_tag_map) && (sim_vhdl opts || tcl opts)
    then ([value], Ok tt)
    else if sim_vhdl opts then (["-F " +:+ value], Ok tt)
    else ([], Ok tt)
  else if has_cmd && (cmd =? "QI")%string then
    if negb (sim opts) && negb (file_type_filter opts)
    then (["source " +:+ dquote +:+ rel_prefix +:+ value +:+ dquote], Ok tt)
    else ([], Ok tt)
  else emit_source_file opts rel_prefix c.

(** The loop over sources and includes; it stops at the first entry that
    ends the script. *)
Fixpoint emit_sources (opts : options) (rel_prefix : string)
         (cfg : list string) : list string * outcome unit :=
  match cfg with
  | [] => ([], Ok tt)
  | c :: cfg' =>
      match emit_entry opts rel_prefix c with
      | (out, Ok _) =>
          let '(out', r) := emit_sources opts rel_prefix cfg' in
          (out ++ out', r)
      | (out, r) => (out, r)
      end
  end.

Definition this_dir_header : string :=
  "set THIS_DIR [file dirname [info script]]" +:+ newline.

(** What [emitCfg] prints and how it ends. *)
Definition emitCfg (opts : options) (cfg : list string)
  : list string * outcome unit :=
  let rel_prefix := rel_prefix_of opts in
  let preamble :=
    if negb (file_type_filter opts) then
      (if negb (sim opts) && negb (abs opts) then [this_dir_header] else [])
      ++ flat_map (emit_define opts) cfg
      ++ flat_map (emit_incdir opts rel_prefix) cfg
    else [] in
  let '(out, r) := emit_sources opts rel_prefix cfg in
  (preamble ++ out, r).

(** ** The entry point *)

(** [main] after [argparse]: [--sim] and [--sim-vlog] are synonyms and
    [--sim-vhdl] is a simulation too. *)
Definition normalize_options (o : options) : options :=
  let vlog := sim o || sim_vlog o in
  {| config_file := config_file o;
     sim := vlog || sim_vhdl o;
     sim_vlog := vlog;
     sim_vhdl := sim_vhdl o;
     qsf := qsf o; qsys := qsys o; tcl := tcl o; ipx := ipx o;
     json := json o; rel := rel o; abs := abs o; verbose := verbose o;
     quiet := quiet o; lib := lib o |}.

(** The standard output of a run, how it ends and the world it leaves. *)
Definition main (sys : system) (fuel : nat) (parsed : options) (w : world)
  : list string * outcome unit * world :=
  let opts := normalize_options parsed in
  match parseConfigFile sys fuel opts (config_file opts) (rel opts) w with
  | (Ok cfg, w') => (emitCfg opts cfg, w')
  | (Exit e, w') => ([], Exit e, w')
  | (Raise x, w') => ([], Raise x, w')
  end.

(** The target modes of the command line, one per mutually exclusive flag;
    [Synthesis] is the mode of [--qsf] and of no flag at all. *)
Inductive TargetMode : Type :=
| Synthesis
| SimVerilog
| SimVhdl
| QsysOnly
| TclOnly
| IpxOnly
| JsonOnly.

#[global] Instance TargetMode_eq_dec : EqDecision TargetMode.
Proof. solve_decision. Defined.

(** The options of a run in mode [m], as [main] hands them to the parser
    and the emitter. *)
Definition mode_options (m : TargetMode) (file target : string)
           (absolute be_quiet : bool) (hw_lib : option string) : options :=
  normalize_options
    {| config_file := file;
       sim := false;
       sim_vlog := bool_decide (m = SimVerilog);
       sim_vhdl := bool_decide (m = SimVhdl);
       qsf := bool_decide (m = Synthesis);
       qsys := bool_decide (m = QsysOnly);
       tcl := bool_decide (m = TclOnly);
       ipx := bool_decide (m = IpxOnly);
       json := bool_decide (m = JsonOnly);
       rel := target; abs := absolute; verbose := false;
       quiet := be_quiet; lib := hw_lib |}.

(** The table [emitCfg] consults for a bare source file in mode [m]. *)
Definition mode_table (m : TargetMode) : gmap string string :=
  match m with
  | Synthesis => quartus_tag_map
  | SimVerilog => sim_vlog_tag_map
  | SimVhdl => sim_vhdl_tag_map
  | QsysOnly => qsys_tag_map
  | TclOnly => tcl_tag_map
  | IpxOnly => qsys_ipx_tag_map
  | JsonOnly => json_tag_map
  end.

(** ** Sample systems *)

Definition env0 : gmap string string := {[ "FOO" := "bar"; "A" := "$FOO" ]}.

Definition sample_files : gmap string (list string) :=
  list_to_map
    [ ("m.txt", ["+define+FOO" +:+ newline; "+incdir+../rtl" +:+ newline;
                 "top.sv" +:+ newline; "QI:setup.tcl" +:+ newline]);
      ("a.txt", ["C:sub/b.txt" +:+ newline]);
      ("sub/b.txt", ["core.v" +:+ newline]);
      ("fam.txt", ["ip/$OPAE_PLATFORM_FPGA_FAMILY/x.qsys" +:+ newline;
                   "C:sub/fam2.txt" +:+ newline;
                   "${OPAE_PLATFORM_FPGA_FAMILY}.sdc" +:+ newline]);
      ("sub/fam2.txt", ["$OPAE_PLATFORM_FPGA_FAMILY/y.ip" +:+ newline]);
      ("ws.txt", ["top.sv  # the top level" +:+ newline]);
      ("dirs.txt", ["rtl" +:+ newline]);
      ("/opt/rel/hw/lib/fme-platform-class.txt", ["intg_xeon" +:+ newline]) ].

(** A system with a few manifests under the working directory [/w], a
    platform release under [/opt/rel] and both external commands. *)
Definition sample_system : system :=
  {| getcwd := "/w";
     file_lines := fun name => sample_files !! name;
     isdir := fun name => (name =? "rtl")%string;
     path_exists :=
       fun name => (name =? "/opt/rel/hw/lib/fme-platform-class.txt")%string;
     popen :=
       fun cmd =>
         if (cmd =? "afu_platform_info --key=fpga-family intg_xeon")%string
         then (["A10" +:+ newline], 0%Z)
         else if (cmd =? "quartus_sh --version")%string
         then (["Quartus Prime Shell" +:+ newline;
                "Version 18.1.0 Build 625" +:+ newline], 0%Z)
         else ([], 127%Z) |}.

Definition sample_world : world :=
  {| environ := {[ "OPAE_PLATFORM_ROOT" := "/opt/rel/" ]};
     launched := [];
     stderr := [] |}.

(** ** The tag table of the specification *)

(** The fifteen suffixes the specification lists for every mode. *)
Definition documented_synthesis_tags : list (string * string) :=
  [ (".v", "VERILOG_FILE");
    (".sv", "SYSTEMVERILOG_FILE"); (".vh", "SYSTEMVERILOG_FILE");
    (".svh", "SYSTEMVERILOG_FILE");
    (".vhd", "VHDL_FILE"); (".vhdl", "VHDL_FILE");
    (".sdc", "SDC_FILE");
    (".qsys", "QSYS_FILE");
    (".ip", "IP_FILE");
    (".qip", "QIP_FILE");
    (".json", "MISC_FILE");
    (".tcl", "SOURCE_TCL_SCRIPT_FILE");
    (".stp", "USE_SIGNALTAP_FILE");
    (".hex", "MIF_FILE"); (".mif", "MIF_FILE") ].

(** The sixteen suffixes of the specification's table, the one of the
    ipx-only mode included. *)
Definition documented_tags : list (string * string) :=
  documented_synthesis_tags ++ [ (".ipx", "IPX_FILE") ].

(** ** Kinds of entries, as [emitCfg] tells them apart *)

(** The command of a [cmd:value] entry. *)
Definition entry_cmd (c : string) : option string :=
  fst <$> PyStr.split_once ":" c.

(** An entry that reaches the last branch of the loop over sources: no
    leading [+] and none of the include commands. *)
Definition is_source_file (c : string) : bool :=
  negb ("+" =? PyStr.take 1 c)%string
  && negb (bool_decide (entry_cmd c ∈ [Some "SI"; Some "SI_VLOG";
                                       Some "SI_VHDL"; Some "QI"])).

(** Synthesis: no simulation flag and no file type filter. *)
Definition synthesis_options (opts : options) : Prop :=
  sim opts = false /\ sim_vlog opts = false /\ sim_vhdl opts = false
  /\ file_type_filter opts = false.

Definition macro_assignment (c : string) : string :=
  "set_global_assignment -name VERILOG_MACRO " +:+ dquote
  +:+ PyStr.drop 8 c +:+ dquote.

Definition search_path_assignment (rel_prefix c : string) : string :=
  "set_global_assignment -name SEARCH_PATH " +:+ dquote
  +:+ rel_prefix +:+ PyStr.drop 8 c +:+ dquote.

Definition tagged_assignment (tag rel_prefix c : string) : string :=
  "set_global_assignment -name " +:+ tag +:+ " " +:+ dquote
  +:+ rel_prefix +:+ c +:+ dquote.

Definition source_command (rel_prefix value : string) : string :=
  "source " +:+ dquote +:+ rel_prefix +:+ value +:+ dquote.

Definition is_define (c : string) : bool := ("+define+" =? PyStr.take 8 c)%string.
Definition is_incdir (c : string) : bool := ("+incdir+" =? PyStr.take 8 c)%string.

(** A line of the loop over sources in synthesis: the source command of a
    [QI:] entry or the tagged assignment of a source file. *)
Definition synthesis_source_line (pfx : string) (cfg : list string)
           (line : string) : Prop :=
  exists c, In c cfg
    /\ is_define c = false /\ is_incdir c = false
    /\ ((exists v, c = "QI:" +:+ v /\ line = source_command pfx v)
        \/ (exists tag, lookupTag c quartus_tag_map = Some tag
                        /\ line = tagged_assignment tag pfx c)).


(** ** Plain lines *)

(** A cleaned line that mentions neither environment variable the parser
    resolves on demand and has no dollar sign: substitution leaves it as it
    is and calls nothing. *)
Definition plain (c : string) : Prop :=
  PyStr.has_char "$" c = false
  /\ PyStr.contains FPGA_FAMILY c = false
  /\ PyStr.contains "QUARTUS_VERSION" c = false.

(** ** Resolutions of the FPGA family *)

(** A launched command that asks for the FPGA family. *)
Definition is_family_cmd (cmd : string) : bool :=
  PyStr.startswith afu_platform_info cmd.

(** How many times the family has been asked for. *)
Definition family_resolutions (w : world) : nat :=
  length (List.filter is_family_cmd (launched w)).

(** The environment has the family. *)
Definition family_known (w : world) : Prop :=
  is_Some (environ w !! FPGA_FAMILY).

(** The contract of the family command: when it succeeds it has printed a
    line. *)
Definition family_command_contract (sys : system) : Prop :=
  forall cmd,
    is_family_cmd cmd = true ->
    snd (popen sys cmd) = 0%Z -> fst (popen sys cmd) <> [].

(** The line, once cleaned, mentions the family variable. *)
Definition mentions_family (line : string) : bool :=
  PyStr.contains FPGA_FAMILY (clean_line line).

(** From [w] to [w'] the family has been asked for at most once, not at
    all if [w] had it, and its value has changed only by asking. *)
Definition steady (w w' : world) : Prop :=
  family_resolutions w <= family_resolutions w'
  /\ family_resolutions w' <= family_resolutions w + 1
  /\ (family_known w -> family_resolutions w' = family_resolutions w)
  /\ (family_resolutions w' = family_resolutions w ->
      environ w' !! FPGA_FAMILY = environ w !! FPGA_FAMILY).

(** Moreover, if it has been asked for, [w'] has it. *)
Definition settled (w w' : world) : Prop :=
  steady w w'
  /\ (family_resolutions w' = family_resolutions w + 1 -> family_known w').

(** A computation that asks for the family at most once and, when it
    returns, has it if it has asked. *)
Definition once {A} (m : M A) : Prop :=
  forall w,
    match m w with
    | (Ok _, w') => settled w w'
    | (_, w') => steady w w'
    end.

(** ** Components of absolute paths *)

(** A component: a text without a slash. *)
Definition slashfree (x : string) : Prop := PyStr.has_char "/" x = false.

(** A component that [normpath] keeps in an absolute path. *)
Definition clean (x : string) : Prop :=
  x <> "" /\ x <> "." /\ x <> ".." /\ slashfree x.

(** The components of [abspath(x)], the last one first. *)
Definition abs_stack (cwd x : string) : list string :=
  fold_left (PosixPath.normpath_step 1)
            (PyStr.split "/" (if PosixPath.isabs x then x
                              else PosixPath.join cwd x))
            [].

(** The components of [abspath(x)] as [relpath] lists them. *)
Definition abs_comps (cwd x : string) : list string :=
  PosixPath.nonempty_comps (PosixPath.abspath cwd x).

(** The text of a list of relative components. *)
Definition render (rel_list : list string) : string :=
  match rel_list with
  | [] => "."
  | _ => PyStr.join "/" rel_list
  end.

(** The last character of a text is a space. *)
Fixpoint ends_with_space (s : string) : bool :=
  match s with
  | "" => false
  | String a "" => PyStr.isspace a
  | String _ s' => ends_with_space s'
  end.

(** The relative components [relpath] computes. *)
Definition rel_list_of (start_list path_list : list string) : list string :=
  repeat ".." (length start_list
               - PosixPath.commonprefix_len start_list path_list)
  ++ skipn (PosixPath.commonprefix_len start_list path_list) path_list.


(** ** Directories that coincide *)

(** Two names of one directory: their absolute paths are equal. *)
Definition same_directory (sys : system) (a b : string) : Prop :=
  PosixPath.abspath (getcwd sys) a = PosixPath.abspath (getcwd sys) b.

(** An entry that [fixRelPath] reads as a bare file in [dir]: no
    [+incdir+], no colon, and not the name of a directory. *)
Definition read_as_bare_file (sys : system) (r dir : string) : Prop :=
  is_incdir r = false
  /\ PyStr.has_char ":" r = false
  /\ isdir sys (PosixPath.join dir r) = false.

(** ** Stems *)

(** What may precede the last component of a path: nothing, or text that
    ends with a slash. *)
Definition is_stem (s : string) : Prop :=
  s = "" \/ exists s', s = s' +:+ "/".

(** The path [x] names the directory [t] or a directory above it: all its
    components lead to [t]. *)
Definition names_ancestor (sys : system) (x t : string) : Prop :=
  PosixPath.commonprefix_len (abs_comps (getcwd sys) t)
                             (abs_comps (getcwd sys) x)
  = length (abs_comps (getcwd sys) x).

(** ** The release library directory *)

(** The file that marks a release [hw/lib] directory. *)
Definition platform_class_file : string := "fme-platform-class.txt".

(** What [getHWLibPath] answers for the directory it has chosen. *)
Definition checked_hw_lib (sys : system) (hw_lib_dir : string) (w : world)
  : outcome string * world :=
  if path_exists sys (PosixPath.join hw_lib_dir platform_class_file)
  then (Ok hw_lib_dir, w)
  else (Exit (HwLibNotRelease hw_lib_dir), w).

(** Every character of every line is 7-bit. *)
Definition all_ascii (lines : list string) : bool :=
  forallb (PyStr.all_chars (fun c => nat_of_ascii c <? 128)) lines.

(** The sample system with commands that print nothing and succeed. *)
Definition silent_system : system :=
  {| getcwd := getcwd sample_system;
     file_lines := file_lines sample_system;
     isdir := isdir sample_system;
     path_exists := path_exists sample_system;
     popen := fun _ => ([], 0%Z) |}.

(** ** Version lines *)

(** A line of the output of [quartus_sh] that, once stripped, begins with
    [Version]. *)
Definition is_version_line (line : string) : bool :=
  (PyStr.take 7 (PyStr.strip line) =? "Version")%string.

(** The major and the major.minor version that the script reads off a
    line. *)
Definition version_major (line : string) : string :=
  Re.sub_group1 Re.major (PyStr.strip line).

Definition version_major_minor (line : string) : string :=
  Re.sub_group1 Re.major_minor (PyStr.strip line).

(** ** Entries by kind and mode *)

(** A name whose extension some table has: [validateTag] accepts it. *)
Definition recognized (c : string) : Prop :=
  exists m, is_Some (mode_table m !! file_ext c).

(** An entry that passes the loop over sources: a directive, an include,
    or a source file with a recognized extension. *)
Definition accepted (c : string) : Prop :=
  is_source_file c = true -> recognized c.

(** The simulator includes of a simulation mode: [SI] and [SI_VLOG] for
    Verilog, [SI_VHDL] for VHDL. *)
Definition own_include (m : TargetMode) (cmd : string) : bool :=
  match m with
  | SimVerilog => bool_decide (cmd = "SI") || bool_decide (cmd = "SI_VLOG")
  | SimVhdl => bool_decide (cmd = "SI_VHDL")
  | _ => false
  end.

(** A source file that mode [m] prints. *)
Definition printed_source (m : TargetMode) (c : string) : bool :=
  is_source_file c && bool_decide (is_Some (mode_table m !! file_ext c)).

(** A line of the loop over sources in a simulation mode: a source file
    of the mode as it is, or the value of an include of the mode, after
    [-F] unless it is a Tcl script. *)
Definition sim_source_line (m : TargetMode) (cfg : list string)
           (line : string) : Prop :=
  exists c, In c cfg
    /\ ((printed_source m c = true /\ line = c)
        \/ (exists cmd value,
               c = cmd +:+ ":" +:+ value /\ own_include m cmd = true
               /\ ((file_ext value = ".tcl" /\ line = value)
                   \/ (file_ext value <> ".tcl"
                       /\ line = "-F " +:+ value)))).

(** ** The error stream *)

(** What the script writes on the error stream: a report, the diagnostic
    of [errorExit], or the traceback of an exception that no handler has
    caught. *)
Inductive stream_item : Type :=
| Report (msg : string)
| Diagnostic (e : fatal)
| Traceback (x : pyexn).

(** What the end of a computation adds to the error stream, when nothing
    catches its error. *)
Definition ending {A} (r : outcome A) : list stream_item :=
  match r with
  | Ok _ => []
  | Exit e => [Diagnostic e]
  | Raise x => [Traceback x]
  end.

(** The error stream of the script when a computation has ended as [r]:
    the reports, then the diagnostic or the traceback of the error that
    ended it, if one did. *)
Definition error_stream {A} (r : outcome A * world) : list stream_item :=
  map Report (stderr (snd r)) ++ ending (fst r).

(** ** What a parse may change *)

(** The variables the script sets. *)
Definition resolved_variables : list string :=
  [FPGA_FAMILY; "QUARTUS_VERSION"; "QUARTUS_VERSION_MAJOR"].

(** The commands the script launches. *)
Definition known_command (cmd : string) : bool :=
  is_family_cmd cmd || (cmd =? quartus_sh)%string.

(** From [w] to [w'] only the variables the script sets have changed and
    none has been unset, only its two commands have been launched, and
    reports have been added to the error stream, none if [be_quiet]. *)
Definition extends (be_quiet : bool) (w w' : world) : Prop :=
  (forall k, k ∉ resolved_variables -> environ w' !! k = environ w !! k)
  /\ (forall k, is_Some (environ w !! k) -> is_Some (environ w' !! k))
  /\ (exists cmds, launched w' = launched w ++ cmds
                   /\ Forall (fun c => known_command c = true) cmds)
  /\ (exists msgs, stderr w' = stderr w ++ msgs
                   /\ (be_quiet = true -> msgs = [])).

(** A computation that changes the world within these bounds. *)
Definition framed {A} (be_quiet : bool) (m : M A) : Prop :=
  forall w, extends be_quiet w (snd (m w)).

(** No line of a manifest mentions the text [name]. *)
Definition unmentioned (sys : system) (name : string) : Prop :=
  forall file lines,
    file_lines sys file = Some lines ->
    Forall (fun line => PyStr.contains name (clean_line line) = false) lines.

(** * Properties *)

(** ** The library model on sample inputs *)

Example splitext_top : PosixPath.splitext "rtl/top.SV" = ("rtl/top", ".SV").
Proof. reflexivity. Qed.

Example splitext_hidden : PosixPath.splitext "a.b/.x.rc" = ("a.b/.x", ".rc").
Proof. reflexivity. Qed.

Example splitext_dots : PosixPath.splitext "dir/...v" = ("dir/...v", "").
Proof. reflexivity. Qed.

Example lookup_top :
  lookupTag "rtl/top.SV" quartus_tag_map = Some "SYSTEMVERILOG_FILE".
Proof. reflexivity. Qed.

Example normpath_ex :
  map PosixPath.normpath ["//a/../..//b/./c/"; "///a"; "a/../../b"; ""]
  = ["//b/c"; "/a"; "../b"; "."].
Proof. vm_compute. reflexivity. Qed.

Example dirname_ex :
  map PosixPath.dirname ["a/b//c"; "//x"; "x"; "/a"] = ["a/b"; "//"; ""; "/"].
Proof. vm_compute. reflexivity. Qed.

Example relpath_ex :
  PosixPath.relpath "/w" "/w/a/../b/x.v" "/w/c/d" = Ok "../../b/x.v"
  /\ PosixPath.relpath "/w" "top.sv  " "/w" = Ok "top.sv  "
  /\ PosixPath.relpath "/w" "" "a" = Raise ValueError
  /\ PosixPath.relpath "/w" "a" "" = Ok "a".
Proof. vm_compute. auto. Qed.

Example expandvars_ex :
  map (PosixPath.expandvars env0)
      ["$FOO/${FOO}x/$NOPE/${NOPE}"; "${FOO/$FOO"; "$FOO$$FOO-$"; "$FOO_x";
       "${}$FOO"; "x${FOO}${FOO"; "$A/$FOO"]
  = ["bar/barx/$NOPE/${NOPE}"; "${FOO/$FOO"; "bar$bar-$"; "$FOO_x";
     "${}bar"; "xbar${FOO"; "$FOO/bar"].
Proof. vm_compute. reflexivity. Qed.

Example re_major_ex :
  map (Re.sub_group1 Re.major)
      ["Version 18.1.0 Build 625"; "Version.x 18.1"; "Version 18";
       "Version a.b.c 1.2.3"; "Version .."; "Version 1..2"]
  = ["18"; "18"; "Version 18"; "1"; ""; "1"].
Proof. vm_compute. reflexivity. Qed.

Example re_major_minor_ex :
  map (Re.sub_group1 Re.major_minor)
      ["Version 18.1.0 Build 625"; "Version.x 18.1"; "Version 18";
       "Version 18.1 x"; "Version a.b.c 1.2.3"; "Version .."; "Version 1..2"]
  = ["18.1"; "Version.x 18.1"; "Version 18"; "Version 18.1 x"; "1.2"; ".";
     "1."].
Proof. vm_compute. reflexivity. Qed.

Example main_synthesis :
  main sample_system 8
       (mode_options Synthesis "m.txt" "/w" false true None) sample_world
  = ([ this_dir_header;
       macro_assignment "+define+FOO";
       search_path_assignment "${THIS_DIR}/" "+incdir+../rtl";
       tagged_assignment "SYSTEMVERILOG_FILE" "${THIS_DIR}/" "top.sv";
       source_command "${THIS_DIR}/" "setup.tcl" ],
     Ok tt, sample_world).
Proof. vm_compute. reflexivity. Qed.

Example main_family :
  main sample_system 8
       (mode_options QsysOnly "fam.txt" "/w" false true None) sample_world
  = ([ "ip/A10/x.qsys"; "sub/A10/y.ip" ], Ok tt,
     {| environ := <[FPGA_FAMILY := "A10"]> (environ sample_world);
        launched := ["afu_platform_info --key=fpga-family intg_xeon"];
        stderr := [] |}).
Proof. vm_compute. reflexivity. Qed.

(** ** Tag tables *)

Lemma lookupTag_lookup (filename : string) (db : gmap string string) :
  lookupTag filename db = db !! file_ext filename.
Proof.
  unfold lookupTag, in_map.
  destruct (db !! file_ext filename); reflexivity.
Qed.

Lemma in_map_false (ext : string) (db : gmap string string) :
  in_map ext db = false <-> db !! ext = None.
Proof. unfold in_map. destruct (db !! ext); split; congruence. Qed.

Lemma in_map_true (ext : string) (db : gmap string string) :
  in_map ext db = true <-> is_Some (db !! ext).
Proof.
  unfold in_map. destruct (db !! ext); split; try congruence; eauto.
  intros [? ?]; congruence.
Qed.

(** [validateTag] accepts a name exactly when some table has its
    extension. *)
Lemma validateTag_Ok (filename : string) :
  validateTag filename = Ok tt
  <-> exists m, is_Some (mode_table m !! file_ext filename).
Proof.
  unfold validateTag. split.
  - intros H.
    destruct (in_map (file_ext filename) quartus_tag_map) eqn:E1;
      [exists Synthesis; by apply in_map_true|].
    destruct (in_map (file_ext filename) qsys_tag_map) eqn:E2;
      [exists QsysOnly; by apply in_map_true|].
    destruct (in_map (file_ext filename) tcl_tag_map) eqn:E3;
      [exists TclOnly; by apply in_map_true|].
    destruct (in_map (file_ext filename) qsys_ipx_tag_map) eqn:E4;
      [exists IpxOnly; by apply in_map_true|].
    destruct (in_map (file_ext filename) json_tag_map) eqn:E5;
      [exists JsonOnly; by apply in_map_true|].
    destruct (in_map (file_ext filename) sim_vlog_tag_map) eqn:E6;
      [exists SimVerilog; by apply in_map_true|].
    destruct (in_map (file_ext filename) sim_vhdl_tag_map) eqn:E7;
      [exists SimVhdl; by apply in_map_true|].
    discriminate H.
  - intros [m Hm]. apply in_map_true in Hm.
    destruct m; unfold mode_table in Hm; rewrite Hm;
      repeat match goal with
             | |- context [in_map ?e ?d] => destruct (in_map e d)
             end; reflexivity.
Qed.

Lemma validateTag_Exit (filename : string) :
  (forall m, mode_table m !! file_ext filename = None) ->
  validateTag filename
  = Exit (UnrecognizedExtension (file_ext filename) filename).
Proof.
  intros H. unfold validateTag.
  pose proof (proj2 (in_map_false _ _) (H Synthesis)) as H1.
  pose proof (proj2 (in_map_false _ _) (H QsysOnly)) as H2.
  pose proof (proj2 (in_map_false _ _) (H TclOnly)) as H3.
  pose proof (proj2 (in_map_false _ _) (H IpxOnly)) as H4.
  pose proof (proj2 (in_map_false _ _) (H JsonOnly)) as H5.
  pose proof (proj2 (in_map_false _ _) (H SimVerilog)) as H6.
  pose proof (proj2 (in_map_false _ _) (H SimVhdl)) as H7.
  unfold mode_table in *.
  rewrite H1, H2, H3, H4, H5, H6, H7.
  reflexivity.
Qed.

Lemma validateTag_cases (filename : string) :
  validateTag filename = Ok tt
  \/ validateTag filename
     = Exit (UnrecognizedExtension (file_ext filename) filename).
Proof.
  unfold validateTag.
  match goal with |- context [if ?b then _ else _] => destruct b end; auto.
Qed.




(** ** Emission *)

Lemma emit_sources_app (opts : options) (pfx : string) (l1 l2 : list string) :
  emit_sources opts pfx (l1 ++ l2)
  = match emit_sources opts pfx l1 with
    | (out, Ok _) =>
        let '(out', r) := emit_sources opts pfx l2 in (out ++ out', r)
    | (out, r) => (out, r)
    end.
Proof.
  induction l1 as [|c l1 IH]; simpl.
  - destruct (emit_sources opts pfx l2); reflexivity.
  - destruct (emit_entry opts pfx c) as [out [[]|e|x]]; try reflexivity.
    rewrite IH.
    destruct (emit_sources opts pfx l1) as [out1 [[]|e|x]]; try reflexivity.
    destruct (emit_sources opts pfx l2) as [out2 r].
    by rewrite app_assoc.
Qed.

(** An entry that prints nothing and lets the script go on can be left
    out of the loop over sources. *)
Lemma emit_sources_skip (opts : options) (pfx c : string)
      (l1 l2 : list string) :
  emit_entry opts pfx c = ([], Ok tt) ->
  emit_sources opts pfx (l1 ++ c :: l2) = emit_sources opts pfx (l1 ++ l2).
Proof.
  intros H. rewrite !emit_sources_app. simpl. rewrite H.
  destruct (emit_sources opts pfx l1) as [out1 [[]|e|x]]; try reflexivity.
  destruct (emit_sources opts pfx l2); reflexivity.
Qed.

Lemma flat_map_skip {A B} (f : A -> list B) (c : A) (l1 l2 : list A) :
  f c = [] -> flat_map f (l1 ++ c :: l2) = flat_map f (l1 ++ l2).
Proof. intros H. rewrite !flat_map_app. simpl. by rewrite H. Qed.

Lemma emitCfg_skip (opts : options) (c : string) (l1 l2 : list string) :
  emit_define opts c = [] ->
  emit_incdir opts (rel_prefix_of opts) c = [] ->
  emit_entry opts (rel_prefix_of opts) c = ([], Ok tt) ->
  emitCfg opts (l1 ++ c :: l2) = emitCfg opts (l1 ++ l2).
Proof.
  intros Hd Hi He. unfold emitCfg.
  rewrite (emit_sources_skip _ _ _ _ _ He).
  by rewrite (flat_map_skip _ _ _ _ Hd), (flat_map_skip _ _ _ _ Hi).
Qed.

Lemma take_8_take_1 (lit c : string) :
  String.length lit = 8 -> lit = PyStr.take 8 c ->
  PyStr.take 1 lit = PyStr.take 1 c.
Proof.
  intros Hl ->. destruct c; reflexivity.
Qed.

Lemma not_plus_not_directive (opts : options) (pfx c : string) :
  ("+" =? PyStr.take 1 c)%string = false ->
  emit_define opts c = [] /\ emit_incdir opts pfx c = [].
Proof.
  intros H. apply String.eqb_neq in H.
  unfold emit_define, emit_incdir.
  split.
  - destruct (String.eqb_spec "+define+" (PyStr.take 8 c)) as [E|E]; [|done].
    apply take_8_take_1 in E; [|done]. by destruct H.
  - destruct (String.eqb_spec "+incdir+" (PyStr.take 8 c)) as [E|E]; [|done].
    apply take_8_take_1 in E; [|done]. by destruct H.
Qed.

(** A source file goes to the last branch of the loop. *)
Lemma emit_entry_source_file (opts : options) (pfx c : string) :
  is_source_file c = true ->
  emit_entry opts pfx c = emit_source_file opts pfx c.
Proof.
  unfold is_source_file, emit_entry, entry_cmd.
  intros [Hplus Hcmd]%andb_true_iff.
  apply negb_true_iff in Hplus. rewrite Hplus.
  apply negb_true_iff, bool_decide_eq_false in Hcmd.
  destruct (PyStr.split_once ":" c) as [[cmd value]|]; simpl in *.
  - assert (cmd <> "SI" /\ cmd <> "SI_VLOG" /\ cmd <> "SI_VHDL" /\ cmd <> "QI")
      as (H1 & H2 & H3 & H4).
    { repeat split; intros ->; apply Hcmd; set_solver. }
    apply String.eqb_neq in H1, H2, H3, H4.
    rewrite H1, H2, H3, H4. reflexivity.
  - reflexivity.
Qed.

(** The flags of the options of a mode. *)
Lemma mode_options_flags (m : TargetMode) (file target : string)
      (absolute be_quiet : bool) (hw_lib : option string) :
  let o := mode_options m file target absolute be_quiet hw_lib in
  sim_vlog o = bool_decide (m = SimVerilog)
  /\ sim_vhdl o = bool_decide (m = SimVhdl)
  /\ sim o = bool_decide (m = SimVerilog) || bool_decide (m = SimVhdl)
  /\ json o = bool_decide (m = JsonOnly)
  /\ qsys o = bool_decide (m = QsysOnly)
  /\ ipx o = bool_decide (m = IpxOnly)
  /\ tcl o = bool_decide (m = TclOnly)
  /\ abs o = absolute /\ quiet o = be_quiet /\ lib o = hw_lib
  /\ rel o = target /\ config_file o = file.
Proof. repeat split. Qed.

(** In every mode the source files are looked up in the table of the mode. *)
Lemma emit_source_file_mode (m : TargetMode) (file target : string)
      (absolute be_quiet : bool) (hw_lib : option string) (pfx c : string) :
  m <> Synthesis ->
  validateTag c = Ok tt ->
  emit_source_file (mode_options m file target absolute be_quiet hw_lib) pfx c
  = (if truthy (mode_table m !! file_ext c) then [c] else [], Ok tt).
Proof.
  intros Hm Hv. unfold emit_source_file. rewrite Hv.
  destruct (mode_options_flags m file target absolute be_quiet hw_lib)
    as (-> & -> & _ & -> & -> & -> & -> & _).
  rewrite !lookupTag_lookup.
  destruct m; try done.
Qed.

Lemma split_once_Some (sep : ascii) (s a b : string) :
  PyStr.split_once sep s = Some (a, b) ->
  s = a +:+ String sep b /\ PyStr.has_char sep a = false.
Proof.
  revert a. induction s as [|c s IH]; intros a; simpl; [done|].
  destruct (Ascii.eqb_spec c sep) as [->|Hne].
  - intros [= <- <-]. done.
  - destruct (PyStr.split_once sep s) as [[a' b']|]; [|done].
    intros [= <- <-]. destruct (IH a' eq_refl) as [-> Hh].
    simpl. split; [done|].
    rewrite Hh. by apply Ascii.eqb_neq in Hne as ->.
Qed.

Lemma split_once_None (sep : ascii) (s : string) :
  PyStr.split_once sep s = None <-> PyStr.has_char sep s = false.
Proof.
  induction s as [|c s IH]; simpl; [done|].
  destruct (Ascii.eqb c sep); simpl; [done|].
  destruct (PyStr.split_once sep s) as [[a b]|]; split; try done.
  - intros H. apply IH in H. done.
  - intros. by apply IH.
Qed.

Lemma split_once_app (sep : ascii) (a b : string) :
  PyStr.has_char sep a = false ->
  PyStr.split_once sep (a +:+ String sep b) = Some (a, b).
Proof.
  induction a as [|c a IH]; simpl.
  - by rewrite Ascii.eqb_refl.
  - intros [H1 H2]%orb_false_iff. by rewrite H1, IH.
Qed.

(** C5.  In each of the six restricted modes, a source file whose
    extension some table knows and the table of the mode does not is
    dropped: the round of the loop prints nothing and the script goes on,
    so that the whole output is the one of the manifest without the
    entry. *)
Theorem C5_filtered_source_dropped (m : TargetMode) (file target : string)
        (absolute be_quiet : bool) (hw_lib : option string)
        (c : string) (l1 l2 : list string) :
  m <> Synthesis ->
  is_source_file c = true ->
  (exists m', is_Some (mode_table m' !! file_ext c)) ->
  mode_table m !! file_ext c = None ->
  let opts := mode_options m file target absolute be_quiet hw_lib in
  emit_entry opts (rel_prefix_of opts) c = ([], Ok tt)
  /\ emitCfg opts (l1 ++ c :: l2) = emitCfg opts (l1 ++ l2).
Proof.
  intros Hm Hsrc Hknown Hnone opts.
  assert (emit_entry opts (rel_prefix_of opts) c = ([], Ok tt)) as He.
  { rewrite emit_entry_source_file by done.
    unfold opts. rewrite emit_source_file_mode; [|done|by apply validateTag_Ok].
    by rewrite Hnone. }
  split; [done|].
  unfold is_source_file in Hsrc.
  apply andb_true_iff in Hsrc as [Hplus _]. apply negb_true_iff in Hplus.
  destruct (not_plus_not_directive opts (rel_prefix_of opts) c Hplus).
  by apply emitCfg_skip.
Qed.

Lemma C5_filtered_source_dropped_witness :
  emitCfg (mode_options QsysOnly "m.txt" "/w" false true None)
          (["a.qsys"] ++ "top.sv" :: ["b.ip"])
  = (["a.qsys"; "b.ip"], Ok tt).
Proof.
  rewrite (proj2 (C5_filtered_source_dropped QsysOnly "m.txt" "/w" false true
                    None "top.sv" ["a.qsys"] ["b.ip"]
                    ltac:(discriminate) eq_refl
                    (ex_intro _ Synthesis (mk_is_Some _ _ eq_refl))
                    eq_refl)).
  vm_compute. reflexivity.
Defined.

(** C10.  An entry that begins with [+] and is neither a [+define+] nor a
    [+incdir+] directive prints nothing in any of the three loops, whatever
    the options, and its extension is never validated: the output is the
    one of the manifest without the entry. *)
Theorem C10_other_plus_entry_skipped (opts : options) (c : string)
        (l1 l2 : list string) :
  PyStr.take 1 c = "+" ->
  is_define c = false ->
  is_incdir c = false ->
  emit_define opts c = []
  /\ emit_incdir opts (rel_prefix_of opts) c = []
  /\ emit_entry opts (rel_prefix_of opts) c = ([], Ok tt)
  /\ emitCfg opts (l1 ++ c :: l2) = emitCfg opts (l1 ++ l2).
Proof.
  intros Hplus Hd Hi.
  assert (emit_define opts c = []) as H1
    by (unfold emit_define; fold (is_define c); by rewrite Hd).
  assert (emit_incdir opts (rel_prefix_of opts) c = []) as H2
    by (unfold emit_incdir; fold (is_incdir c); by rewrite Hi).
  assert (emit_entry opts (rel_prefix_of opts) c = ([], Ok tt)) as H3
    by (unfold emit_entry; by rewrite Hplus).
  repeat split; try done. by apply emitCfg_skip.
Qed.

Lemma C10_other_plus_entry_skipped_witness :
  emitCfg (mode_options Synthesis "m.txt" "/w" true true None)
          (["/w/a.v"] ++ "+libext+.xyz" :: ["/w/b.v"])
  = ([tagged_assignment "VERILOG_FILE" "" "/w/a.v";
      tagged_assignment "VERILOG_FILE" "" "/w/b.v"], Ok tt).
Proof.
  rewrite (proj2 (proj2 (proj2
             (C10_other_plus_entry_skipped
                (mode_options Synthesis "m.txt" "/w" true true None)
                "+libext+.xyz" ["/w/a.v"] ["/w/b.v"]
                eq_refl eq_refl eq_refl)))).
  vm_compute. reflexivity.
Defined.

Lemma synthesis_flags (opts : options) :
  synthesis_options opts ->
  sim opts = false /\ sim_vlog opts = false /\ sim_vhdl opts = false
  /\ qsys opts = false /\ ipx opts = false /\ json opts = false
  /\ tcl opts = false.
Proof.
  unfold synthesis_options, file_type_filter.
  intros (? & ? & ? & H).
  apply orb_false_iff in H as [H ?]. apply orb_false_iff in H as [H ?].
  apply orb_false_iff in H as [? ?]. done.
Qed.

(** What one round of the loop over sources prints in synthesis. *)
Lemma emit_entry_synthesis (opts : options) (pfx c : string) :
  synthesis_options opts ->
  (exists v, c = "QI:" +:+ v
             /\ emit_entry opts pfx c = ([source_command pfx v], Ok tt))
  \/ (exists tag, ("+" =? PyStr.take 1 c)%string = false
                  /\ lookupTag c quartus_tag_map = Some tag
                  /\ tag <> "SOURCE_TCL_SCRIPT_FILE"
                  /\ emit_entry opts pfx c
                     = ([tagged_assignment tag pfx c], Ok tt))
  \/ fst (emit_entry opts pfx c) = [].
Proof.
  intros Hs.
  pose proof (synthesis_flags opts Hs) as (Hsim & Hvl & Hvh & Hq & Hi & Hj & Ht).
  destruct Hs as (_ & _ & _ & Hf).
  unfold emit_entry. rewrite Hsim, Hvl, Hvh, Ht, Hf.
  destruct ("+" =? PyStr.take 1 c)%string eqn:Hplus; [by right; right|].
  assert (fst (emit_source_file opts pfx c) = []
          \/ exists tag, lookupTag c quartus_tag_map = Some tag
                         /\ tag <> "SOURCE_TCL_SCRIPT_FILE"
                         /\ emit_source_file opts pfx c
                            = ([tagged_assignment tag pfx c], Ok tt)) as Hsrc.
  { unfold emit_source_file. rewrite Hvl, Hvh, Hq, Hi, Hj, Ht.
    destruct (validateTag c) as [[]|e|x]; [|by left..].
    destruct (lookupTag c quartus_tag_map) as [tag|] eqn:Htag; [|by left].
    destruct (String.eqb_spec tag "SOURCE_TCL_SCRIPT_FILE");
      cbn [negb fst]; [by left|].
    right. by exists tag. }
  assert (fst (emit_source_file opts pfx c) = [] ->
          fst (emit_source_file opts pfx c) = []) as _ by done.
  destruct (PyStr.split_once ":" c) as [[cmd value]|] eqn:Hsp;
    cbn [from_option fst snd].
  - cbn [orb andb negb]. rewrite ?andb_false_r.
    destruct (bool_decide (is_Some (Some (cmd, value)))); cbn [andb];
      [|destruct Hsrc as [?|(tag & ? & ? & ?)];
        [by right; right|right; left; by exists tag]].
    destruct (String.eqb_spec cmd "SI"); cbn [orb]; [by right; right|].
    destruct (String.eqb_spec cmd "SI_VLOG"); [by right; right|].
    destruct (String.eqb_spec cmd "SI_VHDL"); [by right; right|].
    destruct (String.eqb_spec cmd "QI") as [->|]; cbn [negb andb].
    { left. exists value. split; [|done].
      by apply split_once_Some in Hsp as [-> _]. }
    destruct Hsrc as [?|(tag & ? & ? & ?)];
      [by right; right|right; left; by exists tag].
  - cbn [orb andb negb]. rewrite ?andb_false_r.
    destruct (bool_decide (is_Some (@None (string * string)))); cbn [andb];
      destruct Hsrc as [?|(tag & ? & ? & ?)];
      try (by right; right); try (right; left; by exists tag).
    all: repeat match goal with
           | |- context [(?a =? ?b)%string] => destruct (a =? b)%string
           end; cbn [orb andb negb];
      try (by right; right); try (right; left; by exists tag).
Qed.

(** C6.  In synthesis a bare source file tagged [SOURCE_TCL_SCRIPT_FILE]
    prints nothing and can be left out of the manifest; [QI:value] prints
    a source command; and among the entries whose extension is [.tcl] only
    the [QI:] ones print anything. *)
Theorem C6_bare_tcl_not_emitted (opts : options) (pfx : string) :
  synthesis_options opts ->
  (forall c l1 l2,
      is_source_file c = true ->
      lookupTag c quartus_tag_map = Some "SOURCE_TCL_SCRIPT_FILE" ->
      emit_entry opts pfx c = ([], Ok tt)
      /\ emitCfg opts (l1 ++ c :: l2) = emitCfg opts (l1 ++ l2))
  /\ (forall value,
         emit_entry opts pfx ("QI:" +:+ value)
         = ([source_command pfx value], Ok tt))
  /\ (forall c,
         file_ext c = ".tcl" ->
         fst (emit_entry opts pfx c) <> [] ->
         exists value, c = "QI:" +:+ value
                       /\ emit_entry opts pfx c
                          = ([source_command pfx value], Ok tt)).
Proof.
  intros Hs.
  pose proof (synthesis_flags opts Hs) as (Hsim & Hvl & Hvh & Hq & Hi & Hj & Ht).
  assert (forall pfx c,
             is_source_file c = true ->
             lookupTag c quartus_tag_map = Some "SOURCE_TCL_SCRIPT_FILE" ->
             emit_entry opts pfx c = ([], Ok tt)) as Hbare.
  { intros pfx' c Hsrc Htag. rewrite emit_entry_source_file by done.
    unfold emit_source_file. rewrite Hvl, Hvh, Hq, Hi, Hj, Ht, Htag.
    assert (validateTag c = Ok tt) as ->; [|done].
    apply validateTag_Ok. exists Synthesis.
    rewrite lookupTag_lookup in Htag.
    change (is_Some (quartus_tag_map !! file_ext c)). by rewrite Htag. }
  split; [|split].
  - intros c l1 l2 Hsrc Htag. split; [by apply Hbare|].
    unfold is_source_file in Hsrc.
    pose proof Hsrc as [Hplus _]%andb_true_iff. apply negb_true_iff in Hplus.
    destruct (not_plus_not_directive opts (rel_prefix_of opts) c Hplus).
    apply emitCfg_skip; try done. by apply Hbare.
  - intros value. unfold emit_entry.
    change (PyStr.split_once ":" ("QI:" +:+ value)) with (Some ("QI", value)).
    change (PyStr.take 1 ("QI:" +:+ value)) with "Q".
    destruct Hs as (_ & _ & _ & Hf). rewrite Hsim, Hf. reflexivity.
  - intros c Hext Hout.
    destruct (emit_entry_synthesis opts pfx c Hs)
      as [(v & -> & He)|[(tag & _ & Htag & Hne & _)|Hnil]].
    + by exists v.
    + rewrite lookupTag_lookup, Hext in Htag.
      vm_compute in Htag. congruence.
    + done.
Qed.

Lemma C6_bare_tcl_not_emitted_witness :
  emitCfg (mode_options Synthesis "m.txt" "/w" false true None)
          (["top.sv"] ++ "setup.tcl" :: ["QI:setup.tcl"])
  = ([this_dir_header;
      tagged_assignment "SYSTEMVERILOG_FILE" "${THIS_DIR}/" "top.sv";
      source_command "${THIS_DIR}/" "setup.tcl"], Ok tt).
Proof.
  rewrite (proj2 (proj1 (C6_bare_tcl_not_emitted
                           (mode_options Synthesis "m.txt" "/w" false true None)
                           "" ltac:(by repeat split))
                        "setup.tcl" ["top.sv"] ["QI:setup.tcl"]
                        eq_refl eq_refl)).
  vm_compute. reflexivity.
Defined.

Lemma flat_map_emit_define (opts : options) (cfg : list string) :
  sim_vlog opts = false -> sim_vhdl opts = false ->
  flat_map (emit_define opts) cfg
  = map macro_assignment (List.filter is_define cfg).
Proof.
  intros Hvl Hvh. induction cfg as [|c cfg IH]; [done|].
  cbn [flat_map List.filter]. rewrite IH.
  unfold emit_define. fold (is_define c). rewrite Hvl, Hvh.
  by destruct (is_define c).
Qed.

Lemma flat_map_emit_incdir (opts : options) (pfx : string)
      (cfg : list string) :
  sim_vlog opts = false -> sim_vhdl opts = false ->
  flat_map (emit_incdir opts pfx) cfg
  = map (search_path_assignment pfx) (List.filter is_incdir cfg).
Proof.
  intros Hvl Hvh. induction cfg as [|c cfg IH]; [done|].
  cbn [flat_map List.filter]. rewrite IH.
  unfold emit_incdir. fold (is_incdir c). rewrite Hvl, Hvh.
  by destruct (is_incdir c).
Qed.

Lemma not_plus_not_is_directive (c : string) :
  ("+" =? PyStr.take 1 c)%string = false ->
  is_define c = false /\ is_incdir c = false.
Proof.
  intros H. apply String.eqb_neq in H. unfold is_define, is_incdir.
  split.
  - destruct (String.eqb_spec "+define+" (PyStr.take 8 c)) as [E|E]; [|done].
    apply take_8_take_1 in E; [|done]. by destruct H.
  - destruct (String.eqb_spec "+incdir+" (PyStr.take 8 c)) as [E|E]; [|done].
    apply take_8_take_1 in E; [|done]. by destruct H.
Qed.

Lemma emit_sources_synthesis (opts : options) (pfx : string)
      (cfg : list string) :
  synthesis_options opts ->
  Forall (synthesis_source_line pfx cfg) (fst (emit_sources opts pfx cfg)).
Proof.
  intros Hs. induction cfg as [|c cfg IH]; [by constructor|].
  assert (Forall (synthesis_source_line pfx (c :: cfg))
                 (fst (emit_sources opts pfx cfg))) as IH'.
  { eapply Forall_impl; [exact IH|].
    intros line (c' & Hin & H). exists c'. split; [by right|done]. }
  assert (Forall (synthesis_source_line pfx (c :: cfg))
                 (fst (emit_entry opts pfx c))) as Hc.
  { destruct (emit_entry_synthesis opts pfx c Hs)
      as [(v & -> & He)|[(tag & Hplus & Htag & Hne & He)|Hnil]].
    - rewrite He. repeat constructor. exists ("QI:" +:+ v).
      split; [by left|]. repeat split; try done. left. by exists v.
    - rewrite He. repeat constructor. exists c.
      split; [by left|].
      destruct (not_plus_not_is_directive c Hplus). repeat split; try done.
      right. by exists tag.
    - rewrite Hnil. constructor. }
  cbn [emit_sources].
  destruct (emit_entry opts pfx c) as [out [[]|e|x]]; try exact Hc.
  destruct (emit_sources opts pfx cfg) as [out' r]. cbn [fst] in *.
  by apply Forall_app.
Qed.

(** C3.  In synthesis the output is the header of relative paths (when
    paths are not absolute), then the macro assignments of all [+define+]
    entries, then the search path assignments of all [+incdir+] entries,
    then the lines of the loop over sources, each one the source command of
    a [QI:] entry or the tagged assignment of a source file.  The manifest
    of the example prints, after the header, a macro assignment, a search
    path assignment, the assignment of [top.sv] as [SYSTEMVERILOG_FILE] and
    the source command of [setup.tcl]; with absolute paths it prints these
    four lines alone. *)
Theorem C3_synthesis_order (opts : options) (cfg : list string) :
  synthesis_options opts ->
  let pfx := rel_prefix_of opts in
  emitCfg opts cfg
  = ((if abs opts then [] else [this_dir_header])
       ++ map macro_assignment (List.filter is_define cfg)
       ++ map (search_path_assignment pfx) (List.filter is_incdir cfg)
       ++ fst (emit_sources opts pfx cfg),
     snd (emit_sources opts pfx cfg))
  /\ Forall (synthesis_source_line pfx cfg) (fst (emit_sources opts pfx cfg))
  /\ main sample_system 8
          (mode_options Synthesis "m.txt" "/w" false true None) sample_world
     = ([ this_dir_header;
          macro_assignment "+define+FOO";
          search_path_assignment "${THIS_DIR}/" "+incdir+../rtl";
          tagged_assignment "SYSTEMVERILOG_FILE" "${THIS_DIR}/" "top.sv";
          source_command "${THIS_DIR}/" "setup.tcl" ],
        Ok tt, sample_world)
  /\ main sample_system 8
          (mode_options Synthesis "m.txt" "/w" true true None) sample_world
     = ([ macro_assignment "+define+FOO";
          search_path_assignment "" "+incdir+/rtl";
          tagged_assignment "SYSTEMVERILOG_FILE" "" "/w/top.sv";
          source_command "" "/w/setup.tcl" ],
        Ok tt, sample_world).
Proof.
  intros Hs pfx.
  pose proof (synthesis_flags opts Hs) as (Hsim & Hvl & Hvh & _).
  split; [|split; [by apply emit_sources_synthesis|]].
  - unfold emitCfg. fold pfx. destruct Hs as (_ & _ & _ & Hf).
    rewrite Hf, Hsim. cbn [negb andb].
    rewrite flat_map_emit_define, flat_map_emit_incdir by done.
    destruct (emit_sources opts pfx cfg) as [out r]. cbn [fst snd].
    destruct (abs opts); cbn [negb]; by rewrite <- ?app_assoc.
  - split; vm_compute; reflexivity.
Qed.

Lemma C3_synthesis_order_witness :
  emitCfg (mode_options Synthesis "m.txt" "/w" false true None)
          ["top.sv"; "+incdir+../rtl"; "QI:setup.tcl"; "+define+FOO"]
  = ([ this_dir_header;
       macro_assignment "+define+FOO";
       search_path_assignment "${THIS_DIR}/" "+incdir+../rtl";
       tagged_assignment "SYSTEMVERILOG_FILE" "${THIS_DIR}/" "top.sv";
       source_command "${THIS_DIR}/" "setup.tcl" ],
     Ok tt).
Proof.
  rewrite (proj1 (C3_synthesis_order
                    (mode_options Synthesis "m.txt" "/w" false true None)
                    ["top.sv"; "+incdir+../rtl"; "QI:setup.tcl"; "+define+FOO"]
                    ltac:(by repeat split))).
  vm_compute. reflexivity.
Defined.

(** ** Path normalization *)

Lemma append_nil_l (s : string) : "" +:+ s = s.
Proof. reflexivity. Qed.

Lemma append_cons (x : ascii) (a b : string) :
  String x a +:+ b = String x (a +:+ b).
Proof. reflexivity. Qed.

Lemma append_nil_r (s : string) : s +:+ "" = s.
Proof.
  induction s as [|x s IH]; [done|]. by rewrite append_cons, IH.
Qed.

Lemma append_assoc (a b c : string) : (a +:+ b) +:+ c = a +:+ (b +:+ c).
Proof.
  induction a as [|x a IH]; [done|]. by rewrite !append_cons, IH.
Qed.

Lemma append_eq_nil (a b : string) : a +:+ b = "" -> a = "" /\ b = "".
Proof. destruct a; [done|]. rewrite append_cons. discriminate. Qed.

Lemma join_eq_nil (a b : string) : PosixPath.join a b = "" -> b = "".
Proof.
  unfold PosixPath.join.
  destruct (PyStr.startswith "/" b); [done|].
  destruct ((a =? "")%string || PyStr.endswith_char PosixPath.sep a).
  - by intros [_ ?]%append_eq_nil.
  - intros [_ [=]]%append_eq_nil.
Qed.

(** C8.  An entry with no [+define+] or [+incdir+] prefix and no colon
    whose path, joined to the directory of the manifest, names a directory
    is normalized to [+incdir+] followed by its normalized path; the
    emitter then treats it as an include directive: in synthesis it prints
    its search path assignment, and no mode takes it for a source file. *)
Theorem C8_bare_directory_is_incdir (sys : system) (opts : options)
        (c config_dir tgt_dir : string) :
  c <> "" ->
  is_define c = false ->
  is_incdir c = false ->
  PyStr.split_once ":" c = None ->
  isdir sys (PosixPath.join config_dir c) = true ->
  exists p r,
    PosixPath.relpath (getcwd sys) (PosixPath.join config_dir c) tgt_dir = Ok r
    /\ p = (if abs opts then PosixPath.abspath (getcwd sys) r else r)
    /\ fixRelPath sys opts c config_dir tgt_dir = Ok ("+incdir+" +:+ p)
    /\ (forall o pfx,
           emit_entry o pfx ("+incdir+" +:+ p) = ([], Ok tt)
           /\ (sim_vlog o = false -> sim_vhdl o = false ->
               emit_incdir o pfx ("+incdir+" +:+ p)
               = ["set_global_assignment -name SEARCH_PATH " +:+ dquote
                  +:+ pfx +:+ p +:+ dquote])).
Proof.
  intros Hc Hd Hi Hsp Hdir.
  assert (exists r, PosixPath.relpath (getcwd sys)
                      (PosixPath.join config_dir c) tgt_dir = Ok r) as [r Hr].
  { unfold PosixPath.relpath.
    destruct (String.eqb_spec (PosixPath.join config_dir c) "") as [E|_].
    - by apply join_eq_nil in E.
    - match goal with
      | |- context [match ?l with [] => _ | _ :: _ => _ end] => destruct l
      end; eauto. }
  exists (if abs opts then PosixPath.abspath (getcwd sys) r else r), r.
  repeat split; try done.
  - unfold fixRelPath.
    destruct (Nat.eqb_spec (String.length c) 0) as [E|_];
      [by destruct c|].
    unfold split_prefix.
    fold (is_define c) (is_incdir c). rewrite Hd, Hi, Hsp, Hdir, Hr.
    reflexivity.
  - intros Hvl Hvh. unfold emit_incdir. rewrite Hvl, Hvh. reflexivity.
Qed.

Lemma C8_bare_directory_is_incdir_witness :
  fixRelPath sample_system
             (mode_options Synthesis "dirs.txt" "/w" false true None)
             "rtl" "" "/w" = Ok "+incdir+rtl".
Proof.
  destruct (C8_bare_directory_is_incdir
              sample_system
              (mode_options Synthesis "dirs.txt" "/w" false true None)
              "rtl" "" "/w" ltac:(discriminate) eq_refl eq_refl eq_refl
              eq_refl) as (p & r & Hr & -> & -> & _).
  vm_compute in Hr. injection Hr as <-. reflexivity.
Defined.

(** ** Parsing *)

Section Parsing.

Variable sys : system.
Variable opts : options.
Variable tgt_dir : string.

Lemma bind_ret_l {A B} (a : A) (k : A -> M B) (w : world) :
  bind (ret a) k w = k a w.
Proof. reflexivity. Qed.

Lemma bind_assoc {A B C} (m : M A) (k : A -> M B) (h : B -> M C)
      (w : world) :
  bind (bind m k) h w = bind m (fun a => bind (k a) h) w.
Proof. unfold bind. destruct (m w) as [[a|e|x] w']; reflexivity. Qed.

Lemma bind_cong {A B} (m1 m2 : M A) (k : A -> M B) (w : world) :
  m1 w = m2 w -> bind m1 k w = bind m2 k w.
Proof. unfold bind. by intros ->. Qed.

Lemma bind_ext {A B} (m : M A) (k1 k2 : A -> M B) (w : world) :
  (forall a w', k1 a w' = k2 a w') -> bind m k1 w = bind m k2 w.
Proof.
  intros H. unfold bind. destruct (m w) as [[a|e|x] w']; [apply H|done..].
Qed.

(** The list built so far is a prefix of the result. *)
Lemma parseLines_acc (parse : string -> M (list string)) (dir : string)
      (lines cfg : list string) (w : world) :
  parseLines sys parse opts dir tgt_dir lines cfg w
  = bind (parseLines sys parse opts dir tgt_dir lines [])
         (fun r => ret (cfg ++ r)) w.
Proof.
  revert cfg w. induction lines as [|c lines IH]; intros cfg w.
  - cbn [parseLines]. rewrite bind_ret_l. by rewrite app_nil_r.
  - cbn [parseLines]. rewrite bind_assoc. apply bind_ext. intros new w'.
    rewrite (IH (cfg ++ new)). unfold bind at 2.
    rewrite (IH ([] ++ new)). unfold bind, ret.
    destruct (parseLines sys parse opts dir tgt_dir lines [] w')
      as [[r|e|x] w'']; try reflexivity.
    by rewrite app_assoc.
Qed.

(** The entries of the lines of a file come in the order of the lines,
    those of a line in the place of the line. *)
Lemma parseLines_splice (parse : string -> M (list string)) (dir : string)
      (l1 : list string) (line : string) (l2 : list string) (w : world) :
  parseLines sys parse opts dir tgt_dir (l1 ++ line :: l2) [] w
  = (let* r1 := parseLines sys parse opts dir tgt_dir l1 [] in
     let* rB := parseLine sys parse opts dir tgt_dir line in
     let* r2 := parseLines sys parse opts dir tgt_dir l2 [] in
     ret (r1 ++ rB ++ r2)) w.
Proof.
  assert (forall cfg w,
             parseLines sys parse opts dir tgt_dir (l1 ++ line :: l2) cfg w
             = (let* r1 := parseLines sys parse opts dir tgt_dir l1 cfg in
                let* rB := parseLine sys parse opts dir tgt_dir line in
                let* r2 := parseLines sys parse opts dir tgt_dir l2 [] in
                ret (r1 ++ rB ++ r2)) w) as H.
  { induction l1 as [|c l1 IH]; intros cfg w0.
    - cbn [app parseLines]. rewrite bind_ret_l.
      apply bind_ext. intros rB w'. rewrite parseLines_acc.
      apply bind_ext. intros r w''. unfold ret. by rewrite <- app_assoc.
    - cbn [app parseLines]. rewrite bind_assoc. apply bind_ext.
      intros new w'. apply IH. }
  apply H.
Qed.

Lemma expandvars_plain (env : gmap string string) (c : string) :
  PyStr.has_char "$" c = false -> PosixPath.expandvars env c = c.
Proof. intros H. unfold PosixPath.expandvars. by rewrite H. Qed.

(** Substitution leaves a plain line as it is and the world with it. *)
Lemma substitute_plain (c : string) (w : world) :
  plain c -> substitute sys opts c w = (Ok c, w).
Proof.
  intros (Hd & Hf & Hq). unfold substitute.
  rewrite !bind_ret_l || idtac.
  unfold bind, get_environ, ret. rewrite Hf, Hq. cbn [andb].
  by rewrite expandvars_plain.
Qed.

(** [parseConfigFile] turns every [IOError] into a fatal error. *)
Lemma parseConfigFile_no_IOError (fuel : nat) (name : string) (w : world) :
  fst (parseConfigFile sys fuel opts name tgt_dir w) <> Raise OSError.
Proof.
  destruct fuel as [|fuel]; [done|]. cbn [parseConfigFile].
  destruct (String.length name =? 0); [done|].
  unfold except_IOError.
  match goal with |- context [match ?m with (_, _) => _ end] =>
    destruct m as [[a|e|[]] w'] end; done.
Qed.

Lemma except_IOError_id {A} (m : M A) (e : fatal) (w : world) :
  fst (m w) <> Raise OSError -> except_IOError m e w = m w.
Proof.
  unfold except_IOError. destruct (m w) as [[a|e'|[]] w']; done.
Qed.

Lemma bind_ret_r {A} (m : M A) (w : world) : bind m ret w = m w.
Proof. unfold bind, ret. destruct (m w) as [[a|e|x] w']; reflexivity. Qed.


Lemma expandvars_keeps_include (env : gmap string string) (c : string) :
  PyStr.take 2 c = "C:" ->
  PyStr.take 2 (PosixPath.expandvars env c) = "C:".
Proof.
  destruct c as [|a [|b c]]; try discriminate.
  intros [= -> ->]. unfold PosixPath.expandvars.
  destruct (PyStr.has_char "$" (String "C" (String ":" c))); reflexivity.
Qed.

(** What substitution returns is the expansion of the line in the
    environment it leaves. *)
Lemma substitute_result (c r : string) (w w' : world) :
  substitute sys opts c w = (Ok r, w') ->
  r = PosixPath.expandvars (environ w') c.
Proof.
  unfold substitute, bind, get_environ, ret.
  destruct (if _ : bool then _ else _) as [[[]|e|x] w1]; try discriminate.
  destruct (if _ : bool then _ else _) as [[[]|e|x] w2]; try discriminate.
  by intros [= <- <-].
Qed.

Lemma parseLine_include (parse : string -> M (list string))
      (dir line : string) (w : world) :
  PyStr.take 2 (clean_line line) = "C:" ->
  parseLine sys parse opts dir tgt_dir line w
  = (let* c := substitute sys opts (clean_line line) in
     parse (PosixPath.join dir (PyStr.drop 2 c))) w.
Proof.
  intros H. unfold parseLine, bind.
  destruct (substitute sys opts (clean_line line) w) as [[c|e|x] w'] eqn:E;
    try reflexivity.
  apply substitute_result in E as ->.
  by rewrite (expandvars_keeps_include _ _ H).
Qed.

Lemma parseLine_plain_source (parse : string -> M (list string))
      (dir line : string) (w : world) :
  plain (clean_line line) ->
  PyStr.take 2 (clean_line line) <> "C:" ->
  clean_line line <> "" ->
  parseLine sys parse opts dir tgt_dir line w
  = (match fixRelPath sys opts (clean_line line) dir tgt_dir with
     | Ok e => Ok [e]
     | Exit e => Exit e
     | Raise x => Raise x
     end, w).
Proof.
  intros Hp Hc Hne. unfold parseLine, bind.
  rewrite substitute_plain by done.
  apply String.eqb_neq in Hc. rewrite Hc.
  destruct (clean_line line) as [|a s] eqn:E; [done|].
  cbn [String.length Nat.eqb negb]. unfold lift, ret.
  by destruct (fixRelPath sys opts (String a s) dir tgt_dir).
Qed.

End Parsing.

(** C2.  A line [C:B] of a manifest A is replaced, in place and in the
    order of the lines, by the entries of the manifest named B in the
    directory of A: the entries of A are those of the lines before, then
    those of B, then those of the lines after.  If A has this line alone,
    resolving A is resolving B from the directory of A; and if B has one
    source file, both yield the one entry that normalizing the file against
    the directory of B gives. *)
Theorem C2_recursive_include (sys : system) (opts : options)
        (tgt_dir : string) (fuel : nat) (A : string) :
  A <> "" ->
  let parse := fun name => parseConfigFile sys fuel opts name tgt_dir in
  let dir := PosixPath.dirname A in
  (forall l1 line l2 w,
      file_lines sys A = Some (l1 ++ line :: l2) ->
      PyStr.take 2 (clean_line line) = "C:" ->
      parseConfigFile sys (S fuel) opts A tgt_dir w
      = except_IOError
          (let* r1 := parseLines sys parse opts dir tgt_dir l1 [] in
           let* c := substitute sys opts (clean_line line) in
           let* rB := parse (PosixPath.join dir (PyStr.drop 2 c)) in
           let* r2 := parseLines sys parse opts dir tgt_dir l2 [] in
           ret (r1 ++ rB ++ r2))
          (OpenFailed A) w)
  /\ (forall line B w,
         file_lines sys A = Some [line] ->
         clean_line line = "C:" +:+ B ->
         plain ("C:" +:+ B) ->
         parseConfigFile sys (S fuel) opts A tgt_dir w
         = parse (PosixPath.join dir B) w
         /\ (forall fuel' src e,
                fuel = S fuel' ->
                PosixPath.join dir B <> "" ->
                file_lines sys (PosixPath.join dir B) = Some [src] ->
                plain (clean_line src) ->
                PyStr.take 2 (clean_line src) <> "C:" ->
                clean_line src <> "" ->
                fixRelPath sys opts (clean_line src)
                           (PosixPath.dirname (PosixPath.join dir B)) tgt_dir
                = Ok e ->
                parseConfigFile sys (S fuel) opts A tgt_dir w = (Ok [e], w))).
Proof.
  intros HA parse dir.
  assert ((String.length A =? 0) = false) as HlenA.
  { destruct A; [done|reflexivity]. }
  assert (forall line B w,
             file_lines sys A = Some [line] ->
             clean_line line = "C:" +:+ B ->
             plain ("C:" +:+ B) ->
             parseConfigFile sys (S fuel) opts A tgt_dir w
             = parse (PosixPath.join dir B) w) as Hone.
  { intros line B w Hfile Hline Hplain.
    pose proof (parseConfigFile_no_IOError sys opts tgt_dir fuel
                  (PosixPath.join dir B) w) as Hno.
    fold (parse (PosixPath.join dir B)) in Hno.
    cbn [parseConfigFile]. rewrite HlenA, Hfile.
    fold dir. fold parse.
    unfold except_IOError. cbn [parseLines].
    unfold bind at 1.
    rewrite parseLine_include by (by rewrite Hline).
    rewrite Hline. unfold bind at 1. rewrite substitute_plain by done.
    change (PyStr.drop 2 ("C:" +:+ B)) with B.
    unfold bind, ret.
    by destruct (parse (PosixPath.join dir B) w) as [[r|e|[]] w']. }
  split.
  - intros l1 line l2 w Hfile Hline.
    cbn [parseConfigFile]. rewrite HlenA, Hfile. fold dir. fold parse.
    unfold except_IOError.
    rewrite parseLines_splice.
    replace ((let* r1 := parseLines sys parse opts dir tgt_dir l1 [] in
              let* rB := parseLine sys parse opts dir tgt_dir line in
              let* r2 := parseLines sys parse opts dir tgt_dir l2 [] in
              ret (r1 ++ rB ++ r2)) w)
      with ((let* r1 := parseLines sys parse opts dir tgt_dir l1 [] in
             let* c := substitute sys opts (clean_line line) in
             let* rB := parse (PosixPath.join dir (PyStr.drop 2 c)) in
             let* r2 := parseLines sys parse opts dir tgt_dir l2 [] in
             ret (r1 ++ rB ++ r2)) w); [done|].
    apply bind_ext. intros r1 w1.
    rewrite <- bind_assoc. apply bind_cong.
    symmetry. by apply parseLine_include.
  - intros line B w Hfile Hline Hplain.
    split; [by apply (Hone line)|].
    intros fuel' src e -> HB HfileB Hps Hnc Hne Hfix.
    rewrite (Hone line B w) by done.
    unfold parse. cbn [parseConfigFile].
    assert ((String.length (PosixPath.join dir B) =? 0) = false) as ->.
    { destruct (PosixPath.join dir B); [done|reflexivity]. }
    rewrite HfileB. cbn [parseLines].
    unfold except_IOError, bind.
    rewrite parseLine_plain_source by done.
    rewrite Hfix. reflexivity.
Qed.

Lemma C2_recursive_include_witness :
  parseConfigFile sample_system 3
                  (mode_options Synthesis "a.txt" "/w" false true None)
                  "a.txt" "/w" sample_world
  = (Ok ["sub/core.v"], sample_world).
Proof.
  refine (proj2 (proj2 (C2_recursive_include
                   sample_system
                   (mode_options Synthesis "a.txt" "/w" false true None)
                   "/w" 2 "a.txt" ltac:(discriminate))
                  ("C:sub/b.txt" +:+ newline) "sub/b.txt" sample_world
                  eq_refl eq_refl ltac:(by repeat split))
                1 ("core.v" +:+ newline) "sub/core.v" eq_refl
                ltac:(discriminate) eq_refl ltac:(by repeat split)
                ltac:(discriminate) ltac:(discriminate) _).
  vm_compute. reflexivity.
Defined.

(** ** The FPGA family is resolved once *)

Lemma steady_refl (w : world) : steady w w.
Proof. unfold steady. repeat split; try lia; auto. Qed.

Lemma settled_refl (w : world) : settled w w.
Proof. split; [apply steady_refl|]. lia. Qed.

Lemma settled_steady (w0 w1 w2 : world) :
  settled w0 w1 -> steady w1 w2 -> steady w0 w2.
Proof.
  unfold settled, steady, family_known.
  intros [(H1 & H2 & H3 & H4) H5] (K1 & K2 & K3 & K4).
  assert (family_resolutions w1 = family_resolutions w0 + 1 ->
          family_resolutions w2 = family_resolutions w1) as Hk by auto.
  repeat split.
  - lia.
  - destruct (decide (family_resolutions w1 = family_resolutions w0 + 1));
      [rewrite Hk by done; lia|lia].
  - intros Hw0. pose proof (H3 Hw0) as E1. rewrite <- E1. apply K3.
    by rewrite (H4 E1).
  - intros E. assert (family_resolutions w1 = family_resolutions w0) as E1
        by lia.
    rewrite K4 by lia. by apply H4.
Qed.

Lemma settled_trans (w0 w1 w2 : world) :
  settled w0 w1 -> settled w1 w2 -> settled w0 w2.
Proof.
  intros H01 [H12 K]. split; [by eapply settled_steady|].
  intros E. destruct H01 as [(H1 & H2 & H3 & H4) H5].
  destruct H12 as (K1 & K2 & K3 & K4).
  destruct (decide (family_resolutions w1 = family_resolutions w0 + 1)) as [E1|E1].
  - pose proof (H5 E1) as Hk. unfold family_known in *.
    rewrite K4; [done|]. by apply K3.
  - apply K. lia.
Qed.

Lemma steady_known (w w' : world) :
  steady w w' -> family_known w -> family_known w'.
Proof.
  unfold steady, family_known. intros (_ & _ & H3 & H4) Hk.
  rewrite H4; auto.
Qed.

Lemma once_ret {A} (a : A) : once (ret a).
Proof. intros w. apply settled_refl. Qed.

Lemma once_errorExit {A} (e : fatal) : once (@errorExit A e).
Proof. intros w. apply steady_refl. Qed.

Lemma once_raise {A} (x : pyexn) : once (@raise A x).
Proof. intros w. apply steady_refl. Qed.

Lemma once_lift {A} (o : outcome A) : once (lift o).
Proof.
  intros w. unfold lift.
  destruct o; [apply settled_refl|apply steady_refl..].
Qed.

Lemma once_get_environ : once get_environ.
Proof. intros w. apply settled_refl. Qed.

Lemma once_bind {A B} (m : M A) (k : A -> M B) :
  once m -> (forall a, once (k a)) -> once (bind m k).
Proof.
  intros Hm Hk w. unfold bind. specialize (Hm w).
  destruct (m w) as [[a|e|x] w1]; try done.
  specialize (Hk a w1).
  destruct (k a w1) as [[b|e|x] w2].
  - by eapply settled_trans.
  - by eapply settled_steady.
  - by eapply settled_steady.
Qed.

Lemma once_except_Exception {A} (m : M A) (e : fatal) :
  once m -> once (except_Exception m e).
Proof.
  intros Hm w. unfold except_Exception. specialize (Hm w).
  by destruct (m w) as [[a|e'|x] w1].
Qed.

Lemma once_except_IOError {A} (m : M A) (e : fatal) :
  once m -> once (except_IOError m e).
Proof.
  intros Hm w. unfold except_IOError. specialize (Hm w).
  by destruct (m w) as [[a|e'|[]] w1].
Qed.

Lemma once_if {A} (b : bool) (m1 m2 : M A) :
  once m1 -> once m2 -> once (if b then m1 else m2).
Proof. by destruct b. Qed.

(** A change of the world that touches neither the family nor the list of
    launched family commands. *)
Lemma once_modify (f : world -> world) :
  (forall w, environ (f w) !! FPGA_FAMILY = environ w !! FPGA_FAMILY) ->
  (forall w, family_resolutions (f w) = family_resolutions w) ->
  once (modify f).
Proof.
  intros He Hl w. unfold modify, settled, steady, family_known.
  rewrite He, Hl. repeat split; try lia; auto.
Qed.

Lemma once_set_other (k v : string) :
  k <> FPGA_FAMILY -> once (modify (set_environ k v)).
Proof.
  intros Hk. apply once_modify; intros w; [|done].
  cbn [set_environ environ]. by rewrite lookup_insert_ne.
Qed.

Lemma once_log_stderr (msg : string) : once (modify (log_stderr msg)).
Proof. by apply once_modify. Qed.

Lemma once_decode_ascii (line : string) : once (decode_ascii line).
Proof.
  unfold decode_ascii. apply once_if; [apply once_ret|apply once_raise].
Qed.

Lemma family_resolutions_launch (cmd : string) (w : world) :
  family_resolutions (log_launch cmd w)
  = family_resolutions w + (if is_family_cmd cmd then 1 else 0).
Proof.
  unfold family_resolutions. cbn [log_launch launched].
  rewrite List.filter_app, length_app. cbn [List.filter].
  by destruct (is_family_cmd cmd).
Qed.

Lemma prefix_append (a b : string) : String.prefix a (a +:+ b) = true.
Proof.
  induction a as [|x a IH]; [by destruct b|].
  rewrite append_cons. cbn [String.prefix].
  destruct (ascii_dec x x); [done|congruence].
Qed.

Section Once.

Variable sys : system.
Variable opts : options.
Variable tgt_dir : string.

Lemma once_run_other (cmd : string) :
  is_family_cmd cmd = false -> once (run sys cmd).
Proof.
  intros H w. unfold run, settled, steady, family_known.
  rewrite family_resolutions_launch, H. cbn [log_launch environ].
  repeat split; try lia; auto.
Qed.

Lemma once_scan_version (lines : list string) (ok : bool) :
  once (scan_version lines ok).
Proof.
  revert ok. induction lines as [|line lines IH]; intros ok.
  - apply once_ret.
  - cbn [scan_version]. apply once_bind; [apply once_decode_ascii|].
    intros l. apply once_if; [|apply IH].
    apply once_bind; [by apply once_set_other|]. intros _.
    apply once_bind; [by apply once_set_other|]. intros _. apply IH.
Qed.

Lemma once_getQuartusVersion : once (getQuartusVersion sys opts).
Proof.
  unfold getQuartusVersion.
  apply once_bind; [apply once_get_environ|]. intros env.
  apply once_if; [|apply once_ret].
  apply once_except_Exception.
  apply once_bind; [by apply once_run_other|]. intros proc.
  apply once_bind; [apply once_scan_version|]. intros ok.
  apply once_bind; [apply once_if; [apply once_errorExit|apply once_ret]|].
  intros _. apply once_if; [|apply once_ret].
  apply once_bind; [apply once_get_environ|]. intros env'.
  destruct (env' !! "QUARTUS_VERSION"); [|apply once_raise].
  destruct (env' !! "QUARTUS_VERSION_MAJOR"); [|apply once_raise].
  apply once_bind; [apply once_log_stderr|]. intros _.
  apply once_log_stderr.
Qed.


Hypothesis contract : quiet opts = false \/ family_command_contract sys.

Lemma getHWLibPath_world (w w' : world) (r : outcome string) :
  getHWLibPath sys opts w = (r, w') -> w' = w.
Proof.
  unfold getHWLibPath, bind, get_environ, ret, errorExit.
  destruct (lib opts); [|destruct (_ !! "BBS_LIB_PATH");
                         [|destruct (_ !! "OPAE_PLATFORM_ROOT")]];
    try destruct (negb _); by intros [= _ <-].
Qed.

Lemma read_file_world (name : string) (w w' : world) (r : outcome string) :
  read_file sys name w = (r, w') -> w' = w.
Proof.
  unfold read_file, ret, raise.
  destruct (file_lines sys name); by intros [= _ <-].
Qed.

(** The loop over the output of the family command leaves the family in
    the environment as soon as the output has a line, and touches
    nothing else. *)
Lemma set_family_loop (lines : list string) (w w' : world)
      (r : outcome unit) :
  for_each lines
    (fun line =>
       let* line := decode_ascii line in
       modify (set_environ FPGA_FAMILY (PyStr.strip line))) w = (r, w') ->
  launched w' = launched w
  /\ (r = Ok tt -> lines <> [] \/ family_known w -> family_known w').
Proof.
  revert w. induction lines as [|line lines IH]; intros w.
  - intros [= <- <-]. split; [done|]. by intros _ [?|?].
  - cbn [for_each]. unfold bind at 1. unfold bind at 1.
    unfold decode_ascii.
    destruct (PyStr.all_chars _ line).
    + unfold ret at 1, modify at 1.
      intros H. apply IH in H as [Hl Hk]. cbn [launched set_environ] in Hl.
      split; [done|]. intros Hr _. apply Hk; [done|]. right.
      unfold family_known. cbn [set_environ environ].
      rewrite lookup_insert_eq. eauto.
    + unfold raise. intros [= <- <-]. split; [done|]. discriminate.
Qed.

Lemma is_family_cmd_afu (arg : string) :
  is_family_cmd (afu_platform_info +:+ arg) = true.
Proof. apply prefix_append. Qed.

(** A resolution that returns has launched the family command once and
    leaves the family in the environment; one that does not return has
    launched it at most once. *)
Lemma addDefaultFpgaFamily_spec (w w' : world) (r : outcome unit) :
  ~ family_known w ->
  addDefaultFpgaFamily sys opts w = (r, w') ->
  (r <> Ok tt /\ w' = w)
  \/ (family_resolutions w' = family_resolutions w + 1
      /\ (r = Ok tt -> family_known w')).
Proof.
  intros Hk. unfold addDefaultFpgaFamily.
  unfold bind at 1. unfold get_environ at 1.
  rewrite bool_decide_eq_false_2 by done. cbn [negb].
  unfold except_Exception. unfold bind at 1.
  destruct (getHWLibPath sys opts w) as [[hw|e|x] w1] eqn:Ehw;
    apply getHWLibPath_world in Ehw as ->;
    [|intros [= <- <-]; by left..].
  unfold bind at 1.
  destruct (read_file sys _ w) as [[text|e|x] w1] eqn:Erd;
    apply read_file_world in Erd as ->;
    [|intros [= <- <-]; by left..].
  unfold bind at 1. unfold run at 1.
  set (cmd := afu_platform_info +:+ PyStr.strip text).
  cbn [fst snd].
  unfold bind at 1.
  destruct (for_each _ _ (log_launch cmd w)) as [r1 w1] eqn:Eloop.
  apply set_family_loop in Eloop as [Hl1 Hk1].
  assert (family_resolutions w1 = family_resolutions w + 1) as Hc1.
  { unfold family_resolutions at 1. rewrite Hl1.
    fold (family_resolutions (log_launch cmd w)).
    rewrite family_resolutions_launch. unfold cmd.
    by rewrite is_family_cmd_afu. }
  destruct r1 as [[]|e|x]; [|intros [= <- <-]; right; by split..].
  unfold bind at 1.
  destruct (Z.eqb_spec (snd (popen sys cmd)) 0) as [E0|E0]; cbn [negb];
    [|unfold errorExit; intros [= <- <-]; right; by split].
  unfold ret at 1.
  destruct (quiet opts) eqn:Hq; cbn [negb].
  - destruct contract as [?|Hc]; [done|].
    intros [= <- <-]. right. split; [done|]. intros _.
    apply Hk1; [done|]. left. apply Hc; [|done].
    apply is_family_cmd_afu.
  - unfold bind, get_environ.
    destruct (environ w1 !! FPGA_FAMILY) as [v|] eqn:Hv.
    + unfold modify. intros [= <- <-]. right. split; [done|].
      intros _. unfold family_known. cbn [log_stderr environ]. eauto.
    + unfold raise. intros [= <- <-]. right. by split.
Qed.

Lemma once_addDefaultFpgaFamily : once (addDefaultFpgaFamily sys opts).
Proof.
  intros w.
  destruct (decide (family_known w)) as [Hk|Hk].
  - unfold addDefaultFpgaFamily, bind, get_environ.
    rewrite bool_decide_eq_true_2 by done. apply settled_refl.
  - destruct (addDefaultFpgaFamily sys opts w) as [r w'] eqn:E.
    apply addDefaultFpgaFamily_spec in E as [[Hr ->]|[Hc Hkn]]; [| |done].
    + destruct r as [[]|e|x]; [done|apply steady_refl..].
    + assert (steady w w') as Hst.
      { unfold steady. repeat split; try lia; try done. }
      destruct r as [[]|e|x]; [|done..]. split; [done|]. auto.
Qed.

Lemma once_substitute (c : string) : once (substitute sys opts c).
Proof.
  unfold substitute.
  apply once_bind; [apply once_get_environ|]. intros env.
  apply once_bind;
    [apply once_if; [apply once_addDefaultFpgaFamily|apply once_ret]|].
  intros _. apply once_bind; [apply once_get_environ|]. intros env'.
  apply once_bind;
    [apply once_if; [apply once_getQuartusVersion|apply once_ret]|].
  intros _. apply once_bind; [apply once_get_environ|]. intros env''.
  apply once_ret.
Qed.

Lemma once_parseLine (parse : string -> M (list string))
      (dir line : string) :
  (forall name, once (parse name)) ->
  once (parseLine sys parse opts dir tgt_dir line).
Proof.
  intros Hp. unfold parseLine.
  apply once_bind; [apply once_substitute|]. intros c.
  apply once_if; [apply Hp|].
  apply once_if; [|apply once_ret].
  apply once_bind; [apply once_lift|]. intros e. apply once_ret.
Qed.

Lemma once_parseLines (parse : string -> M (list string))
      (dir : string) (lines cfg : list string) :
  (forall name, once (parse name)) ->
  once (parseLines sys parse opts dir tgt_dir lines cfg).
Proof.
  intros Hp. revert cfg. induction lines as [|c lines IH]; intros cfg.
  - apply once_ret.
  - cbn [parseLines]. apply once_bind; [by apply once_parseLine|].
    intros new. apply IH.
Qed.

Lemma once_parseConfigFile (fuel : nat) (name : string) :
  once (parseConfigFile sys fuel opts name tgt_dir).
Proof.
  revert name. induction fuel as [|fuel IH]; intros name.
  - apply once_raise.
  - cbn [parseConfigFile]. apply once_if; [apply once_ret|].
    apply once_except_IOError.
    destruct (file_lines sys name); [|apply once_raise].
    by apply once_parseLines.
Qed.

(** A line that mentions the family leaves it in the environment. *)
Lemma substitute_mention (c r : string) (w w' : world) :
  PyStr.contains FPGA_FAMILY c = true ->
  substitute sys opts c w = (Ok r, w') ->
  family_known w'.
Proof.
  intros Hc. unfold substitute.
  unfold bind at 1. unfold get_environ at 1. rewrite Hc. cbn [andb].
  unfold bind at 1.
  destruct (decide (family_known w)) as [Hk|Hk].
  - rewrite bool_decide_eq_true_2 by done. cbn [negb]. unfold ret at 1.
    intros H.
    pose proof (once_bind _ _ once_get_environ
                  (fun env' =>
                     once_bind _ _
                       (once_if
                          (PyStr.contains "QUARTUS_VERSION" c
                           && negb (version_known env'))
                          _ _ once_getQuartusVersion (once_ret tt))
                       (fun _ => once_bind _ _ once_get_environ
                                   (fun env'' => once_ret
                                      (PosixPath.expandvars env'' c)))) w)
      as Ho.
    rewrite H in Ho. destruct Ho as [Ho _]. by eapply steady_known.
  - rewrite bool_decide_eq_false_2 by done. cbn [negb].
    destruct (addDefaultFpgaFamily sys opts w) as [[[]|e|x] w1] eqn:E;
      try discriminate.
    apply addDefaultFpgaFamily_spec in E as [[Hr _]|[_ Hkn]];
      [done| |done].
    intros H.
    pose proof (once_bind _ _ once_get_environ
                  (fun env' =>
                     once_bind _ _
                       (once_if
                          (PyStr.contains "QUARTUS_VERSION" c
                           && negb (version_known env'))
                          _ _ once_getQuartusVersion (once_ret tt))
                       (fun _ => once_bind _ _ once_get_environ
                                   (fun env'' => once_ret
                                      (PosixPath.expandvars env'' c)))) w1)
      as Ho.
    rewrite H in Ho. destruct Ho as [Ho _]. eapply steady_known; eauto.
Qed.


Lemma parseLine_mention (parse : string -> M (list string))
      (dir line : string) (r : list string) (w w' : world) :
  (forall name, once (parse name)) ->
  mentions_family line = true ->
  parseLine sys parse opts dir tgt_dir line w = (Ok r, w') ->
  family_known w'.
Proof.
  intros Hp Hm. unfold parseLine. unfold bind at 1.
  destruct (substitute sys opts (clean_line line) w) as [[c|e|x] w1] eqn:E;
    try discriminate.
  apply substitute_mention in E; [|done].
  destruct (PyStr.take 2 c =? "C:")%string.
  - intros H. specialize (Hp (PosixPath.join dir (PyStr.drop 2 c)) w1).
    rewrite H in Hp. destruct Hp as [Hp _]. by eapply steady_known.
  - destruct (negb _).
    + unfold bind, lift, ret.
      destruct (fixRelPath sys opts c dir tgt_dir); by intros [= _ <-].
    + by intros [= _ <-].
Qed.

Lemma parseLines_mention (parse : string -> M (list string))
      (dir : string) (lines cfg r : list string) (w w' : world) :
  (forall name, once (parse name)) ->
  Exists (fun line => mentions_family line = true) lines ->
  parseLines sys parse opts dir tgt_dir lines cfg w = (Ok r, w') ->
  family_known w'.
Proof.
  intros Hp Hex. revert cfg w.
  induction Hex as [line lines Hm|line lines Hex IH]; intros cfg w;
    cbn [parseLines]; unfold bind at 1;
    destruct (parseLine sys parse opts dir tgt_dir line w)
      as [[new|e|x] w1] eqn:E; try discriminate.
  - apply parseLine_mention in E; [|done..].
    intros H.
    pose proof (once_parseLines parse dir lines (cfg ++ new) Hp w1) as Ho.
    rewrite H in Ho. destruct Ho as [Ho _]. by eapply steady_known.
  - apply IH.
Qed.

End Once.



Lemma sample_contract : family_command_contract sample_system.
Proof.
  intros cmd _. cbn [sample_system popen].
  destruct (cmd =? _)%string; [done|].
  destruct (cmd =? _)%string; [done|]. done.
Qed.


(** ** Splitting and joining *)

Lemma split_nonempty (sep : ascii) (s : string) : PyStr.split sep s <> [].
Proof.
  induction s as [|x s IH]; [done|]. cbn [PyStr.split].
  destruct (Ascii.eqb x sep); [done|].
  by destruct (PyStr.split sep s).
Qed.

Lemma split_cons (sep x : ascii) (s : string) :
  PyStr.split sep (String x s)
  = if Ascii.eqb x sep then "" :: PyStr.split sep s
    else match PyStr.split sep s with
         | h :: t => String x h :: t
         | [] => [String x ""]
         end.
Proof. reflexivity. Qed.

Lemma split_app_sep (sep : ascii) (a b : string) :
  PyStr.split sep (a +:+ String sep b) = PyStr.split sep a ++ PyStr.split sep b.
Proof.
  induction a as [|x a IH].
  - rewrite append_nil_l, split_cons, Ascii.eqb_refl. done.
  - rewrite append_cons, !split_cons, IH.
    destruct (Ascii.eqb x sep); [done|].
    pose proof (split_nonempty sep a).
    by destruct (PyStr.split sep a).
Qed.

Lemma split_sepfree (sep : ascii) (a : string) :
  PyStr.has_char sep a = false -> PyStr.split sep a = [a].
Proof.
  induction a as [|x a IH]; [done|]. cbn [PyStr.has_char].
  intros [H1 H2]%orb_false_iff. rewrite split_cons, H1, IH; done.
Qed.

Lemma split_Forall_sepfree (sep : ascii) (s : string) :
  Forall (fun x => PyStr.has_char sep x = false) (PyStr.split sep s).
Proof.
  induction s as [|x s IH]; [by repeat constructor|].
  rewrite split_cons. destruct (Ascii.eqb x sep) eqn:E.
  - by constructor.
  - destruct (PyStr.split sep s) as [|h t]; [repeat constructor|].
    + cbn [PyStr.has_char]. by rewrite E.
    + inversion IH; subst. constructor; [|done].
      cbn [PyStr.has_char]. by rewrite E.
Qed.

Lemma join_cons2 (sep : string) (x y : string) (l : list string) :
  PyStr.join sep (x :: y :: l) = x +:+ sep +:+ PyStr.join sep (y :: l).
Proof. reflexivity. Qed.

Lemma split_join (sep : ascii) (l : list string) :
  Forall (fun x => PyStr.has_char sep x = false) l ->
  l <> [] ->
  PyStr.split sep (PyStr.join (String sep "") l) = l.
Proof.
  induction l as [|x l IH]; [done|]. intros Hl _.
  inversion Hl as [|? ? Hx Hl']; subst.
  destruct l as [|y l].
  - by apply split_sepfree.
  - rewrite join_cons2.
    change (String sep "" +:+ PyStr.join (String sep "") (y :: l))
      with (String sep (PyStr.join (String sep "") (y :: l))).
    rewrite split_app_sep, split_sepfree, IH; done.
Qed.

(** Text added after a path goes to its last component. *)
Lemma split_app_last (sep : ascii) (a b : string) :
  PyStr.has_char sep b = false ->
  exists l x, PyStr.split sep a = l ++ [x]
              /\ PyStr.split sep (a +:+ b) = l ++ [x +:+ b].
Proof.
  intros Hb. induction a as [|c a (l & x & E1 & E2)].
  - exists [], "". split; [done|]. rewrite append_nil_l.
    by apply split_sepfree.
  - rewrite append_cons, !split_cons, E1, E2.
    destruct (Ascii.eqb c sep).
    + exists ("" :: l), x. done.
    + destruct l as [|h t].
      * exists [], (String c x). done.
      * exists (String c h :: t), x. done.
Qed.

Lemma has_char_app (c : ascii) (a b : string) :
  PyStr.has_char c (a +:+ b) = PyStr.has_char c a || PyStr.has_char c b.
Proof.
  induction a as [|x a IH]; [done|].
  rewrite append_cons. cbn [PyStr.has_char]. rewrite IH.
  by rewrite orb_assoc.
Qed.

Lemma endswith_char_app (c : ascii) (a : string) :
  PyStr.endswith_char c a = true -> exists a', a = a' +:+ String c "".
Proof.
  induction a as [|x a IH]; [done|].
  destruct a as [|y a].
  - cbn. intros ->%Ascii.eqb_eq. by exists "".
  - intros H. destruct (IH H) as [a' ->]. by exists (String x a').
Qed.

Lemma length_append (a b : string) :
  String.length (a +:+ b) = String.length a + String.length b.
Proof.
  induction a as [|x a IH]; [done|].
  rewrite append_cons. cbn [String.length]. by rewrite IH.
Qed.

(** ** Normalization of absolute paths *)

Lemma step_empty (k : nat) (s : list string) :
  PosixPath.normpath_step k s "" = s.
Proof. reflexivity. Qed.

Lemma step_dot (k : nat) (s : list string) :
  PosixPath.normpath_step k s "." = s.
Proof. reflexivity. Qed.

Lemma step_abs_2 (s : list string) (comp : string) :
  PosixPath.normpath_step 2 s comp = PosixPath.normpath_step 1 s comp.
Proof. reflexivity. Qed.

Lemma step_clean (s : list string) (comp : string) :
  clean comp -> PosixPath.normpath_step 1 s comp = comp :: s.
Proof.
  intros (H1 & H2 & H3 & _). unfold PosixPath.normpath_step.
  apply String.eqb_neq in H1, H2, H3. by rewrite H1, H2, H3.
Qed.

Lemma step_dotdot (s : list string) :
  Forall clean s -> PosixPath.normpath_step 1 s ".." = tail s.
Proof.
  intros Hs. unfold PosixPath.normpath_step. cbn [String.eqb orb negb].
  change (("." =? "")%string) with false.
  change ((".." =? "")%string) with false.
  change ((".." =? ".")%string) with false.
  change ((".." =? "..")%string) with true.
  cbn [orb negb Nat.eqb andb].
  destruct s as [|top s]; [done|].
  inversion Hs as [|? ? (_ & _ & H3 & _) _]; subst.
  apply String.eqb_neq in H3. by rewrite H3.
Qed.

Lemma step_Forall_clean (s : list string) (comp : string) :
  slashfree comp -> Forall clean s ->
  Forall clean (PosixPath.normpath_step 1 s comp).
Proof.
  intros Hc Hs.
  destruct (String.eqb_spec comp "") as [->|H1]; [done|].
  destruct (String.eqb_spec comp ".") as [->|H2]; [done|].
  destruct (String.eqb_spec comp "..") as [->|H3].
  - rewrite step_dotdot by done. destruct s; [done|]. by inversion Hs.
  - rewrite step_clean by done. by constructor.
Qed.

Lemma fold_step_Forall_clean (l s : list string) :
  Forall slashfree l -> Forall clean s ->
  Forall clean (fold_left (PosixPath.normpath_step 1) l s).
Proof.
  revert s. induction l as [|x l IH]; intros s Hl Hs; [done|].
  inversion Hl; subst. cbn [fold_left]. apply IH; [done|].
  by apply step_Forall_clean.
Qed.

Lemma abs_stack_clean (cwd x : string) : Forall clean (abs_stack cwd x).
Proof.
  unfold abs_stack. apply fold_step_Forall_clean; [|done].
  apply split_Forall_sepfree.
Qed.

(** Clean components are pushed. *)
Lemma fold_step_push (l s : list string) :
  Forall clean l ->
  fold_left (PosixPath.normpath_step 1) l s = rev l ++ s.
Proof.
  revert s. induction l as [|x l IH]; intros s Hl; [done|].
  inversion Hl; subst. cbn [fold_left rev].
  rewrite step_clean, IH by done. by rewrite <- app_assoc.
Qed.

(** Parent directories pop, as long as there is something to pop. *)
Lemma fold_step_pop (k : nat) (s : list string) :
  Forall clean s ->
  fold_left (PosixPath.normpath_step 1) (repeat ".." k) s = skipn k s.
Proof.
  revert s. induction k as [|k IH]; intros s Hs; [done|].
  cbn [repeat fold_left]. rewrite step_dotdot by done.
  rewrite IH by (destruct s; [done|by inversion Hs]).
  by destruct s; [rewrite skipn_nil|].
Qed.

Lemma isabs_cons (s : string) :
  PosixPath.isabs s = true -> exists s', s = String "/" s'.
Proof.
  unfold PosixPath.isabs, PyStr.startswith.
  destruct s as [|x s]; [done|]. cbn [String.prefix].
  destruct (ascii_dec "/" x) as [<-|]; [|done]. eauto.
Qed.

Lemma isabs_String (x : ascii) (s : string) :
  PosixPath.isabs (String x s) = Ascii.eqb x "/".
Proof.
  unfold PosixPath.isabs, PyStr.startswith. cbn [String.prefix].
  destruct (ascii_dec "/" x) as [<-|Hne].
  - by destruct s.
  - symmetry. apply Ascii.eqb_neq. congruence.
Qed.

(** The components [normpath] keeps in an absolute path. *)
Lemma normcomps_abs (p : string) :
  PosixPath.isabs p = true ->
  PosixPath.normcomps p
  = rev (fold_left (PosixPath.normpath_step 1) (PyStr.split "/" p) []).
Proof.
  intros H. unfold PosixPath.normcomps, PosixPath.initial_slashes_of.
  unfold PosixPath.isabs in H. rewrite H.
  destruct (_ && _); reflexivity.
Qed.

Lemma nonempty_comps_slash (s : string) :
  PosixPath.nonempty_comps (String "/" s) = PosixPath.nonempty_comps s.
Proof.
  unfold PosixPath.nonempty_comps. rewrite split_cons.
  change (Ascii.eqb "/" PosixPath.sep) with true. cbn beta iota.
  by rewrite filter_cons_False by (intros H; by apply H).
Qed.

Lemma nonempty_comps_join (l : list string) :
  Forall clean l -> PosixPath.nonempty_comps (PyStr.join "/" l) = l.
Proof.
  intros Hl. unfold PosixPath.nonempty_comps.
  destruct l as [|x l]; [done|].
  change PosixPath.sep with "/"%char.
  rewrite split_join; [| |done].
  - clear -Hl. induction Hl as [|y l' (Hy & _) _ IH]; [done|].
    rewrite filter_cons_True by done. by rewrite IH.
  - eapply Forall_impl; [exact Hl|]. by intros y (_ & _ & _ & ?).
Qed.

Lemma normpath_abs (p : string) :
  PosixPath.isabs p = true ->
  PosixPath.normpath p
  = PosixPath.slashes (PosixPath.initial_slashes_of p)
    +:+ PyStr.join "/" (PosixPath.normcomps p)
  /\ (PosixPath.initial_slashes_of p = 1
      \/ PosixPath.initial_slashes_of p = 2).
Proof.
  intros H. unfold PosixPath.normpath.
  destruct (isabs_cons p H) as [p' ->].
  change (String "/" p' =? "")%string with false. cbn beta iota.
  unfold PosixPath.initial_slashes_of. unfold PosixPath.isabs in H.
  rewrite H. destruct (_ && _); cbn [PosixPath.slashes]; split; auto.
Qed.

Lemma nonempty_comps_normpath (p : string) :
  PosixPath.isabs p = true ->
  PosixPath.nonempty_comps (PosixPath.normpath p)
  = rev (fold_left (PosixPath.normpath_step 1) (PyStr.split "/" p) []).
Proof.
  intros H. destruct (normpath_abs p H) as [-> Hk].
  rewrite <- normcomps_abs by done.
  assert (Forall clean (PosixPath.normcomps p)) as Hc.
  { rewrite normcomps_abs by done. apply Forall_rev.
    apply fold_step_Forall_clean; [apply split_Forall_sepfree|done]. }
  destruct Hk as [-> | ->]; cbn [PosixPath.slashes];
    rewrite ?append_cons, ?append_nil_l, ?nonempty_comps_slash;
    by apply nonempty_comps_join.
Qed.

Lemma join_relative (a b : string) :
  PosixPath.isabs b = false ->
  PosixPath.join a b
  = if (a =? "")%string || PyStr.endswith_char "/" a then a +:+ b
    else a +:+ "/" +:+ b.
Proof. intros H. unfold PosixPath.join. unfold PosixPath.isabs in H. by rewrite H. Qed.

Lemma join_absolute (a b : string) :
  PosixPath.isabs b = true -> PosixPath.join a b = b.
Proof. intros H. unfold PosixPath.join. unfold PosixPath.isabs in H. by rewrite H. Qed.

(** Normalizing a joined path is normalizing its second part from where
    the first part ends. *)
Lemma fold_split_join (k : nat) (a b : string) (s : list string) :
  PosixPath.isabs b = false ->
  fold_left (PosixPath.normpath_step k) (PyStr.split "/" (PosixPath.join a b)) s
  = fold_left (PosixPath.normpath_step k) (PyStr.split "/" b)
      (fold_left (PosixPath.normpath_step k) (PyStr.split "/" a) s).
Proof.
  intros Hb. rewrite join_relative by done.
  destruct (String.eqb_spec a "") as [->|Ha]; [done|]. cbn [orb].
  destruct (PyStr.endswith_char "/" a) eqn:E.
  - apply endswith_char_app in E as [a' ->].
    rewrite append_assoc.
    change (String "/" "" +:+ b) with (String "/" b).
    rewrite !split_app_sep, !fold_left_app. done.
  - change ("/" +:+ b) with (String "/" b).
    by rewrite split_app_sep, fold_left_app.
Qed.

Lemma isabs_join (a b : string) :
  PosixPath.isabs b = false ->
  PosixPath.isabs (PosixPath.join a b)
  = if (a =? "")%string then false else PosixPath.isabs a.
Proof.
  intros Hb. rewrite join_relative by done.
  destruct a as [|x a]; [done|].
  change (String x a =? "")%string with false. cbn [orb].
  destruct (PyStr.endswith_char "/" (String x a));
    by rewrite append_cons, !isabs_String.
Qed.

Lemma abs_target_isabs (cwd x : string) :
  PosixPath.isabs cwd = true ->
  PosixPath.isabs (if PosixPath.isabs x then x else PosixPath.join cwd x)
  = true.
Proof.
  intros Hc. destruct (PosixPath.isabs x) eqn:E; [done|].
  rewrite isabs_join by done.
  destruct (isabs_cons cwd Hc) as [c' ->]. done.
Qed.

Lemma abs_comps_stack (cwd x : string) :
  PosixPath.isabs cwd = true ->
  abs_comps cwd x = rev (abs_stack cwd x).
Proof.
  intros Hc. unfold abs_comps, PosixPath.abspath, abs_stack.
  apply nonempty_comps_normpath. by apply abs_target_isabs.
Qed.

Lemma abs_comps_clean (cwd x : string) :
  PosixPath.isabs cwd = true -> Forall clean (abs_comps cwd x).
Proof.
  intros Hc. rewrite abs_comps_stack by done.
  apply Forall_rev, abs_stack_clean.
Qed.

(** The components of a relative path joined to a directory are those of
    the directory followed, through [normpath], by those of the path. *)
Lemma abs_stack_join (cwd d p : string) :
  PosixPath.isabs cwd = true ->
  PosixPath.isabs p = false ->
  abs_stack cwd (PosixPath.join d p)
  = fold_left (PosixPath.normpath_step 1) (PyStr.split "/" p) (abs_stack cwd d).
Proof.
  intros Hc Hp. unfold abs_stack. rewrite isabs_join by done.
  destruct (String.eqb_spec d "") as [->|Hd].
  - change (PosixPath.isabs "") with false. cbn beta iota.
    rewrite (join_relative "" p) by done. cbn [String.eqb orb].
    rewrite append_nil_l.
    by rewrite !fold_split_join.
  - destruct (PosixPath.isabs d) eqn:E.
    + by rewrite fold_split_join.
    + rewrite fold_split_join.
      * rewrite !fold_split_join by done. done.
      * rewrite isabs_join by done.
        apply String.eqb_neq in Hd. by rewrite Hd.
Qed.

(** ** Relative paths *)

Lemma commonprefix_len_le (l1 l2 : list string) :
  PosixPath.commonprefix_len l1 l2 <= length l1
  /\ PosixPath.commonprefix_len l1 l2 <= length l2.
Proof.
  revert l2. induction l1 as [|a l1 IH]; intros [|b l2];
    cbn [PosixPath.commonprefix_len length]; try lia.
  destruct (a =? b)%string; [|lia]. specialize (IH l2). lia.
Qed.

Lemma commonprefix_len_firstn (l1 l2 : list string) :
  firstn (PosixPath.commonprefix_len l1 l2) l1
  = firstn (PosixPath.commonprefix_len l1 l2) l2.
Proof.
  revert l2. induction l1 as [|a l1 IH]; intros [|b l2];
    cbn [PosixPath.commonprefix_len]; try done.
  destruct (String.eqb_spec a b) as [->|]; [|done].
  cbn [firstn]. by rewrite IH.
Qed.

Lemma relpath_render (cwd x t : string) :
  x <> "" ->
  PosixPath.relpath cwd x t
  = Ok (render (rel_list_of (abs_comps cwd t) (abs_comps cwd x))).
Proof.
  intros Hx. unfold PosixPath.relpath. apply String.eqb_neq in Hx.
  rewrite Hx. fold (abs_comps cwd t) (abs_comps cwd x).
  fold (rel_list_of (abs_comps cwd t) (abs_comps cwd x)).
  by destruct (rel_list_of _ _).
Qed.

Lemma clean_slashfree (l : list string) : Forall clean l -> Forall slashfree l.
Proof.
  intros H. eapply Forall_impl; [exact H|]. by intros x (_ & _ & _ & ?).
Qed.

Lemma rel_list_slashfree (T P : list string) :
  Forall clean P -> Forall slashfree (rel_list_of T P).
Proof.
  intros HP. unfold rel_list_of. apply Forall_app. split.
  - apply Forall_forall. intros x Hx.
    apply list_elem_of_In, repeat_spec in Hx. by subst.
  - apply clean_slashfree. by apply Forall_drop.
Qed.

Lemma skipn_rev_firstn {A} (n : nat) (l : list A) :
  n <= length l -> skipn (length l - n) (rev l) = rev (firstn n l).
Proof.
  intros Hn. rewrite <- (firstn_skipn n l) at 2.
  rewrite rev_app_distr.
  rewrite skipn_app.
  assert (length (rev (skipn n l)) = length l - n) as E
      by (rewrite length_rev, length_skipn; done).
  rewrite <- E at 1. rewrite skipn_all.
  rewrite E, Nat.sub_diag. done.
Qed.

(** Walking the relative path from the start directory leads to the
    path. *)
Lemma fold_rel_list (T P : list string) :
  Forall clean T -> Forall clean P ->
  fold_left (PosixPath.normpath_step 1)
            (PyStr.split "/" (render (rel_list_of T P))) (rev T)
  = rev P.
Proof.
  intros HT HP.
  pose proof (commonprefix_len_le T P) as [Hi1 Hi2].
  pose proof (commonprefix_len_firstn T P) as Hi.
  destruct (rel_list_of T P) as [|r rl] eqn:E.
  - cbn [render]. change (PyStr.split "/" ".") with ["."].
    cbn [fold_left]. rewrite step_dot. f_equal.
    unfold rel_list_of in E. apply app_eq_nil in E as [E1 E2].
    assert (length T - PosixPath.commonprefix_len T P = 0) as E3.
    { destruct (length T - _); [done|discriminate]. }
    assert (length (skipn (PosixPath.commonprefix_len T P) P) = 0) as E4
        by (by rewrite E2).
    rewrite length_skipn in E4.
    rewrite <- (firstn_all T), <- (firstn_all P).
    replace (length T) with (PosixPath.commonprefix_len T P) by lia.
    replace (length P) with (PosixPath.commonprefix_len T P) by lia.
    done.
  - cbn [render]. rewrite <- E.
    rewrite split_join; [|by apply rel_list_slashfree|by rewrite E].
    unfold rel_list_of. rewrite fold_left_app.
    rewrite fold_step_pop by (by apply Forall_rev).
    rewrite fold_step_push by (by apply Forall_drop).
    rewrite skipn_rev_firstn by done.
    rewrite <- rev_app_distr, Hi, firstn_skipn. done.
Qed.

Lemma render_nonempty (l : list string) :
  Forall (fun x => x <> "") l -> render l <> "".
Proof.
  intros Hl. destruct l as [|x l]; [done|].
  inversion Hl; subst. cbn [render]. destruct l.
  - done.
  - rewrite join_cons2. by destruct x.
Qed.

Lemma rel_list_nonempty (T P : list string) :
  Forall clean P -> Forall (fun x => x <> "") (rel_list_of T P).
Proof.
  intros HP. unfold rel_list_of. apply Forall_app. split.
  - apply Forall_forall. intros x Hx.
    apply list_elem_of_In, repeat_spec in Hx. by subst.
  - apply Forall_drop. eapply Forall_impl; [exact HP|]. by intros x [? _].
Qed.

Lemma isabs_render (T P : list string) :
  Forall clean P -> PosixPath.isabs (render (rel_list_of T P)) = false.
Proof.
  intros HP. pose proof (rel_list_slashfree T P HP) as Hs.
  pose proof (rel_list_nonempty T P HP) as Hn.
  destruct (rel_list_of T P) as [|r rl]; [done|].
  inversion Hs as [|? ? Hr _]; subst.
  inversion Hn as [|? ? Hr0 _]; subst. cbn [render].
  destruct r as [|x r]; [done|].
  assert (Ascii.eqb x "/" = false) as Hx.
  { unfold slashfree in Hr. cbn [PyStr.has_char] in Hr.
    by apply orb_false_iff in Hr as [? _]. }
  destruct rl;
    [change (PosixPath.isabs (String x r) = false); by rewrite isabs_String|].
  by rewrite join_cons2, append_cons, isabs_String.
Qed.

(** [relpath] depends on the path through its absolute components. *)
Lemma relpath_comps (cwd x x' t : string) :
  x <> "" -> x' <> "" ->
  abs_comps cwd x = abs_comps cwd x' ->
  PosixPath.relpath cwd x t = PosixPath.relpath cwd x' t.
Proof. intros Hx Hx' E. by rewrite !relpath_render, E. Qed.

Lemma fold_split_nonempty (s : string) (st : list string) :
  fold_left (PosixPath.normpath_step 1) (PyStr.split "/" s) st
  = fold_left (PosixPath.normpath_step 1) (PosixPath.nonempty_comps s) st.
Proof.
  unfold PosixPath.nonempty_comps. change PosixPath.sep with "/"%char.
  generalize (PyStr.split "/" s). intros l. revert st.
  induction l as [|x l IH]; intros st; [done|].
  destruct (decide (x = "")) as [->|Hx].
  - rewrite filter_cons_False by (intros H; by apply H).
    cbn [fold_left]. by rewrite step_empty.
  - rewrite filter_cons_True by done. cbn [fold_left]. apply IH.
Qed.

Lemma isabs_abspath (cwd z : string) :
  PosixPath.isabs cwd = true ->
  PosixPath.isabs (PosixPath.abspath cwd z) = true.
Proof.
  intros Hc. unfold PosixPath.abspath.
  destruct (normpath_abs _ (abs_target_isabs cwd z Hc)) as [-> [-> | ->]];
    cbn [PosixPath.slashes]; by rewrite append_cons, isabs_String.
Qed.

(** The absolute path of an absolute path has the same components. *)
Lemma abs_comps_abspath (cwd z : string) :
  PosixPath.isabs cwd = true ->
  abs_comps cwd (PosixPath.abspath cwd z) = abs_comps cwd z.
Proof.
  intros Hc. pose proof (isabs_abspath cwd z Hc) as Ha.
  unfold abs_comps at 1. unfold PosixPath.abspath at 1. rewrite Ha.
  rewrite nonempty_comps_normpath by done.
  rewrite fold_split_nonempty. fold (abs_comps cwd z).
  rewrite fold_step_push by (by apply abs_comps_clean).
  by rewrite app_nil_r, rev_involutive.
Qed.

Lemma abs_stack_comps (cwd x : string) :
  PosixPath.isabs cwd = true -> abs_stack cwd x = rev (abs_comps cwd x).
Proof. intros Hc. by rewrite abs_comps_stack, rev_involutive. Qed.

Lemma abs_stack_cwd (cwd : string) :
  PosixPath.isabs cwd = true -> abs_stack cwd "" = abs_stack cwd cwd.
Proof.
  intros Hc. unfold abs_stack. rewrite Hc.
  change (PosixPath.isabs "") with false. cbn beta iota.
  by rewrite fold_split_join.
Qed.

(** With relative paths and the manifest in the target directory, the
    relative path of a path is its own relative path. *)
Lemma relpath_again (cwd d t q p : string) :
  PosixPath.isabs cwd = true ->
  PosixPath.abspath cwd d = PosixPath.abspath cwd t ->
  PosixPath.relpath cwd (PosixPath.join d q) t = Ok p ->
  PosixPath.relpath cwd (PosixPath.join d p) t = Ok p.
Proof.
  intros Hc Hsame Hrel.
  assert (PosixPath.join d q <> "") as Hne.
  { intros E. unfold PosixPath.relpath in Hrel. by rewrite E in Hrel. }
  rewrite <- Hrel.
  rewrite relpath_render in Hrel by done. injection Hrel as <-.
  pose proof (abs_comps_clean cwd (PosixPath.join d q) Hc) as HP.
  pose proof (abs_comps_clean cwd t Hc) as HT.
  apply relpath_comps; [|done|].
  - intros E%join_eq_nil. revert E.
    by apply render_nonempty, rel_list_nonempty.
  - rewrite (abs_comps_stack cwd (PosixPath.join d _)) by done.
    rewrite abs_stack_join by (by try apply isabs_render).
    rewrite abs_stack_comps by done.
    replace (abs_comps cwd d) with (abs_comps cwd t)
      by (unfold abs_comps; by rewrite Hsame).
    by rewrite fold_rel_list, rev_involutive.
Qed.

(** With the working directory as target, the relative path of the
    absolute path of a relative path is that relative path. *)
Lemma relpath_again_abs (cwd d t x p : string) :
  PosixPath.isabs cwd = true ->
  PosixPath.abspath cwd t = PosixPath.abspath cwd cwd ->
  PosixPath.relpath cwd x t = Ok p ->
  PosixPath.relpath cwd (PosixPath.join d (PosixPath.abspath cwd p)) t = Ok p.
Proof.
  intros Hc Hsame Hrel.
  assert (x <> "") as Hne.
  { intros E. unfold PosixPath.relpath in Hrel. by rewrite E in Hrel. }
  rewrite <- Hrel.
  rewrite relpath_render in Hrel by done. injection Hrel as <-.
  pose proof (abs_comps_clean cwd x Hc) as HP.
  pose proof (abs_comps_clean cwd t Hc) as HT.
  pose proof (isabs_abspath cwd (render (rel_list_of (abs_comps cwd t)
                                           (abs_comps cwd x))) Hc) as Ha.
  rewrite join_absolute by done.
  apply relpath_comps; [|done|].
  - intros E. by rewrite E in Ha.
  - rewrite abs_comps_abspath by done.
    rewrite abs_comps_stack by done.
    assert (PosixPath.join "" (render (rel_list_of (abs_comps cwd t)
                                           (abs_comps cwd x)))
            = render (rel_list_of (abs_comps cwd t) (abs_comps cwd x))) as Ej
        by (rewrite join_relative by (by apply isabs_render); done).
    rewrite <- Ej.
    rewrite abs_stack_join by (by try apply isabs_render).
    rewrite abs_stack_cwd, abs_stack_comps by done.
    replace (abs_comps cwd cwd) with (abs_comps cwd t)
      by (unfold abs_comps; by rewrite Hsame).
    by rewrite fold_rel_list, rev_involutive.
Qed.

Lemma take_app_colon (n : nat) (cmd a b lit : string) :
  PyStr.take n (cmd +:+ String ":" a) = lit ->
  PyStr.has_char ":" lit = false ->
  PyStr.take n (cmd +:+ String ":" b) = lit.
Proof.
  revert n lit. induction cmd as [|x cmd IH]; intros n lit.
  - rewrite !append_nil_l. destruct n; [done|].
    cbn [PyStr.take]. intros <-. done.
  - rewrite !append_cons. destruct n; [done|].
    cbn [PyStr.take]. intros <-. cbn [PyStr.has_char].
    intros [_ H]%orb_false_iff. f_equal. by apply IH.
Qed.

Lemma take_append (lit s : string) :
  PyStr.take (String.length lit) (lit +:+ s) = lit.
Proof.
  induction lit as [|x lit IH]; [by destruct s|].
  rewrite append_cons. cbn [String.length PyStr.take]. by rewrite IH.
Qed.

Lemma drop_append (lit s : string) :
  PyStr.drop (String.length lit) (lit +:+ s) = s.
Proof.
  induction lit as [|x lit IH]; [by destruct s|].
  rewrite append_cons. cbn [String.length PyStr.drop]. by rewrite IH.
Qed.

(** ** Normalizing twice *)

Lemma fixRelPath_unfold (sys : system) (opts : options)
      (c d t : string) :
  c <> "" -> is_define c = false ->
  fixRelPath sys opts c d t
  = match PosixPath.relpath (getcwd sys)
            (PosixPath.join d (snd (split_prefix sys c d))) t with
    | Ok p =>
        Ok (fst (split_prefix sys c d)
            +:+ (if abs opts then PosixPath.abspath (getcwd sys) p else p))
    | Exit e => Exit e
    | Raise x => Raise x
    end.
Proof.
  intros Hc Hd. unfold fixRelPath.
  destruct c as [|x c]; [done|]. cbn [String.length Nat.eqb].
  fold (is_define (String x c)). rewrite Hd.
  by destruct (split_prefix sys (String x c) d).
Qed.

Lemma relpath_Ok_nonempty (cwd x t p : string) :
  PosixPath.isabs cwd = true ->
  PosixPath.relpath cwd x t = Ok p ->
  x <> "" /\ p <> "" /\ PosixPath.isabs p = false.
Proof.
  intros Hc H.
  assert (x <> "") as Hx.
  { intros E. unfold PosixPath.relpath in H. by rewrite E in H. }
  rewrite relpath_render in H by done. injection H as <-.
  pose proof (abs_comps_clean cwd x Hc).
  split; [done|]. split.
  - by apply render_nonempty, rel_list_nonempty.
  - by apply isabs_render.
Qed.

(** A normalized entry is read back with the prefix of the entry it comes
    from: always when that prefix is not empty, and for a bare file when
    the normalized path is a bare file too. *)
Lemma split_prefix_reread (sys : system) (c d p : string) :
  fst (split_prefix sys c d) <> ""
  \/ read_as_bare_file sys (fst (split_prefix sys c d) +:+ p) d ->
  split_prefix sys (fst (split_prefix sys c d) +:+ p) d
  = (fst (split_prefix sys c d), p).
Proof.
  assert (split_prefix sys ("+incdir+" +:+ p) d = ("+incdir+", p)) as Hinc.
  { unfold split_prefix.
    change 8 with (String.length "+incdir+").
    by rewrite take_append, drop_append. }
  destruct (split_prefix sys c d) as [prefix q] eqn:E. cbn [fst].
  unfold split_prefix in E.
  destruct ("+incdir+" =? PyStr.take 8 c)%string eqn:Ei;
    [by injection E as <- <-|].
  destruct (PyStr.split_once ":" c) as [[cmd v]|] eqn:Es.
  - injection E as <- <-. intros _.
    apply split_once_Some in Es as [-> Hcmd].
    rewrite append_assoc.
    change (":" +:+ p) with (String ":" p).
    unfold split_prefix.
    destruct (String.eqb_spec "+incdir+" (PyStr.take 8 (cmd +:+ String ":" p)))
      as [E|_].
    + symmetry in E. apply (take_app_colon _ _ _ v) in E; [|done].
      rewrite E in Ei. done.
    + by rewrite split_once_app.
  - destruct (isdir sys (PosixPath.join d c)); injection E as <- <-; [done|].
    intros [?|(Hi & Hc & Hd)]; [done|].
    rewrite append_nil_l in *. unfold split_prefix.
    unfold is_incdir in Hi. rewrite Hi.
    apply split_once_None in Hc. by rewrite Hc, Hd.
Qed.

(** C4, as the specification states it, fails: with relative paths and a
    manifest in a directory [sub] of the target directory, normalizing the
    normalized entry again prefixes [sub] a second time; and with the same
    manifest directory, target directory and mode, the result changes with
    the working directory. *)
Lemma C4_second_pass_differs :
  let opts := mode_options Synthesis "sub/m.txt" "/w" false true None in
  fixRelPath sample_system opts "a.v" "sub" "/w" = Ok "sub/a.v"
  /\ fixRelPath sample_system opts "sub/a.v" "sub" "/w" = Ok "sub/sub/a.v"
  /\ fixRelPath sample_system opts "/x/a.v" "" "t" = Ok "../../x/a.v"
  /\ fixRelPath {| getcwd := "/x";
                   file_lines := file_lines sample_system;
                   isdir := isdir sample_system;
                   path_exists := path_exists sample_system;
                   popen := popen sample_system |} opts "/x/a.v" "" "t"
     = Ok "../a.v".
Proof. vm_compute. done. Qed.

(** C4 (amended).  Normalization is a function of the entry, the
    directory of the manifest, the target directory and the mode, and also
    of the working directory and of whether the entry names a directory.
    Empty and [+define+] entries are unchanged.  Normalizing a normalized
    entry again yields the same text when paths are absolute and the
    target is the working directory, or when paths are relative and the
    manifest lies in the target directory, for an entry that has a prefix
    or names a directory, and for a bare file whose normalized path is read
    as a bare file again. *)
Theorem C4_normalization_twice (sys : system) (opts : options)
        (c config_dir tgt_dir : string) :
  (forall sys' opts',
      getcwd sys' = getcwd sys ->
      isdir sys' (PosixPath.join config_dir c)
      = isdir sys (PosixPath.join config_dir c) ->
      abs opts' = abs opts ->
      fixRelPath sys' opts' c config_dir tgt_dir
      = fixRelPath sys opts c config_dir tgt_dir)
  /\ (c = "" \/ is_define c = true ->
      fixRelPath sys opts c config_dir tgt_dir = Ok c)
  /\ (forall r,
         PosixPath.isabs (getcwd sys) = true ->
         (if abs opts then same_directory sys tgt_dir (getcwd sys)
          else same_directory sys config_dir tgt_dir) ->
         fixRelPath sys opts c config_dir tgt_dir = Ok r ->
         fst (split_prefix sys c config_dir) <> ""
         \/ read_as_bare_file sys r config_dir ->
         fixRelPath sys opts r config_dir tgt_dir = Ok r).
Proof.
  split; [|split].
  - intros sys' opts' Hcwd Hdir Habs.
    unfold fixRelPath, split_prefix. by rewrite Hcwd, Hdir, Habs.
  - intros [->|Hd]; [done|]. unfold fixRelPath.
    fold (is_define c). rewrite Hd. by destruct (String.length c =? 0).
  - intros r Hcwd Hsame Hfix Hread.
    destruct (String.eqb_spec c "") as [->|Hc].
    { injection Hfix as <-. done. }
    destruct (is_define c) eqn:Hd.
    { unfold fixRelPath in Hfix. fold (is_define c) in Hfix.
      rewrite Hd in Hfix. destruct (String.length c =? 0);
        injection Hfix as <-; unfold fixRelPath; fold (is_define c);
        rewrite Hd; by destruct (String.length c =? 0). }
    rewrite fixRelPath_unfold in Hfix by done.
    destruct (PosixPath.relpath _ _ _) as [p| |] eqn:Hrel; try discriminate.
    injection Hfix as <-.
    pose proof (relpath_Ok_nonempty _ _ _ _ Hcwd Hrel) as (_ & Hp & Hrelp).
    set (p' := if abs opts then PosixPath.abspath (getcwd sys) p else p)
      in *.
    assert (p' <> "") as Hp'.
    { unfold p'. destruct (abs opts); [|done].
      intros E. pose proof (isabs_abspath (getcwd sys) p Hcwd) as Ha.
      by rewrite E in Ha. }
    assert (fst (split_prefix sys c config_dir) +:+ p' <> "") as Hr.
    { intros [_ ?]%append_eq_nil. done. }
    destruct (is_define (fst (split_prefix sys c config_dir) +:+ p')) eqn:Hd'.
    { unfold fixRelPath. fold (is_define (fst (split_prefix sys c config_dir)
                                         +:+ p')).
      rewrite Hd'. by destruct (String.length _ =? 0). }
    rewrite fixRelPath_unfold by done.
    rewrite split_prefix_reread by done. cbn [fst snd].
    assert (PosixPath.relpath (getcwd sys) (PosixPath.join config_dir p')
                              tgt_dir = Ok p) as ->; [|done].
    unfold p'. destruct (abs opts).
    + eapply relpath_again_abs; [done|exact Hsame|exact Hrel].
    + eapply relpath_again; [done|exact Hsame|exact Hrel].
Qed.

Lemma C4_normalization_twice_witness :
  let opts := mode_options Synthesis "m.txt" "/w" false true None in
  fixRelPath sample_system opts "QI:./scripts/../setup.tcl" "" "/w"
  = Ok "QI:setup.tcl"
  /\ fixRelPath sample_system opts "QI:setup.tcl" "" "/w" = Ok "QI:setup.tcl".
Proof.
  intros opts.
  assert (fixRelPath sample_system opts "QI:./scripts/../setup.tcl" "" "/w"
          = Ok "QI:setup.tcl") as H by (vm_compute; reflexivity).
  split; [exact H|].
  refine (proj2 (proj2 (C4_normalization_twice
                          sample_system opts "QI:./scripts/../setup.tcl"
                          "" "/w"))
                "QI:setup.tcl" eq_refl _ H _).
  - vm_compute. reflexivity.
  - left. vm_compute. discriminate.
Defined.

(** ** Extensions *)

Lemma rfind_range (c : ascii) (s : string) :
  (-1 <= PyStr.rfind c s < Z.of_nat (String.length s))%Z.
Proof.
  induction s as [|x s IH]; [cbn; lia|].
  cbn [PyStr.rfind String.length].
  destruct (0 <=? PyStr.rfind c s)%Z eqn:E; [lia|].
  destruct (Ascii.eqb x c); lia.
Qed.

Lemma rfind_absent (c : ascii) (s : string) :
  PyStr.has_char c s = false -> PyStr.rfind c s = (-1)%Z.
Proof.
  induction s as [|x s IH]; [done|]. cbn [PyStr.has_char PyStr.rfind].
  intros [H1 H2]%orb_false_iff. by rewrite IH, H1.
Qed.

Lemma rfind_app (c : ascii) (a b : string) :
  PyStr.rfind c (a +:+ b)
  = if (0 <=? PyStr.rfind c b)%Z
    then (Z.of_nat (String.length a) + PyStr.rfind c b)%Z
    else PyStr.rfind c a.
Proof.
  induction a as [|x a IH].
  - rewrite append_nil_l. cbn [String.length PyStr.rfind].
    pose proof (rfind_range c b).
    destruct (0 <=? PyStr.rfind c b)%Z eqn:E; lia.
  - rewrite append_cons. cbn [PyStr.rfind String.length]. rewrite IH.
    pose proof (rfind_range c a).
    destruct (0 <=? PyStr.rfind c b)%Z eqn:E.
    + destruct (0 <=? _ + _)%Z eqn:E'; lia.
    + done.
Qed.

Lemma take_app_le (n : nat) (a b : string) :
  n <= String.length a -> PyStr.take n (a +:+ b) = PyStr.take n a.
Proof.
  revert n. induction a as [|x a IH]; intros n Hn.
  - cbn in Hn. by replace n with 0 by lia.
  - rewrite append_cons. destruct n; [done|]. cbn [PyStr.take].
    rewrite IH; [done|cbn in Hn; lia].
Qed.

Lemma drop_app_le (n : nat) (a b : string) :
  n <= String.length a -> PyStr.drop n (a +:+ b) = PyStr.drop n a +:+ b.
Proof.
  revert n. induction a as [|x a IH]; intros n Hn.
  - cbn in Hn. by replace n with 0 by lia.
  - rewrite append_cons. destruct n; [done|]. cbn [PyStr.drop].
    apply IH. cbn in Hn; lia.
Qed.

Lemma drop_app_ge (n : nat) (a b : string) :
  PyStr.drop (String.length a + n) (a +:+ b) = PyStr.drop n b.
Proof.
  induction a as [|x a IH]; [done|].
  rewrite append_cons. cbn [String.length Nat.add PyStr.drop]. done.
Qed.

Lemma drop_nonempty (n : nat) (s : string) :
  n < String.length s -> PyStr.drop n s <> "".
Proof.
  revert n. induction s as [|x s IH]; intros n Hn; [cbn in Hn; lia|].
  destruct n; [done|]. cbn [PyStr.drop]. apply IH. cbn in Hn. lia.
Qed.

(** The extension of a name without a slash, in terms of its last dot. *)
Lemma splitext_name (y : string) :
  slashfree y ->
  snd (PosixPath.splitext y)
  = if (0 <=? PyStr.rfind "." y)%Z
       && negb (PyStr.all_chars (fun c => Ascii.eqb c ".")
                  (PyStr.take (Z.to_nat (PyStr.rfind "." y)) y))
    then PyStr.drop (Z.to_nat (PyStr.rfind "." y)) y
    else "".
Proof.
  intros Hy. unfold PosixPath.splitext.
  change PosixPath.sep with "/"%char. change PosixPath.extsep with "."%char.
  rewrite (rfind_absent "/" y Hy).
  pose proof (rfind_range "." y).
  destruct (0 <=? PyStr.rfind "." y)%Z eqn:E.
  - assert ((-1 <? PyStr.rfind "." y)%Z = true) as -> by lia.
    change (Z.to_nat (-1 + 1)) with 0. rewrite Nat.sub_0_r.
    change (PyStr.drop 0 y) with y. cbn [andb].
    by destruct (PyStr.all_chars _ _).
  - assert ((-1 <? PyStr.rfind "." y)%Z = false) as -> by lia. done.
Qed.

(** The extension of a path is the one of its last component. *)
Lemma splitext_stem (stem y : string) :
  stem = "" \/ (exists s', stem = s' +:+ "/") ->
  slashfree y ->
  snd (PosixPath.splitext (stem +:+ y)) = snd (PosixPath.splitext y).
Proof.
  intros Hstem Hy. rewrite (splitext_name y Hy).
  unfold PosixPath.splitext.
  change PosixPath.sep with "/"%char. change PosixPath.extsep with "."%char.
  rewrite !rfind_app, (rfind_absent "/" y Hy).
  change (0 <=? -1)%Z with false. cbn beta iota.
  pose proof (rfind_range "." y) as Hdy.
  pose proof (rfind_range "." stem) as Hds.
  assert (PyStr.rfind "/" stem = (Z.of_nat (String.length stem) - 1)%Z
          /\ (PyStr.rfind "." stem <= PyStr.rfind "/" stem)%Z) as [Es Eds].
  { destruct Hstem as [->|[s' ->]]; [done|].
    rewrite !rfind_app, length_append.
    change (PyStr.rfind "/" "/") with 0%Z.
    change (PyStr.rfind "." "/") with (-1)%Z.
    change (String.length "/") with 1.
    change (0 <=? 0)%Z with true. change (0 <=? -1)%Z with false.
    cbn beta iota. pose proof (rfind_range "." s'). lia. }
  rewrite Es.
  destruct (0 <=? PyStr.rfind "." y)%Z eqn:E.
  - assert ((Z.of_nat (String.length stem) - 1
             <? Z.of_nat (String.length stem) + PyStr.rfind "." y)%Z = true)
      as -> by lia.
    replace (Z.to_nat (Z.of_nat (String.length stem) - 1 + 1))
      with (String.length stem) by lia.
    replace (Z.to_nat (Z.of_nat (String.length stem) + PyStr.rfind "." y))
      with (String.length stem + Z.to_nat (PyStr.rfind "." y)) by lia.
    replace (String.length stem + Z.to_nat (PyStr.rfind "." y)
             - String.length stem)
      with (Z.to_nat (PyStr.rfind "." y)) by lia.
    rewrite <- (Nat.add_0_r (String.length stem)) at 1.
    rewrite !drop_app_ge. change (PyStr.drop 0 y) with y. cbn [andb].
    by destruct (PyStr.all_chars _ _).
  - assert ((Z.of_nat (String.length stem) - 1 <? PyStr.rfind "." stem)%Z
            = false) as -> by lia.
    done.
Qed.

(** Text without dot or slash after a name goes to its extension, if it
    has one. *)
Lemma splitext_trailing (y ws : string) :
  slashfree y ->
  PyStr.has_char "/" ws = false -> PyStr.has_char "." ws = false ->
  snd (PosixPath.splitext y) <> "" ->
  snd (PosixPath.splitext (y +:+ ws)) = snd (PosixPath.splitext y) +:+ ws.
Proof.
  intros Hy Hs Hd Hext.
  assert (slashfree (y +:+ ws)) as Hyw
      by (unfold slashfree in *; by rewrite has_char_app, Hy, Hs).
  rewrite (splitext_name y Hy) in *. rewrite (splitext_name _ Hyw).
  rewrite rfind_app, (rfind_absent "." ws Hd).
  change (0 <=? -1)%Z with false. cbn beta iota.
  pose proof (rfind_range "." y) as Hr.
  destruct (0 <=? PyStr.rfind "." y)%Z eqn:E; [|done]. cbn [andb] in *.
  rewrite take_app_le by lia.
  destruct (PyStr.all_chars _ _); [done|]. cbn [negb].
  apply drop_app_le. lia.
Qed.

(** ** Trailing whitespace *)

Lemma isspace_lower (c : ascii) :
  PyStr.isspace c = true -> PyStr.lower_char c = c.
Proof.
  unfold PyStr.isspace, PyStr.lower_char.
  destruct (65 <=? nat_of_ascii c) eqn:E1; [|done].
  destruct (nat_of_ascii c <=? 90) eqn:E2; [|done].
  apply Nat.leb_le in E1, E2.
  intros [[H1 H2]%andb_true_iff|[H1 H2]%andb_true_iff]%orb_true_iff;
    apply Nat.leb_le in H1, H2; lia.
Qed.

Lemma isspace_not (c a : ascii) :
  PyStr.isspace c = false -> PyStr.isspace a = true -> Ascii.eqb a c = false.
Proof.
  intros Hc Ha. apply Ascii.eqb_neq. intros ->. congruence.
Qed.

Lemma spaces_has_char (c : ascii) (ws : string) :
  PyStr.isspace c = false ->
  PyStr.all_chars PyStr.isspace ws = true ->
  PyStr.has_char c ws = false.
Proof.
  intros Hc. induction ws as [|a ws IH]; [done|].
  cbn [PyStr.all_chars PyStr.has_char].
  intros [Ha Hws]%andb_true_iff. by rewrite (isspace_not c a), IH.
Qed.

Lemma lower_app (a b : string) :
  PyStr.lower (a +:+ b) = PyStr.lower a +:+ PyStr.lower b.
Proof.
  induction a as [|x a IH]; [done|].
  rewrite append_cons. cbn [PyStr.lower]. by rewrite IH.
Qed.

Lemma lower_spaces (ws : string) :
  PyStr.all_chars PyStr.isspace ws = true -> PyStr.lower ws = ws.
Proof.
  induction ws as [|a ws IH]; [done|]. cbn [PyStr.all_chars PyStr.lower].
  intros [Ha Hws]%andb_true_iff. by rewrite isspace_lower, IH.
Qed.

Lemma ends_with_space_app (a ws : string) :
  ws <> "" -> PyStr.all_chars PyStr.isspace ws = true ->
  ends_with_space (a +:+ ws) = true.
Proof.
  intros Hne Hws.
  assert (ends_with_space ws = true) as Hw.
  { clear a. induction ws as [|x ws IH]; [done|].
    cbn [PyStr.all_chars] in Hws. apply andb_true_iff in Hws as [Hx Hws].
    destruct ws; [done|]. by apply IH. }
  induction a as [|x a IH]; [done|].
  rewrite append_cons. cbn [ends_with_space].
  destruct (a +:+ ws) eqn:E; [|done].
  apply append_eq_nil in E as [_ ->]. done.
Qed.

Lemma ends_with_space_lower (s : string) :
  ends_with_space s = true -> ends_with_space (PyStr.lower s) = true.
Proof.
  induction s as [|x s IH]; [done|]. cbn [ends_with_space PyStr.lower].
  destruct s as [|y s].
  - intros H. by rewrite isspace_lower.
  - intros H. specialize (IH H). cbn [PyStr.lower] in *. done.
Qed.

Lemma ends_with_space_drop (n : nat) (e : string) :
  ends_with_space e = true -> PyStr.drop n e <> "" ->
  ends_with_space (PyStr.drop n e) = true.
Proof.
  revert n. induction e as [|x e IH]; intros n He Hd; [done|].
  destruct n; [done|]. cbn [PyStr.drop] in *.
  destruct e as [|y e]; [by destruct n|]. by apply IH.
Qed.

(** No suffix of any table ends with a space. *)
Lemma table_key_no_space (m : TargetMode) (k v : string) :
  mode_table m !! k = Some v -> ends_with_space k = false.
Proof.
  intros H.
  assert (k ∈ [".v"; ".sv"; ".vh"; ".svh"; ".vhd"; ".vhdl"; ".sdc"; ".qsys";
               ".ip"; ".qip"; ".json"; ".tcl"; ".stp"; ".hex"; ".mif";
               ".ipx"]) as Hk.
  { destruct m; unfold mode_table in H;
      [unfold quartus_tag_map in H|unfold sim_vlog_tag_map in H
      |unfold sim_vhdl_tag_map in H|unfold qsys_tag_map in H
      |unfold tcl_tag_map in H|unfold qsys_ipx_tag_map in H
      |unfold json_tag_map in H];
      apply elem_of_list_to_map_2 in H;
      repeat (apply elem_of_cons in H as [[= -> _]|H];
              [set_solver|]);
      by apply elem_of_nil in H. }
  repeat (apply elem_of_cons in Hk as [->|Hk]; [reflexivity|]).
  by apply elem_of_nil in Hk.
Qed.

(** A name that ends with a space has an extension no table knows. *)
Lemma file_ext_trailing_space (e : string) :
  ends_with_space e = true ->
  file_ext e = "" \/ ends_with_space (file_ext e) = true.
Proof.
  intros He. unfold file_ext, PosixPath.splitext.
  destruct (_ <? _)%Z; [|by left].
  destruct (PyStr.all_chars _ _); [by left|]. cbn [snd].
  set (n := Z.to_nat _). clearbody n.
  destruct (String.eqb_spec (PyStr.drop n e) "") as [->|Hd]; [by left|].
  right. by apply ends_with_space_lower, ends_with_space_drop.
Qed.

Lemma validateTag_trailing_space (e : string) :
  ends_with_space e = true ->
  validateTag e = Exit (UnrecognizedExtension (file_ext e) e).
Proof.
  intros He. apply validateTag_Exit. intros m.
  destruct (mode_table m !! file_ext e) as [v|] eqn:E; [|done].
  exfalso.
  destruct (file_ext_trailing_space e He) as [E0|E1].
  - rewrite E0 in E. by destruct m.
  - apply table_key_no_space in E. congruence.
Qed.

(** ** Comments after whitespace *)

Lemma lstrip_length (s : string) :
  String.length (PyStr.lstrip s) <= String.length s.
Proof.
  induction s as [|x s IH]; [done|]. cbn [PyStr.lstrip].
  destruct (PyStr.isspace x); cbn [String.length]; lia.
Qed.

Lemma lstrip_fixed (s rest : string) :
  s <> "" -> PyStr.lstrip s = s -> PyStr.lstrip (s +:+ rest) = s +:+ rest.
Proof.
  destruct s as [|x s]; [done|]. intros _ H.
  rewrite append_cons. cbn [PyStr.lstrip] in *.
  destruct (PyStr.isspace x); [|done].
  pose proof (lstrip_length s) as Hl. rewrite H in Hl.
  cbn [String.length] in Hl. lia.
Qed.

Lemma rstrip_app (a b : string) :
  PyStr.rstrip b <> "" -> PyStr.rstrip (a +:+ b) = a +:+ PyStr.rstrip b.
Proof.
  intros Hb. induction a as [|x a IH]; [done|].
  rewrite !append_cons. cbn [PyStr.rstrip]. rewrite IH.
  destruct (a +:+ PyStr.rstrip b) eqn:E; [|done].
  by apply append_eq_nil in E as [_ ?].
Qed.

Lemma rstrip_nonspace (x : ascii) (s : string) :
  PyStr.isspace x = false ->
  PyStr.rstrip (String x s) = String x (PyStr.rstrip s).
Proof.
  intros Hx. cbn [PyStr.rstrip]. rewrite Hx. by destruct (PyStr.rstrip s).
Qed.

(** Stripping before cutting the comment keeps the whitespace between the
    path and the comment. *)
Lemma clean_line_comment (path ws comment : string) :
  path <> "" ->
  PyStr.lstrip path = path ->
  PyStr.has_char "#" path = false ->
  PyStr.all_chars PyStr.isspace ws = true ->
  clean_line (path +:+ ws +:+ String "#" comment) = path +:+ ws.
Proof.
  intros Hne Hl Hh Hws. unfold clean_line, PyStr.strip.
  rewrite lstrip_fixed by done.
  rewrite <- append_assoc.
  rewrite rstrip_app by (by rewrite rstrip_nonspace).
  rewrite rstrip_nonspace by done.
  unfold PyStr.before_first. rewrite split_once_app; [done|].
  rewrite has_char_app, Hh. by rewrite spaces_has_char.
Qed.

(** ** The last component of a normalized path *)

Lemma is_stem_app (a b : string) : is_stem a -> is_stem b -> is_stem (a +:+ b).
Proof.
  intros Ha [->|[b' ->]].
  - by rewrite append_nil_r.
  - right. exists (a +:+ b'). by rewrite append_assoc.
Qed.

Lemma join_stem (a b : string) :
  exists pre, PosixPath.join a b = pre +:+ b /\ is_stem pre.
Proof.
  unfold PosixPath.join.
  destruct (PyStr.startswith "/" b); [exists ""; by split; [|left]|].
  destruct (String.eqb_spec a "") as [->|Ha]; cbn [orb].
  - exists "". by split; [|left].
  - destruct (PyStr.endswith_char PosixPath.sep a) eqn:E.
    + exists a. split; [done|]. right. by apply endswith_char_app in E.
    + exists (a +:+ "/"). split; [by rewrite append_assoc|]. right. by exists a.
Qed.

Lemma target_stem (cwd y : string) :
  exists pre,
    (if PosixPath.isabs y then y else PosixPath.join cwd y) = pre +:+ y
    /\ is_stem pre.
Proof.
  destruct (PosixPath.isabs y); [exists ""; by split; [|left]|].
  apply join_stem.
Qed.

Lemma split_stem (pre y : string) (l : list string) (x : string) :
  is_stem pre -> PyStr.split "/" y = l ++ [x] ->
  exists l0, PyStr.split "/" (pre +:+ y) = l0 ++ [x].
Proof.
  intros [->|[pre' ->]] Hy.
  - by exists l.
  - rewrite append_assoc. change ("/" +:+ y) with (String "/" y).
    rewrite split_app_sep, Hy. exists (PyStr.split "/" pre' ++ l).
    by rewrite app_assoc.
Qed.

Lemma join_snoc (l : list string) (z : string) :
  exists stem, PyStr.join "/" (l ++ [z]) = stem +:+ z /\ is_stem stem.
Proof.
  induction l as [|a l (stem & E & Hs)].
  - exists "". by split; [|left].
  - cbn [app]. destruct (l ++ [z]) as [|y l'] eqn:El;
      [by destruct l|].
    rewrite join_cons2, E. exists (a +:+ "/" +:+ stem).
    split; [by rewrite !append_assoc|].
    rewrite <- append_assoc. apply is_stem_app; [|done].
    right. by exists a.
Qed.

Lemma join_split (s : string) : PyStr.join "/" (PyStr.split "/" s) = s.
Proof.
  induction s as [|c s IH]; [done|]. rewrite split_cons.
  pose proof (split_nonempty "/" s) as Hn.
  destruct (PyStr.split "/" s) as [|h t] eqn:E; [done|].
  destruct (Ascii.eqb_spec c "/") as [->|Hc].
  - rewrite join_cons2, IH. done.
  - destruct t as [|y t].
    + cbn in IH. by rewrite <- IH.
    + rewrite join_cons2 in *. rewrite append_cons. by rewrite IH.
Qed.

Lemma split_last_stem (s : string) (l : list string) (x : string) :
  PyStr.split "/" s = l ++ [x] ->
  exists stem, s = stem +:+ x /\ is_stem stem /\ slashfree x.
Proof.
  intros E. destruct (join_snoc l x) as (stem & Ej & Hs).
  exists stem. rewrite <- Ej, <- E, join_split. split; [done|].
  split; [done|].
  pose proof (split_Forall_sepfree "/" s) as Hf. rewrite E in Hf.
  apply Forall_app in Hf as [_ Hf]. by inversion Hf.
Qed.

Lemma join_app_r (a b c : string) :
  b <> "" -> PosixPath.join a (b +:+ c) = PosixPath.join a b +:+ c.
Proof.
  intros Hb. destruct b as [|x b]; [done|].
  unfold PosixPath.join.
  fold (PosixPath.isabs (String x b +:+ c)) (PosixPath.isabs (String x b)).
  rewrite append_cons, !isabs_String.
  destruct (Ascii.eqb x "/"); [done|].
  destruct (_ || _); by rewrite !append_assoc.
Qed.

Lemma target_app (cwd b c : string) :
  b <> "" ->
  (if PosixPath.isabs (b +:+ c) then b +:+ c else PosixPath.join cwd (b +:+ c))
  = (if PosixPath.isabs b then b else PosixPath.join cwd b) +:+ c.
Proof.
  intros Hb. rewrite join_app_r by done.
  destruct b as [|x b]; [done|].
  rewrite append_cons, !isabs_String. by destruct (Ascii.eqb x "/").
Qed.

Lemma clean_trailing (x ws : string) :
  slashfree x -> ws <> "" -> PyStr.all_chars PyStr.isspace ws = true ->
  clean (x +:+ ws).
Proof.
  intros Hx Hne Hws.
  pose proof (ends_with_space_app x ws Hne Hws) as He.
  repeat split.
  - intros [_ ?]%append_eq_nil. done.
  - intros E. by rewrite E in He.
  - intros E. by rewrite E in He.
  - unfold slashfree in *. rewrite has_char_app, Hx.
    by rewrite spaces_has_char.
Qed.

(** The last component of the absolute path of a path with trailing
    whitespace is the last component of the path with that whitespace. *)
Lemma abs_stack_trailing (cwd d path ws : string) :
  path <> "" -> ws <> "" -> PyStr.all_chars PyStr.isspace ws = true ->
  exists S l x,
    PyStr.split "/" path = l ++ [x]
    /\ abs_stack cwd (PosixPath.join d (path +:+ ws)) = (x +:+ ws) :: S
    /\ Forall clean S.
Proof.
  intros Hp Hne Hws.
  assert (PyStr.has_char "/" ws = false) as Hsl by (by apply spaces_has_char).
  destruct (split_app_last "/" path ws Hsl) as (l & x & E1 & E2).
  assert (slashfree x) as Hx.
  { pose proof (split_Forall_sepfree "/" path) as Hf. rewrite E1 in Hf.
    apply Forall_app in Hf as [_ Hf]. by inversion Hf. }
  unfold abs_stack.
  destruct (target_stem cwd (PosixPath.join d (path +:+ ws)))
    as (pre1 & -> & Hs1).
  destruct (join_stem d (path +:+ ws)) as (pre2 & -> & Hs2).
  rewrite <- append_assoc.
  destruct (split_stem (pre1 +:+ pre2) _ _ _ (is_stem_app _ _ Hs1 Hs2) E2)
    as [l0 El0].
  pose proof (split_Forall_sepfree "/" ((pre1 +:+ pre2) +:+ path +:+ ws)) as Hf.
  rewrite El0 in Hf. apply Forall_app in Hf as [Hf _].
  rewrite El0, fold_left_app. cbn [fold_left].
  rewrite step_clean by (by apply clean_trailing).
  eexists _, l, x. split; [done|]. split; [done|].
  by apply fold_step_Forall_clean.
Qed.

Lemma is_stem_slashes (k : nat) : k = 1 \/ k = 2 -> is_stem (PosixPath.slashes k).
Proof. intros [-> | ->]; right; [by exists ""|by exists "/"]. Qed.

(** The relative path to a path that is not above the start ends with the
    last component of the path. *)
Lemma rel_list_last (T Q : list string) (z : string) :
  PosixPath.commonprefix_len T (Q ++ [z]) <> length (Q ++ [z]) ->
  exists R, rel_list_of T (Q ++ [z]) = R ++ [z].
Proof.
  intros Hi. pose proof (commonprefix_len_le T (Q ++ [z])) as [_ Hle].
  rewrite length_app in *. cbn [length] in *.
  unfold rel_list_of. rewrite skipn_app.
  replace (PosixPath.commonprefix_len T (Q ++ [z]) - length Q) with 0 by lia.
  cbn [skipn]. eexists. by rewrite app_assoc.
Qed.

(** A bare file with trailing whitespace is normalized to a path that ends
    with the last component of the file and the whitespace. *)
Lemma fixRelPath_trailing (sys : system) (opts : options)
      (d t path ws : string) :
  PosixPath.isabs (getcwd sys) = true ->
  path <> "" -> ws <> "" -> PyStr.all_chars PyStr.isspace ws = true ->
  is_define (path +:+ ws) = false ->
  read_as_bare_file sys (path +:+ ws) d ->
  ~ names_ancestor sys (PosixPath.join d (path +:+ ws)) t ->
  exists e stem x l,
    PyStr.split "/" path = l ++ [x]
    /\ fixRelPath sys opts (path +:+ ws) d t = Ok e
    /\ e = stem +:+ x +:+ ws
    /\ is_stem stem.
Proof.
  intros Hcwd Hp Hne Hws Hd (Hi & Hc & Hdir) Hanc.
  assert (path +:+ ws <> "") as Hpw.
  { intros [? _]%append_eq_nil. done. }
  assert (split_prefix sys (path +:+ ws) d = ("", path +:+ ws)) as Hsp.
  { unfold split_prefix. unfold is_incdir in Hi. rewrite Hi.
    apply split_once_None in Hc. by rewrite Hc, Hdir. }
  rewrite fixRelPath_unfold, Hsp by done. cbn [fst snd].
  assert (PosixPath.join d (path +:+ ws) <> "") as Hj.
  { intros E%join_eq_nil. done. }
  rewrite relpath_render by done.
  destruct (abs_stack_trailing (getcwd sys) d path ws Hp Hne Hws)
    as (S & l & x & Esplit & Estack & HS).
  assert (slashfree x) as Hx.
  { pose proof (split_Forall_sepfree "/" path) as Hf. rewrite Esplit in Hf.
    apply Forall_app in Hf as [_ Hf]. by inversion Hf. }
  pose proof (clean_trailing x ws Hx Hne Hws) as Hz.
  unfold names_ancestor in Hanc.
  assert (abs_comps (getcwd sys) (PosixPath.join d (path +:+ ws))
          = rev S ++ [x +:+ ws]) as EP.
  { by rewrite abs_comps_stack, Estack. }
  rewrite EP in *.
  destruct (rel_list_last _ _ _ Hanc) as [R ER].
  assert (Forall clean (rev S ++ [x +:+ ws])) as HP.
  { apply Forall_app. split; [by apply Forall_rev|].
    constructor; [done|constructor]. }
  pose proof (rel_list_slashfree (abs_comps (getcwd sys) t) _ HP) as Hsf.
  pose proof (isabs_render (abs_comps (getcwd sys) t) _ HP) as Hrel.
  rewrite ER in *.
  assert (render (R ++ [x +:+ ws]) = PyStr.join "/" (R ++ [x +:+ ws])) as Er
      by (by destruct R).
  destruct (abs opts).
  - (* absolute paths *)
    unfold PosixPath.abspath.
    pose proof (abs_target_isabs (getcwd sys) (render (R ++ [x +:+ ws])) Hcwd)
      as Habs.
    destruct (normpath_abs _ Habs) as [-> Hk].
    rewrite normcomps_abs by done.
    fold (abs_stack (getcwd sys) (render (R ++ [x +:+ ws]))).
    assert (PosixPath.join "" (render (R ++ [x +:+ ws]))
            = render (R ++ [x +:+ ws])) as Ej
        by (by rewrite join_relative).
    set (k := PosixPath.initial_slashes_of _) in *. clearbody k.
    rewrite <- Ej. rewrite abs_stack_join by done.
    rewrite Er, split_join by (by try destruct R).
    rewrite fold_left_app. cbn [fold_left]. rewrite step_clean by done.
    cbn [rev].
    destruct (join_snoc (rev (fold_left (PosixPath.normpath_step 1) R
                                (abs_stack (getcwd sys) "")))
                        (x +:+ ws)) as (stem & -> & Hs).
    eexists _, (PosixPath.slashes _ +:+ stem), x, l.
    split; [done|]. split; [done|]. rewrite append_nil_l.
    split; [by rewrite append_assoc|].
    apply is_stem_app; [by apply is_stem_slashes|done].
  - rewrite Er. destruct (join_snoc R (x +:+ ws)) as (stem & -> & Hs).
    by eexists _, stem, x, l.
Qed.

(** C9.  A line made of a bare source path, whitespace and a comment is
    stripped before the comment is cut, so its entry keeps the whitespace:
    the entry ends with the whitespace, its extension is the one of the
    path followed by the whitespace, validation rejects it, and every mode
    that takes it for a source file ends with the fatal error of an
    unrecognized extension. *)
Theorem C9_trailing_space_before_comment (sys : system) (opts : options)
        (dir tgt_dir path ws comment : string) :
  path <> "" ->
  PyStr.lstrip path = path ->
  PyStr.has_char "#" path = false ->
  ws <> "" ->
  PyStr.all_chars PyStr.isspace ws = true ->
  plain (path +:+ ws) ->
  PyStr.take 2 path <> "C:" ->
  is_define (path +:+ ws) = false ->
  read_as_bare_file sys (path +:+ ws) dir ->
  PosixPath.isabs (getcwd sys) = true ->
  ~ names_ancestor sys (PosixPath.join dir (path +:+ ws)) tgt_dir ->
  let line := path +:+ ws +:+ String "#" comment in
  clean_line line = path +:+ ws
  /\ exists e,
      (forall parse w,
          parseLine sys parse opts dir tgt_dir line w = (Ok [e], w))
      /\ (exists stem, e = stem +:+ ws)
      /\ (snd (PosixPath.splitext path) <> "" ->
          file_ext e = file_ext path +:+ ws)
      /\ validateTag e = Exit (UnrecognizedExtension (file_ext e) e)
      /\ (forall opts' pfx,
             is_source_file e = true ->
             emit_entry opts' pfx e
             = ([], Exit (UnrecognizedExtension (file_ext e) e))).
Proof.
  intros Hp Hl Hh Hne Hws Hplain HC Hd Hbare Hcwd Hanc line.
  pose proof (clean_line_comment path ws comment Hp Hl Hh Hws) as Hclean.
  split; [done|].
  destruct (fixRelPath_trailing sys opts dir tgt_dir path ws
              Hcwd Hp Hne Hws Hd Hbare Hanc)
    as (e & stem & x & l & Esplit & Efix & -> & Hstem).
  destruct (split_last_stem path l x Esplit) as (stem0 & Epath & Hstem0 & Hx).
  assert (PyStr.has_char "/" ws = false) as Hsl by (by apply spaces_has_char).
  assert (PyStr.has_char "." ws = false) as Hdot by (by apply spaces_has_char).
  assert (ends_with_space (stem +:+ x +:+ ws) = true) as Hend.
  { rewrite <- append_assoc. by apply ends_with_space_app. }
  pose proof (validateTag_trailing_space _ Hend) as Hval.
  exists (stem +:+ x +:+ ws). repeat split.
  - intros parse w. unfold line.
    rewrite parseLine_plain_source; rewrite ?Hclean; try done.
    + by rewrite Efix.
    + destruct path as [|a [|b path]]; [done| |done].
      destruct ws as [|w0 ws]; [done|].
      cbn [PyStr.all_chars] in Hws. apply andb_true_iff in Hws as [Hw0 _].
      intros [= -> ->]. done.
    + intros [? _]%append_eq_nil. done.
  - exists (stem +:+ x). by rewrite append_assoc.
  - intros Hext. unfold file_ext.
    assert (slashfree (x +:+ ws)) as Hxw
        by (unfold slashfree in *; by rewrite has_char_app, Hx, Hsl).
    rewrite (splitext_stem stem (x +:+ ws)) by done.
    rewrite Epath in Hext |- *.
    rewrite (splitext_stem stem0 x) in Hext by done.
    rewrite (splitext_stem stem0 x) by done.
    rewrite splitext_trailing by done.
    by rewrite lower_app, (lower_spaces ws).
  - done.
  - intros opts' pfx Hsrc.
    rewrite emit_entry_source_file by done.
    unfold emit_source_file. by rewrite Hval.
Qed.

Lemma C9_trailing_space_before_comment_witness :
  let opts := mode_options SimVerilog "ws.txt" "/w" false true None in
  let line := "top.sv" +:+ "  " +:+ String "#" " the top level" in
  clean_line line = "top.sv" +:+ "  "
  /\ exists e,
      (forall parse w,
          parseLine sample_system parse opts "" "/w" line w = (Ok [e], w))
      /\ (exists stem, e = stem +:+ "  ")
      /\ (snd (PosixPath.splitext "top.sv") <> "" ->
          file_ext e = file_ext "top.sv" +:+ "  ")
      /\ validateTag e = Exit (UnrecognizedExtension (file_ext e) e)
      /\ (forall opts' pfx,
             is_source_file e = true ->
             emit_entry opts' pfx e
             = ([], Exit (UnrecognizedExtension (file_ext e) e))).
Proof.
  intros opts.
  apply (C9_trailing_space_before_comment
           sample_system opts "" "/w" "top.sv" "  " " the top level").
  - discriminate.
  - reflexivity.
  - reflexivity.
  - discriminate.
  - reflexivity.
  - repeat split; reflexivity.
  - discriminate.
  - reflexivity.
  - repeat split; reflexivity.
  - reflexivity.
  - unfold names_ancestor. vm_compute. discriminate.
Defined.

Example main_trailing_space :
  main sample_system 8
       (mode_options SimVerilog "ws.txt" "/w" false true None) sample_world
  = ([], Exit (UnrecognizedExtension ".sv  " "top.sv  "), sample_world).
Proof. vm_compute. reflexivity. Qed.

(** ** The release library directory *)

Lemma rstrip_char_all (c : ascii) (v : string) :
  PyStr.all_chars (fun a => Ascii.eqb a c) v = true ->
  PyStr.rstrip_char c v = "".
Proof.
  induction v as [|a v IH]; [done|]. cbn [PyStr.all_chars PyStr.rstrip_char].
  intros [Ha Hv]%andb_true_iff. by rewrite IH, Ha.
Qed.

(** X1.  [getHWLibPath] takes the directory of [--lib] if given, else the
    one of [BBS_LIB_PATH] without its trailing slashes, else [hw/lib]
    under [OPAE_PLATFORM_ROOT] without its trailing slashes, and fails when
    none is given; the directory it returns has the platform class file;
    it never changes the world.  A platform root made of slashes only
    yields the relative directory [hw/lib]. *)
Theorem X1_getHWLibPath_search_order (sys : system) (opts : options)
        (w : world) :
  (forall l, lib opts = Some l ->
             getHWLibPath sys opts w = checked_hw_lib sys l w)
  /\ (forall v, lib opts = None ->
                environ w !! "BBS_LIB_PATH" = Some v ->
                getHWLibPath sys opts w
                = checked_hw_lib sys (PyStr.rstrip_char "/" v) w)
  /\ (forall v, lib opts = None ->
                environ w !! "BBS_LIB_PATH" = None ->
                environ w !! "OPAE_PLATFORM_ROOT" = Some v ->
                getHWLibPath sys opts w
                = checked_hw_lib sys
                    (PosixPath.join (PyStr.rstrip_char "/" v) "hw/lib") w
                /\ (PyStr.all_chars (fun a => Ascii.eqb a "/") v = true ->
                    getHWLibPath sys opts w = checked_hw_lib sys "hw/lib" w))
  /\ (lib opts = None ->
      environ w !! "BBS_LIB_PATH" = None ->
      environ w !! "OPAE_PLATFORM_ROOT" = None ->
      getHWLibPath sys opts w = (Exit HwLibUnspecified, w))
  /\ (forall d w',
         getHWLibPath sys opts w = (Ok d, w') ->
         w' = w
         /\ path_exists sys (PosixPath.join d platform_class_file) = true).
Proof.
  assert (forall d, bind (ret d)
                      (fun hw_lib_dir =>
                         if negb (path_exists sys
                                    (PosixPath.join hw_lib_dir
                                       "fme-platform-class.txt"))
                         then errorExit (HwLibNotRelease hw_lib_dir)
                         else ret hw_lib_dir) w
                    = checked_hw_lib sys d w) as Hchk.
  { intros d. unfold bind, ret, checked_hw_lib, platform_class_file, errorExit.
    by destruct (path_exists sys _). }
  assert (forall v, lib opts = None ->
                    environ w !! "BBS_LIB_PATH" = None ->
                    environ w !! "OPAE_PLATFORM_ROOT" = Some v ->
                    getHWLibPath sys opts w
                    = checked_hw_lib sys
                        (PosixPath.join (PyStr.rstrip_char "/" v) "hw/lib") w)
    as Hroot.
  { intros v Hl Hb Hr. unfold getHWLibPath. unfold bind at 1.
    unfold get_environ at 1. rewrite Hl, Hb, Hr. apply Hchk. }
  split; [|split; [|split; [|split]]].
  - intros l Hl. unfold getHWLibPath. unfold bind at 1.
    unfold get_environ at 1. rewrite Hl. apply Hchk.
  - intros v Hl Hb. unfold getHWLibPath. unfold bind at 1.
    unfold get_environ at 1. rewrite Hl, Hb. apply Hchk.
  - intros v Hl Hb Hr. split; [by apply Hroot|].
    intros Hs. rewrite (Hroot v) by done. by rewrite rstrip_char_all.
  - intros Hl Hb Hr. unfold getHWLibPath. unfold bind at 1.
    unfold get_environ at 1. by rewrite Hl, Hb, Hr.
  - intros d w' H. split; [by eapply getHWLibPath_world|].
    revert H. unfold getHWLibPath. unfold bind at 1.
    unfold get_environ at 1.
    destruct (lib opts) as [l|];
      [|destruct (environ w !! "BBS_LIB_PATH") as [v|];
        [|destruct (environ w !! "OPAE_PLATFORM_ROOT") as [v|]]];
      try (rewrite Hchk; unfold checked_hw_lib;
           destruct (path_exists sys _) eqn:E; [|discriminate];
           by intros [= <- _]).
    unfold bind, errorExit. discriminate.
Qed.

Lemma X1_getHWLibPath_search_order_witness :
  getHWLibPath sample_system
               (mode_options QsysOnly "fam.txt" "/w" false true None)
               sample_world
  = (Ok "/opt/rel/hw/lib", sample_world).
Proof.
  rewrite (proj1 (proj1 (proj2 (proj2 (X1_getHWLibPath_search_order
             sample_system
             (mode_options QsysOnly "fam.txt" "/w" false true None)
             sample_world))) "/opt/rel/" eq_refl eq_refl eq_refl)).
  vm_compute. reflexivity.
Defined.

(** ** Resolving the FPGA family *)

Lemma set_environ_twice (k v1 v2 : string) (w : world) :
  set_environ k v2 (set_environ k v1 w) = set_environ k v2 w.
Proof.
  unfold set_environ. cbn [environ launched stderr].
  by rewrite insert_insert_eq.
Qed.

Lemma all_ascii_app (l1 l2 : list string) :
  all_ascii (l1 ++ l2) = all_ascii l1 && all_ascii l2.
Proof. unfold all_ascii. apply forallb_app. Qed.

(** The loop over the output of the family command, when every line
    decodes: the family is the last line, stripped. *)
Lemma set_family_loop_last (lines : list string) (l : string) (w : world) :
  all_ascii (lines ++ [l]) = true ->
  for_each (lines ++ [l])
    (fun line =>
       let* line := decode_ascii line in
       modify (set_environ FPGA_FAMILY (PyStr.strip line))) w
  = (Ok tt, set_environ FPGA_FAMILY (PyStr.strip l) w).
Proof.
  revert w. induction lines as [|x lines IH]; intros w.
  - cbn [app all_ascii forallb for_each]. rewrite andb_true_r. intros Hl.
    unfold bind, decode_ascii. rewrite Hl. reflexivity.
  - cbn [app all_ascii forallb for_each].
    intros [Hx Hrest]%andb_true_iff.
    unfold bind at 1. unfold bind at 1. unfold decode_ascii at 1.
    rewrite Hx. unfold ret at 1, modify at 1.
    rewrite IH by done. by rewrite set_environ_twice.
Qed.

(** A line that does not decode ends the loop with an exception. *)
Lemma set_family_loop_undecodable (lines : list string) (w : world) :
  all_ascii lines = false ->
  exists w',
    for_each lines
      (fun line =>
         let* line := decode_ascii line in
         modify (set_environ FPGA_FAMILY (PyStr.strip line))) w
    = (Raise UnicodeDecodeError, w')
    /\ launched w' = launched w.
Proof.
  revert w. induction lines as [|x lines IH]; intros w; [done|].
  cbn [all_ascii forallb for_each].
  unfold bind at 1. unfold bind at 1. unfold decode_ascii at 1.
  destruct (PyStr.all_chars _ x); cbn [andb].
  - intros H. unfold ret at 1, modify at 1.
    destruct (IH (set_environ FPGA_FAMILY (PyStr.strip x) w) H)
      as (w' & -> & Hl).
    by exists w'.
  - intros _. by exists w.
Qed.

Section Family.

Variable sys : system.
Variable opts : options.
Variable w : world.
Variable hw : string.
Variable text : list string.

Hypothesis unknown : ~ family_known w.
Hypothesis lib_found : getHWLibPath sys opts w = (Ok hw, w).
Hypothesis class_file :
  file_lines sys (PosixPath.join hw platform_class_file) = Some text.

Let cmd : string := afu_platform_info +:+ PyStr.strip (String.concat "" text).

(** The script up to the launch of the command. *)
Lemma addDefaultFpgaFamily_launch :
  addDefaultFpgaFamily sys opts w
  = except_Exception
      (fun w1 =>
         (let* _ :=
            for_each (fst (popen sys cmd))
              (fun line =>
                 let* line := decode_ascii line in
                 modify (set_environ FPGA_FAMILY (PyStr.strip line))) in
          let* _ :=
            if negb (snd (popen sys cmd) =? 0)%Z
            then errorExit FpgaFamilyExitCode else ret tt in
          if negb (quiet opts) then
            let* env := get_environ in
            match env !! FPGA_FAMILY with
            | Some v =>
                modify (log_stderr
                          ("Set OPAE_PLATFORM_FPGA_FAMILY to " +:+ v
                           +:+ newline))
            | None => raise KeyError
            end
          else ret tt) (log_launch cmd w))
      FpgaFamilyException w.
Proof.
  unfold addDefaultFpgaFamily. unfold bind at 1. unfold get_environ at 1.
  rewrite bool_decide_eq_false_2 by exact unknown. cbn [negb].
  unfold except_Exception. unfold bind at 1. rewrite lib_found.
  unfold bind at 1. unfold read_file.
  change "fme-platform-class.txt" with platform_class_file.
  rewrite class_file. unfold ret at 1.
  unfold bind at 1. unfold run at 1. reflexivity.
Qed.

End Family.





(** ** The patterns of the version *)

Lemma go_star_cons (p : ascii -> bool) (pat : list Re.item) (x : ascii)
      (s : string) (inside : bool) (cap : string) :
  Re.go (Re.Star p :: pat) (String x s) inside cap
  = if p x then
      match Re.go (Re.Star p :: pat) s inside
                  (if inside then cap +:+ String x "" else cap) with
      | Some r => Some r
      | None => Re.go pat (String x s) inside cap
      end
    else Re.go pat (String x s) inside cap.
Proof. reflexivity. Qed.

Lemma go_star_nil (p : ascii -> bool) (pat : list Re.item)
      (inside : bool) (cap : string) :
  Re.go (Re.Star p :: pat) "" inside cap = Re.go pat "" inside cap.
Proof. reflexivity. Qed.

Lemma go_open (pat : list Re.item) (s : string) (inside : bool)
      (cap : string) :
  Re.go (Re.GroupOpen :: pat) s inside cap = Re.go pat s true "".
Proof. reflexivity. Qed.

Lemma go_close (pat : list Re.item) (s : string) (inside : bool)
      (cap : string) :
  Re.go (Re.GroupClose :: pat) s inside cap = Re.go pat s false cap.
Proof. reflexivity. Qed.

Lemma go_lit (c : ascii) (pat : list Re.item) (s : string) (inside : bool)
      (cap : string) :
  Re.go (Re.Lit c :: pat) (String c s) inside cap
  = Re.go pat s inside (if inside then cap +:+ String c "" else cap).
Proof. cbn [Re.go]. by rewrite Ascii.eqb_refl. Qed.

(** A greedy star takes a whole run when the rest of the pattern matches
    after it. *)
Lemma go_star_greedy (p : ascii -> bool) (pat : list Re.item)
      (a b : string) (inside : bool) (cap : string) (r : string * string) :
  PyStr.all_chars p a = true ->
  (b = "" \/ exists c b', b = String c b' /\ p c = false) ->
  Re.go pat b inside (if inside then cap +:+ a else cap) = Some r ->
  Re.go (Re.Star p :: pat) (a +:+ b) inside cap = Some r.
Proof.
  revert cap. induction a as [|x a IH]; intros cap Ha Hb Hr.
  - rewrite append_nil_l.
    assert ((if inside then cap +:+ "" else cap) = cap) as E
        by (destruct inside; [apply append_nil_r|done]).
    rewrite E in Hr.
    destruct Hb as [->|(c & b' & -> & Hc)].
    + by rewrite go_star_nil.
    + by rewrite go_star_cons, Hc.
  - cbn [PyStr.all_chars] in Ha. apply andb_true_iff in Ha as [Hx Ha].
    rewrite append_cons, go_star_cons, Hx.
    rewrite (IH _ Ha Hb); [done|].
    destruct inside; [|done].
    by rewrite append_assoc.
Qed.

(** A pattern with a literal character matches nothing in a text without
    that character. *)
Lemma go_needs_char (c : ascii) (pat : list Re.item) :
  In (Re.Lit c) pat ->
  forall s inside cap,
    PyStr.has_char c s = false -> Re.go pat s inside cap = None.
Proof.
  induction pat as [|i pat IH]; [done|].
  intros Hin s inside cap Hs.
  destruct i as [c'|p| |].
  - destruct s as [|a s]; [done|]. cbn [Re.go].
    cbn [PyStr.has_char] in Hs. apply orb_false_iff in Hs as [Ha Hs].
    destruct (Ascii.eqb_spec a c') as [->|Hne]; [|done].
    destruct Hin as [[= ->]|Hin].
    + by rewrite Ascii.eqb_refl in Ha.
    + by apply IH.
  - destruct Hin as [[=]|Hin]. specialize (IH Hin).
    revert cap. induction s as [|a s IHs]; intros cap.
    + rewrite go_star_nil. by apply IH.
    + rewrite go_star_cons. rewrite (IH _ _ _ Hs).
      cbn [PyStr.has_char] in Hs. apply orb_false_iff in Hs as [Ha Hs'].
      rewrite IHs by done. by destruct (p a).
  - destruct Hin as [[=]|Hin]. cbn [Re.go]. by apply IH.
  - destruct Hin as [[=]|Hin]. cbn [Re.go]. by apply IH.
Qed.

Lemma sub_go_no_match (c : ascii) (pat : list Re.item) (fuel : nat)
      (s : string) :
  In (Re.Lit c) pat -> PyStr.has_char c s = false ->
  Re.sub_go fuel pat s = s.
Proof.
  intros Hin. revert s. induction fuel as [|fuel IH]; intros s Hs; [done|].
  cbn [Re.sub_go]. rewrite (go_needs_char c pat Hin) by done.
  destruct s as [|a s]; [done|].
  cbn [PyStr.has_char] in Hs. apply orb_false_iff in Hs as [_ Hs].
  by rewrite IH.
Qed.

Lemma sub_group1_whole (pat : list Re.item) (s g : string) :
  Re.go pat s false "" = Some (g, "") ->
  Re.go pat "" false "" = None ->
  Re.sub_group1 pat s = g.
Proof.
  intros Hm Hn. unfold Re.sub_group1. cbn [Re.sub_go]. rewrite Hm.
  destruct (String.length s); cbn [Re.sub_go]; [by rewrite append_nil_r|].
  rewrite Hn. by rewrite append_nil_r.
Qed.

Lemma digit_not_nondigit (c : ascii) :
  Re.digit c = true -> Re.nondigit c = false.
Proof. unfold Re.nondigit. by intros ->. Qed.

(** X4.  Of a line made of text without digits, a number, a dot, digits,
    a dot and the rest, the major version is the number and the
    major.minor version is the number, the dot and the digits; a line
    without a dot is kept whole as both. *)
Theorem X4_version_patterns (line : string) :
  (forall text major minor rest,
      line = text +:+ major +:+ "." +:+ minor +:+ "." +:+ rest ->
      PyStr.all_chars Re.nondigit text = true ->
      PyStr.all_chars Re.digit major = true -> major <> "" ->
      PyStr.all_chars Re.digit minor = true ->
      PyStr.all_chars Re.any rest = true ->
      Re.sub_group1 Re.major line = major
      /\ Re.sub_group1 Re.major_minor line = major +:+ "." +:+ minor)
  /\ (PyStr.has_char "." line = false ->
      Re.sub_group1 Re.major line = line
      /\ Re.sub_group1 Re.major_minor line = line).
Proof.
  split.
  - intros text major minor rest -> Htext Hmajor Hne Hminor Hrest.
    assert (exists c b', major +:+ "." +:+ minor +:+ "." +:+ rest = String c b'
                         /\ Re.nondigit c = false) as Hb.
    { destruct major as [|c major]; [done|]. eexists c, _.
      split; [by rewrite append_cons|].
      cbn [PyStr.all_chars] in Hmajor.
      apply andb_true_iff in Hmajor as [Hc _]. by apply digit_not_nondigit. }
    assert (forall s, exists c b', "." +:+ s = String c b' /\ Re.digit c = false)
      as Hdot by (intros s; by eexists "."%char, s).
    assert (PyStr.all_chars Re.any (minor +:+ "." +:+ rest) = true) as Hany.
    { clear -Hminor Hrest. induction minor as [|c minor IH].
      - done.
      - rewrite append_cons. cbn [PyStr.all_chars] in *.
        apply andb_true_iff in Hminor as [Hc Hm]. rewrite (IH Hm).
        rewrite andb_true_r. unfold Re.any, Re.digit in *.
        destruct (Ascii.eqb_spec c (ascii_of_nat 10)) as [->|]; [|done].
        by vm_compute in Hc. }
    split.
    + apply sub_group1_whole; [|done]. unfold Re.major.
      apply go_star_greedy; [done|by right|]. rewrite go_open.
      apply go_star_greedy; [done|right; apply Hdot|].
      rewrite append_nil_l, go_close.
      change ("." +:+ minor +:+ "." +:+ rest)
        with (String "." (minor +:+ "." +:+ rest)).
      rewrite go_lit.
      rewrite <- (append_nil_r (minor +:+ "." +:+ rest)).
      apply go_star_greedy; [done|by left|done].
    + apply sub_group1_whole; [|done]. unfold Re.major_minor.
      apply go_star_greedy; [done|by right|]. rewrite go_open.
      apply go_star_greedy; [done|right; apply Hdot|].
      rewrite append_nil_l.
      change ("." +:+ minor +:+ "." +:+ rest)
        with (String "." (minor +:+ "." +:+ rest)).
      rewrite go_lit.
      apply go_star_greedy; [done|right; apply Hdot|].
      rewrite go_close.
      change ("." +:+ rest) with (String "." rest).
      rewrite go_lit.
      rewrite <- (append_nil_r rest).
      apply go_star_greedy; [done|by left|].
      cbn [Re.go]. by rewrite !append_assoc.
  - intros Hd. unfold Re.sub_group1.
    split; apply (sub_go_no_match "."); try done.
    + unfold Re.major. cbn. auto 10.
    + unfold Re.major_minor. cbn. auto 10.
Qed.

Lemma X4_version_patterns_witness :
  Re.sub_group1 Re.major "Version 18.1.0 Build 625" = "18"
  /\ Re.sub_group1 Re.major_minor "Version 18.1.0 Build 625" = "18.1".
Proof.
  apply (proj1 (X4_version_patterns "Version 18.1.0 Build 625")
               "Version " "18" "1" "0 Build 625");
    try reflexivity. discriminate.
Defined.

(** ** Reading the version of Quartus *)

(** The loop over the output of [quartus_sh], when every line decodes:
    the flag tells whether a version line was seen, and the two variables
    hold what the last version line gives. *)
Lemma scan_version_spec (lines : list string) (ok : bool) (w : world) :
  all_ascii lines = true ->
  exists w',
    scan_version lines ok w
    = (Ok (ok || existsb is_version_line lines), w')
    /\ launched w' = launched w
    /\ stderr w' = stderr w
    /\ (forall k, k <> "QUARTUS_VERSION" -> k <> "QUARTUS_VERSION_MAJOR" ->
                  environ w' !! k = environ w !! k)
    /\ (existsb is_version_line lines = false -> w' = w)
    /\ (forall l1 v l2,
           lines = l1 ++ v :: l2 ->
           is_version_line v = true ->
           existsb is_version_line l2 = false ->
           environ w' !! "QUARTUS_VERSION_MAJOR" = Some (version_major v)
           /\ environ w' !! "QUARTUS_VERSION" = Some (version_major_minor v)).
Proof.
  revert ok w. induction lines as [|x lines IH]; intros ok w Hascii.
  - exists w. cbn [scan_version existsb]. rewrite orb_false_r.
    split; [done|]. split; [done|]. split; [done|]. split; [done|].
    split; [done|]. intros [|? ?] ? ? ?; done.
  - cbn [all_ascii forallb] in Hascii.
    apply andb_true_iff in Hascii as [Hx Hrest].
    cbn [scan_version existsb].
    unfold bind at 1. unfold decode_ascii at 1. rewrite Hx. unfold ret at 1.
    change (PyStr.take 7 (PyStr.strip x) =? "Version")%string
      with (is_version_line x).
    destruct (is_version_line x) eqn:Hv.
    + unfold bind at 1. unfold modify at 1.
      unfold bind at 1. unfold modify at 1.
      set (w1 := set_environ "QUARTUS_VERSION"
                   (Re.sub_group1 Re.major_minor (PyStr.strip x))
                   (set_environ "QUARTUS_VERSION_MAJOR"
                      (Re.sub_group1 Re.major (PyStr.strip x)) w)).
      destruct (IH true w1 Hrest) as (w' & -> & Hl & He & Ho & Hsame & Hlast).
      exists w'. rewrite orb_true_r. cbn [orb].
      split; [done|]. split; [done|]. split; [done|].
      split; [|split; [done|]].
      * intros k H1 H2. rewrite (Ho k H1 H2). unfold w1, set_environ.
        cbn [environ]. by rewrite !lookup_insert_ne.
      * intros [|y l1] v l2 Heq Hvl Hl2.
        -- cbn [app] in Heq. injection Heq as -> ->.
           rewrite (Hsame Hl2). unfold w1, set_environ. cbn [environ].
           split.
           ++ rewrite lookup_insert_ne by done. by rewrite lookup_insert_eq.
           ++ by rewrite lookup_insert_eq.
        -- cbn [app] in Heq. injection Heq as -> ->.
           by apply (Hlast l1 v l2).
    + destruct (IH ok w Hrest) as (w' & -> & Hl & He & Ho & Hsame & Hlast).
      exists w'. cbn [orb].
      split; [done|]. split; [done|]. split; [done|]. split; [done|].
      split; [done|].
      intros [|y l1] v l2 Heq Hvl Hl2.
      * cbn [app] in Heq. injection Heq as -> ->. congruence.
      * cbn [app] in Heq. injection Heq as -> ->.
        by apply (Hlast l1 v l2).
Qed.

(** A line that does not decode ends the loop with an exception. *)
Lemma scan_version_undecodable (lines : list string) (ok : bool)
      (w : world) :
  all_ascii lines = false ->
  exists w',
    scan_version lines ok w = (Raise UnicodeDecodeError, w')
    /\ launched w' = launched w /\ stderr w' = stderr w.
Proof.
  revert ok w. induction lines as [|x lines IH]; intros ok w; [done|].
  cbn [all_ascii forallb scan_version].
  unfold bind at 1. unfold decode_ascii at 1.
  destruct (PyStr.all_chars _ x); cbn [andb].
  - intros H. unfold ret at 1.
    destruct (_ =? _)%string.
    + unfold bind at 1. unfold modify at 1.
      unfold bind at 1. unfold modify at 1.
      destruct (IH true (set_environ "QUARTUS_VERSION"
                   (Re.sub_group1 Re.major_minor (PyStr.strip x))
                   (set_environ "QUARTUS_VERSION_MAJOR"
                      (Re.sub_group1 Re.major (PyStr.strip x)) w)) H)
        as (w' & -> & Hl & He).
      by exists w'.
    + destruct (IH ok w H) as (w' & -> & Hl). by exists w'.
  - intros _. by exists w.
Qed.

Lemma existsb_app_last (l1 l2 : list string) (v : string) :
  is_version_line v = true ->
  existsb is_version_line (l1 ++ v :: l2) = true.
Proof.
  intros Hv. rewrite existsb_app. cbn [existsb]. rewrite Hv.
  by rewrite orb_true_r.
Qed.





(** ** Where a rewritten path leads *)

(** The relative path that [relpath] gives, read from the start directory,
    leads to the components of the path it was given. *)
Lemma relpath_resolves (cwd x t p : string) :
  PosixPath.isabs cwd = true ->
  PosixPath.relpath cwd x t = Ok p ->
  abs_comps cwd (PosixPath.join t p) = abs_comps cwd x.
Proof.
  intros Hcwd Hrel.
  destruct (relpath_Ok_nonempty cwd x t p Hcwd Hrel) as (Hx & _ & Hp).
  rewrite (relpath_render cwd x t Hx) in Hrel. injection Hrel as <-.
  rewrite abs_comps_stack by done.
  rewrite abs_stack_join by done.
  rewrite (abs_stack_comps cwd t) by done.
  rewrite fold_rel_list by (by apply abs_comps_clean).
  apply rev_involutive.
Qed.

(** A relative path made absolute leads where it leads from the working
    directory. *)
Lemma abs_comps_from_cwd (cwd t p : string) :
  PosixPath.isabs cwd = true ->
  PosixPath.isabs p = false ->
  abs_comps cwd t = abs_comps cwd cwd ->
  abs_comps cwd (PosixPath.abspath cwd p) = abs_comps cwd (PosixPath.join t p).
Proof.
  intros Hcwd Hp Ht.
  rewrite abs_comps_abspath by done.
  rewrite !abs_comps_stack by done. f_equal.
  rewrite (abs_stack_join cwd t p) by done.
  rewrite (abs_stack_comps cwd t), Ht, <- (abs_stack_comps cwd cwd) by done.
  rewrite <- abs_stack_cwd by done.
  rewrite <- (abs_stack_join cwd "" p) by done.
  by rewrite join_relative.
Qed.

(** X7.  The path [fixRelPath] writes after the prefix of an entry names
    the file the entry named from the directory of its manifest: in
    relative mode it is a relative path that leads there from the target
    directory, and in absolute mode it is an absolute path that leads
    there when the target directory is the working directory. *)
Theorem X7_fixRelPath_same_file (sys : system) (opts : options)
        (c d t r : string) :
  PosixPath.isabs (getcwd sys) = true ->
  c <> "" -> is_define c = false ->
  fixRelPath sys opts c d t = Ok r ->
  exists p,
    r = fst (split_prefix sys c d) +:+ p
    /\ (abs opts = false ->
        PosixPath.isabs p = false
        /\ abs_comps (getcwd sys) (PosixPath.join t p)
           = abs_comps (getcwd sys)
                       (PosixPath.join d (snd (split_prefix sys c d))))
    /\ (abs opts = true ->
        PosixPath.isabs p = true
        /\ (abs_comps (getcwd sys) t = abs_comps (getcwd sys) (getcwd sys) ->
            abs_comps (getcwd sys) p
            = abs_comps (getcwd sys)
                        (PosixPath.join d (snd (split_prefix sys c d))))).
Proof.
  intros Hcwd Hc Hdef Hfix.
  rewrite fixRelPath_unfold in Hfix by done.
  destruct (PosixPath.relpath (getcwd sys)
              (PosixPath.join d (snd (split_prefix sys c d))) t)
    as [p| |] eqn:Hrel; [|done|done].
  injection Hfix as <-.
  destruct (relpath_Ok_nonempty _ _ _ _ Hcwd Hrel) as (_ & _ & Hp).
  pose proof (relpath_resolves _ _ _ _ Hcwd Hrel) as Hres.
  eexists. split; [reflexivity|]. split.
  - intros ->. by split.
  - intros ->. split; [by apply isabs_abspath|].
    intros Ht. by rewrite (abs_comps_from_cwd _ t).
Qed.

Lemma X7_fixRelPath_same_file_witness :
  exists p,
    "QI:../w/setup.tcl" = "QI:" +:+ p
    /\ PosixPath.isabs p = false
    /\ abs_comps "/w" (PosixPath.join "/out" p)
       = abs_comps "/w" (PosixPath.join "scripts" "../setup.tcl").
Proof.
  destruct (X7_fixRelPath_same_file sample_system
              (mode_options Synthesis "scripts/m.txt" "/out" false true None)
              "QI:../setup.tcl" "scripts" "/out" "QI:../w/setup.tcl")
    as (p & H1 & H2 & _); try (vm_compute; reflexivity).
  - discriminate.
  - exists p. split; [exact H1|]. exact (H2 eq_refl).
Defined.

(** X8.  [fixRelPath] returns an empty entry and a [+define+] entry as
    they are.  It never leaves with [errorExit], and it raises, a
    [ValueError], exactly when the path of the entry is empty and the
    manifest has no directory part: [+incdir+] alone, a command with
    nothing after its colon. *)
Theorem X8_fixRelPath_failure (sys : system) (opts : options)
        (c d t : string) :
  (c = "" \/ is_define c = true -> fixRelPath sys opts c d t = Ok c)
  /\ (forall e, fixRelPath sys opts c d t <> Exit e)
  /\ (forall x,
         fixRelPath sys opts c d t = Raise x
         <-> x = ValueError /\ c <> "" /\ is_define c = false
             /\ d = "" /\ snd (split_prefix sys c d) = "").
Proof.
  assert (forall a b, PosixPath.join a b = "" <-> a = "" /\ b = "") as Hjoin.
  { intros a b. split.
    - intros H. pose proof (join_eq_nil a b H) as ->. split; [|done].
      rewrite join_relative in H by done.
      destruct ((a =? "")%string || PyStr.endswith_char "/" a).
      + by apply append_eq_nil in H as [? _].
      + by apply append_eq_nil in H as [? _].
    - by intros [-> ->]. }
  destruct (String.eqb_spec c "") as [->|Hc].
  { split; [done|]. split; [done|]. intros x. split; [done|].
    by intros (_ & H & _). }
  destruct (is_define c) eqn:Hdef.
  { assert (fixRelPath sys opts c d t = Ok c) as E.
    { unfold fixRelPath. unfold is_define in Hdef. rewrite Hdef.
      by destruct (String.length c =? 0). }
    rewrite E. split; [done|]. split; [done|]. intros x. split; [done|].
    by intros (_ & _ & H & _). }
  rewrite fixRelPath_unfold by done.
  split; [by intros [?|?]|].
  unfold PosixPath.relpath.
  destruct (String.eqb_spec
              (PosixPath.join d (snd (split_prefix sys c d))) "") as [E|E].
  - split; [done|]. intros x. split.
    + intros [= <-]. apply Hjoin in E as [? ?]. done.
    + by intros (-> & _).
  - set (rl := _ ++ _). split.
    + intros e. by destruct rl.
    + intros x. split; [by destruct rl|].
      intros (_ & _ & _ & H1 & H2). destruct E. by apply Hjoin.
Qed.

Lemma X8_fixRelPath_failure_witness :
  fixRelPath sample_system
    (mode_options Synthesis "m.txt" "/w" false true None) "+incdir+" "" "/w"
  = Raise ValueError.
Proof.
  apply (proj2 (proj2 (X8_fixRelPath_failure sample_system
           (mode_options Synthesis "m.txt" "/w" false true None)
           "+incdir+" "" "/w"))).
  split; [reflexivity|]. split; [discriminate|].
  split; [reflexivity|]. split; reflexivity.
Defined.

(** ** Emission by kind of entry *)

(** Every tag of every table is a text that counts as true. *)
Lemma truthy_mode_table (m : TargetMode) (ext : string) :
  truthy (mode_table m !! ext) = bool_decide (is_Some (mode_table m !! ext)).
Proof.
  destruct (mode_table m !! ext) as [t|] eqn:E; [|done].
  rewrite bool_decide_eq_true_2 by eauto. cbn [truthy].
  apply negb_true_iff, String.eqb_neq. intros ->.
  destruct m; unfold mode_table in E;
    apply elem_of_list_to_map_2 in E;
    repeat (apply elem_of_cons in E as [E|E]; [discriminate|]);
    by apply elem_of_nil in E.
Qed.

Lemma tcl_lookup (ext : string) :
  is_Some (tcl_tag_map !! ext) <-> ext = ".tcl".
Proof.
  split.
  - intros [t E]. apply elem_of_list_to_map_2 in E.
    apply elem_of_cons in E as [[= -> _]|E]; [done|].
    by apply elem_of_nil in E.
  - intros ->. by eexists.
Qed.

Lemma truthy_tcl (value : string) :
  truthy (lookupTag value tcl_tag_map) = bool_decide (file_ext value = ".tcl").
Proof.
  rewrite lookupTag_lookup. rewrite (truthy_mode_table TclOnly).
  apply bool_decide_ext, tcl_lookup.
Qed.

Lemma include_cmd_cases (cmd : string) :
  cmd ∈ ["SI"; "SI_VLOG"; "SI_VHDL"; "QI"] ->
  cmd = "SI" \/ cmd = "SI_VLOG" \/ cmd = "SI_VHDL" \/ cmd = "QI".
Proof.
  intros H. rewrite !elem_of_cons, elem_of_nil in H. tauto.
Qed.

Lemma entry_cmd_cases (cmd : option string) :
  cmd ∈ [Some "SI"; Some "SI_VLOG"; Some "SI_VHDL"; Some "QI"] ->
  exists c, cmd = Some c /\ c ∈ ["SI"; "SI_VLOG"; "SI_VHDL"; "QI"].
Proof.
  intros H. rewrite !elem_of_cons, elem_of_nil in H.
  destruct H as [->|[->|[->|[->|[]]]]]; eexists; (split; [reflexivity|]);
    rewrite !elem_of_cons; tauto.
Qed.

(** The entries of the loop over sources: a directive, a source file, or
    one of the four includes. *)
Lemma emit_entry_cases (opts : options) (pfx c : string) :
  (("+" =? PyStr.take 1 c)%string = true
   /\ emit_entry opts pfx c = ([], Ok tt))
  \/ (is_source_file c = true
      /\ emit_entry opts pfx c = emit_source_file opts pfx c)
  \/ (exists cmd value,
         c = cmd +:+ ":" +:+ value
         /\ ("+" =? PyStr.take 1 c)%string = false
         /\ (((cmd = "SI" \/ cmd = "SI_VLOG")
              /\ emit_entry opts pfx c
                 = (if truthy (lookupTag value tcl_tag_map)
                       && (sim_vlog opts || tcl opts)
                    then [value]
                    else if sim_vlog opts then ["-F " +:+ value] else [],
                    Ok tt))
             \/ (cmd = "SI_VHDL"
                 /\ emit_entry opts pfx c
                    = (if truthy (lookupTag value tcl_tag_map)
                          && (sim_vhdl opts || tcl opts)
                       then [value]
                       else if sim_vhdl opts then ["-F " +:+ value] else [],
                       Ok tt))
             \/ (cmd = "QI"
                 /\ emit_entry opts pfx c
                    = (if negb (sim opts) && negb (file_type_filter opts)
                       then ["source " +:+ dquote +:+ pfx +:+ value
                             +:+ dquote]
                       else [],
                       Ok tt)))).
Proof.
  destruct ("+" =? PyStr.take 1 c)%string eqn:Hplus.
  { left. split; [done|]. unfold emit_entry. by rewrite Hplus. }
  right.
  destruct (is_source_file c) eqn:Hsrc.
  { left. split; [done|]. by apply emit_entry_source_file. }
  right.
  unfold is_source_file in Hsrc. rewrite Hplus in Hsrc. cbn [negb andb] in Hsrc.
  apply negb_false_iff, bool_decide_eq_true in Hsrc.
  unfold entry_cmd in Hsrc.
  apply entry_cmd_cases in Hsrc as (cmd' & Hcmd & Hin).
  destruct (PyStr.split_once ":" c) as [[cmd value]|] eqn:Hsp; [|done].
  cbn [fmap option_fmap option_map fst] in Hcmd. injection Hcmd as ->.
  exists cmd', value.
  pose proof (split_once_Some _ _ _ _ Hsp) as [Hc _].
  split; [exact Hc|]. split; [done|].
  unfold emit_entry. rewrite Hplus, Hsp. cbn [from_option fst snd].
  rewrite bool_decide_eq_true_2 by eauto. cbn [andb].
  destruct (include_cmd_cases _ Hin) as [-> | [-> | [-> | ->]]].
  - left. split; [by left|]. cbn [String.eqb Ascii.eqb Bool.eqb andb orb].
    by destruct (_ && _), (sim_vlog opts).
  - left. split; [by right|].
    change ("SI_VLOG" =? "SI")%string with false.
    change ("SI_VLOG" =? "SI_VLOG")%string with true. cbn [orb].
    by destruct (_ && _), (sim_vlog opts).
  - right. left. split; [done|].
    change ("SI_VHDL" =? "SI")%string with false.
    change ("SI_VHDL" =? "SI_VLOG")%string with false.
    change ("SI_VHDL" =? "SI_VHDL")%string with true. cbn [orb].
    by destruct (_ && _), (sim_vhdl opts).
  - right. right. split; [done|].
    change ("QI" =? "SI")%string with false.
    change ("QI" =? "SI_VLOG")%string with false.
    change ("QI" =? "SI_VHDL")%string with false.
    change ("QI" =? "QI")%string with true. cbn [orb].
    by destruct (_ && _).
Qed.

Lemma emit_entry_include (opts : options) (pfx cmd value : string) :
  cmd ∈ ["SI"; "SI_VLOG"; "SI_VHDL"; "QI"] ->
  PyStr.split_once ":" (cmd +:+ ":" +:+ value) = Some (cmd, value)
  /\ ("+" =? PyStr.take 1 (cmd +:+ ":" +:+ value))%string = false
  /\ is_source_file (cmd +:+ ":" +:+ value) = false.
Proof.
  intros Hin.
  assert (PyStr.split_once ":" (cmd +:+ ":" +:+ value) = Some (cmd, value))
    as Hsp.
  { change (":" +:+ value) with (String ":" value).
    apply split_once_app.
    destruct (include_cmd_cases _ Hin) as [-> | [-> | [-> | ->]]];
      reflexivity. }
  assert (("+" =? PyStr.take 1 (cmd +:+ ":" +:+ value))%string = false)
    as Hplus.
  { destruct (include_cmd_cases _ Hin) as [-> | [-> | [-> | ->]]];
      reflexivity. }
  split; [done|]. split; [done|].
  unfold is_source_file, entry_cmd. rewrite Hplus, Hsp.
  cbn [negb andb fmap option_fmap option_map fst].
  apply negb_false_iff, bool_decide_eq_true.
  destruct (include_cmd_cases _ Hin) as [-> | [-> | [-> | ->]]];
    rewrite !elem_of_cons; tauto.
Qed.

(** X9.  A simulator include is never validated and never ends the
    script.  Its value is printed as it is when it is a Tcl script and
    the mode is the include's simulation or the Tcl filter, after [-F]
    when it is another file and the mode is the include's simulation,
    and not at all otherwise; [SI] and [SI_VLOG] belong to the Verilog
    simulation, [SI_VHDL] to the VHDL simulation. *)
Theorem X9_simulator_includes (m : TargetMode) (file target : string)
        (absolute be_quiet : bool) (hw_lib : option string)
        (pfx cmd value : string) :
  cmd ∈ ["SI"; "SI_VLOG"; "SI_VHDL"] ->
  let own := (m = SimVerilog /\ (cmd = "SI" \/ cmd = "SI_VLOG"))
             \/ (m = SimVhdl /\ cmd = "SI_VHDL") in
  emit_entry (mode_options m file target absolute be_quiet hw_lib) pfx
             (cmd +:+ ":" +:+ value)
  = (if bool_decide (file_ext value = ".tcl")
     then if bool_decide (own \/ m = TclOnly) then [value] else []
     else if bool_decide own then ["-F " +:+ value] else [],
     Ok tt).
Proof.
  intros Hin own.
  assert (cmd ∈ ["SI"; "SI_VLOG"; "SI_VHDL"; "QI"]) as Hin'
      by (rewrite !elem_of_cons in *; tauto).
  destruct (emit_entry_include
              (mode_options m file target absolute be_quiet hw_lib)
              pfx cmd value Hin') as (Hsp & Hplus & Hsrc).
  unfold emit_entry. rewrite Hplus, Hsp. cbn [from_option fst snd].
  rewrite bool_decide_eq_true_2 by eauto. cbn [andb].
  rewrite truthy_tcl.
  destruct (mode_options_flags m file target absolute be_quiet hw_lib)
    as (-> & -> & _ & _ & _ & _ & -> & _).
  assert (cmd = "SI" \/ cmd = "SI_VLOG" \/ cmd = "SI_VHDL")
    as [-> | [-> | ->]]
      by (rewrite !elem_of_cons, elem_of_nil in Hin; tauto).
  - cbn [String.eqb Ascii.eqb Bool.eqb andb orb].
    destruct (bool_decide (file_ext value = ".tcl")); cbn [andb];
      destruct m; subst own; by vm_compute.
  - change ("SI_VLOG" =? "SI")%string with false.
    change ("SI_VLOG" =? "SI_VLOG")%string with true. cbn [orb].
    destruct (bool_decide (file_ext value = ".tcl")); cbn [andb];
      destruct m; subst own; by vm_compute.
  - change ("SI_VHDL" =? "SI")%string with false.
    change ("SI_VHDL" =? "SI_VLOG")%string with false.
    change ("SI_VHDL" =? "SI_VHDL")%string with true. cbn [orb].
    destruct (bool_decide (file_ext value = ".tcl")); cbn [andb];
      destruct m; subst own; by vm_compute.
Qed.

Lemma X9_simulator_includes_witness :
  emit_entry (mode_options SimVerilog "m.txt" "/w" false true None) ""
             ("SI" +:+ ":" +:+ "sim/files.f")
  = (["-F sim/files.f"], Ok tt).
Proof.
  apply (X9_simulator_includes SimVerilog "m.txt" "/w" false true None
                               "" "SI" "sim/files.f").
  rewrite !elem_of_cons. by left.
Defined.

(** ** Unrecognized extensions *)

Lemma not_recognized (c : string) :
  ~ recognized c <-> forall m, mode_table m !! file_ext c = None.
Proof.
  split.
  - intros H m. destruct (mode_table m !! file_ext c) eqn:E; [|done].
    destruct H. exists m. by rewrite E.
  - intros H [m [t Ht]]. by rewrite H in Ht.
Qed.

(** An entry other than a source file with an unrecognized extension lets
    the loop go on. *)
Lemma emit_entry_accepted (opts : options) (pfx c : string) :
  accepted c -> snd (emit_entry opts pfx c) = Ok tt.
Proof.
  intros Hacc.
  destruct (emit_entry_cases opts pfx c)
    as [[_ ->]|[[Hsrc ->]|(cmd & value & _ & _ & H)]].
  - done.
  - unfold emit_source_file.
    by rewrite (proj2 (validateTag_Ok c) (Hacc Hsrc)).
  - by destruct H as [[_ ->]|[[_ ->]|[_ ->]]].
Qed.

Lemma emit_entry_rejected (opts : options) (pfx c : string) :
  is_source_file c = true -> ~ recognized c ->
  emit_entry opts pfx c
  = ([], Exit (UnrecognizedExtension (file_ext c) c)).
Proof.
  intros Hsrc Hrec. rewrite emit_entry_source_file by done.
  unfold emit_source_file.
  by rewrite (validateTag_Exit c (proj1 (not_recognized c) Hrec)).
Qed.

Lemma emit_sources_accepted (opts : options) (pfx : string)
      (cfg : list string) :
  Forall accepted cfg -> snd (emit_sources opts pfx cfg) = Ok tt.
Proof.
  induction 1 as [|c cfg Hc _ IH]; [done|].
  cbn [emit_sources].
  pose proof (emit_entry_accepted opts pfx c Hc) as He.
  destruct (emit_entry opts pfx c) as [out r]. cbn [snd] in He. subst r.
  by destruct (emit_sources opts pfx cfg).
Qed.

Lemma emit_entry_outcome (opts : options) (pfx c : string) :
  snd (emit_entry opts pfx c) = Ok tt
  \/ (is_source_file c = true /\ ~ recognized c
      /\ emit_entry opts pfx c
         = ([], Exit (UnrecognizedExtension (file_ext c) c))).
Proof.
  destruct (emit_entry_cases opts pfx c)
    as [[_ ->]|[[Hsrc E]|(cmd & value & _ & _ & H)]].
  - by left.
  - destruct (validateTag c) as [[]|e|x] eqn:Hv.
    + left. rewrite E. unfold emit_source_file. by rewrite Hv.
    + right. split; [done|].
      assert (~ recognized c) as Hrec.
      { intros Hrec. apply validateTag_Ok in Hrec. congruence. }
      split; [done|]. by apply emit_entry_rejected.
    + by destruct (validateTag_cases c) as [?|?]; congruence.
  - left. by destruct H as [[_ ->]|[[_ ->]|[_ ->]]].
Qed.

(** X10.  [emitCfg] validates the extension of every source file in every
    mode, whether or not the mode would print the file.  When every
    source file has a recognized extension it ends normally.  At the
    first source file whose extension no table has, it stops with the
    error that names the extension and the entry: the loop over sources
    has printed what the entries before gave and prints nothing more.
    It never raises. *)
Theorem X10_unrecognized_extension_stops (opts : options)
        (cfg : list string) :
  (Forall accepted cfg -> snd (emitCfg opts cfg) = Ok tt)
  /\ (forall l1 c l2,
         cfg = l1 ++ c :: l2 ->
         Forall accepted l1 ->
         is_source_file c = true -> ~ recognized c ->
         snd (emitCfg opts cfg)
         = Exit (UnrecognizedExtension (file_ext c) c)
         /\ emit_sources opts (rel_prefix_of opts) cfg
            = (fst (emit_sources opts (rel_prefix_of opts) l1),
               Exit (UnrecognizedExtension (file_ext c) c)))
  /\ (forall x, snd (emitCfg opts cfg) <> Raise x).
Proof.
  assert (forall l, snd (emitCfg opts l)
                    = snd (emit_sources opts (rel_prefix_of opts) l)) as Hsnd.
  { intros l. unfold emitCfg. by destruct (emit_sources _ _ l). }
  split; [|split].
  - intros H. rewrite Hsnd. by apply emit_sources_accepted.
  - intros l1 c l2 -> Hl1 Hsrc Hrec.
    assert (emit_sources opts (rel_prefix_of opts) (l1 ++ c :: l2)
            = (fst (emit_sources opts (rel_prefix_of opts) l1),
               Exit (UnrecognizedExtension (file_ext c) c))) as E.
    { rewrite emit_sources_app.
      pose proof (emit_sources_accepted opts (rel_prefix_of opts) l1 Hl1) as H1.
      destruct (emit_sources opts (rel_prefix_of opts) l1) as [out r].
      cbn [snd] in H1. subst r. cbn [emit_sources fst].
      rewrite emit_entry_rejected by done. by rewrite app_nil_r. }
    split; [|done]. by rewrite Hsnd, E.
  - intros x. rewrite Hsnd. generalize (rel_prefix_of opts) as pfx. intros pfx.
    induction cfg as [|c cfg IH]; [done|].
    cbn [emit_sources].
    destruct (emit_entry_outcome opts pfx c) as [He|(_ & _ & ->)]; [|done].
    destruct (emit_entry opts pfx c) as [out r]. cbn [snd] in He. subst r.
    by destruct (emit_sources opts pfx cfg).
Qed.

Lemma X10_unrecognized_extension_stops_witness :
  snd (emitCfg (mode_options QsysOnly "m.txt" "/w" false true None)
               ["a.qsys"; "notes.txt"; "b.qsys"])
  = Exit (UnrecognizedExtension ".txt" "notes.txt").
Proof.
  refine (proj1 (proj1 (proj2 (X10_unrecognized_extension_stops
            (mode_options QsysOnly "m.txt" "/w" false true None)
            ["a.qsys"; "notes.txt"; "b.qsys"]))
            ["a.qsys"] "notes.txt" ["b.qsys"] eq_refl _ eq_refl _)).
  - apply Forall_cons. split; [|apply Forall_nil_2].
    intros _. exists QsysOnly. by eexists.
  - intros [m [t Ht]]. by destruct m.
Defined.

(** ** The filter modes *)

Lemma filter_mode_flags (m : TargetMode) (file target : string)
      (absolute be_quiet : bool) (hw_lib : option string) :
  m ∈ [QsysOnly; IpxOnly; JsonOnly; TclOnly] ->
  let o := mode_options m file target absolute be_quiet hw_lib in
  file_type_filter o = true /\ sim_vlog o = false /\ sim_vhdl o = false
  /\ sim o = false /\ m <> Synthesis.
Proof.
  intros H. rewrite !elem_of_cons, elem_of_nil in H.
  destruct H as [->|[->|[->|[->|[]]]]]; by repeat split.
Qed.

(** What one entry prints in a filter mode. *)
Lemma emit_entry_filter (m : TargetMode) (file target : string)
      (absolute be_quiet : bool) (hw_lib : option string) (pfx c : string) :
  m ∈ [QsysOnly; IpxOnly; JsonOnly; TclOnly] ->
  let o := mode_options m file target absolute be_quiet hw_lib in
  (forall line, In line (fst (emit_entry o pfx c)) ->
                is_Some (mode_table m !! file_ext line))
  /\ (m <> TclOnly -> accepted c ->
      emit_entry o pfx c
      = (if printed_source m c then [c] else [], Ok tt)).
Proof.
  intros Hm o.
  destruct (filter_mode_flags m file target absolute be_quiet hw_lib Hm)
    as (Hf & Hvl & Hvh & Hsim & Hsyn).
  fold o in Hf, Hvl, Hvh, Hsim.
  assert (tcl o = bool_decide (m = TclOnly)) as Htcl by reflexivity.
  destruct (emit_entry_cases o pfx c)
    as [[Hplus ->]|[[Hsrc ->]|(cmd & value & Hc & Hplus & H)]].
  - split; [by intros ? []|]. intros _ _. unfold printed_source, is_source_file.
    by rewrite Hplus.
  - unfold printed_source. rewrite Hsrc. cbn [andb].
    destruct (validateTag c) as [[]|e|x] eqn:Hv.
    + unfold o. rewrite emit_source_file_mode by done.
      rewrite truthy_mode_table. split; [|done].
      intros line. cbn [fst].
      destruct (bool_decide (is_Some _)) eqn:E; [|by intros []].
      intros [<-|[]]. by apply bool_decide_eq_true in E.
    + unfold emit_source_file. rewrite Hv. split; [by intros ? []|].
      intros _ Hacc. apply Hacc, validateTag_Ok in Hsrc. congruence.
    + unfold emit_source_file. rewrite Hv. split; [by intros ? []|].
      intros _ Hacc. apply Hacc, validateTag_Ok in Hsrc. congruence.
  - assert (printed_source m c = false) as Hps.
    { unfold printed_source.
      assert (cmd ∈ ["SI"; "SI_VLOG"; "SI_VHDL"; "QI"]) as Hin
          by (rewrite !elem_of_cons; tauto).
      subst c.
      by rewrite (proj2 (proj2 (emit_entry_include o pfx cmd value Hin))). }
    rewrite Hps.
    destruct H as [[_ ->]|[[_ ->]|[_ ->]]].
    + rewrite Hvl, Htcl, truthy_tcl. cbn [orb fst].
      split.
      * intros line.
        destruct (bool_decide (file_ext value = ".tcl")) eqn:E1;
          [|by intros []].
        destruct (bool_decide (m = TclOnly)) eqn:E2; [|by intros []].
        cbn [andb]. intros [<-|[]].
        apply bool_decide_eq_true in E1, E2. subst m.
        by apply tcl_lookup.
      * intros Hne _. rewrite (bool_decide_eq_false_2 _ Hne).
        by rewrite andb_false_r.
    + rewrite Hvh, Htcl, truthy_tcl. cbn [orb fst].
      split.
      * intros line.
        destruct (bool_decide (file_ext value = ".tcl")) eqn:E1;
          [|by intros []].
        destruct (bool_decide (m = TclOnly)) eqn:E2; [|by intros []].
        cbn [andb]. intros [<-|[]].
        apply bool_decide_eq_true in E1, E2. subst m.
        by apply tcl_lookup.
      * intros Hne _. rewrite (bool_decide_eq_false_2 _ Hne).
        by rewrite andb_false_r.
    + rewrite Hf, andb_false_r. split; [by intros ? []|done].
Qed.

(** X11.  In the modes that filter by file type ([--qsys], [--ipx],
    [--json], [--tcl]) every printed line is a name whose extension is in
    the table of the mode; nothing else is printed, no header and no
    preprocessor line.  In the first three, when every source file has a
    recognized extension, the output is the source files of the manifest
    whose extension the table has, as they are and in their order. *)
Theorem X11_filter_modes (m : TargetMode) (file target : string)
        (absolute be_quiet : bool) (hw_lib : option string)
        (cfg : list string) :
  m ∈ [QsysOnly; IpxOnly; JsonOnly; TclOnly] ->
  let opts := mode_options m file target absolute be_quiet hw_lib in
  (forall line, In line (fst (emitCfg opts cfg)) ->
                is_Some (mode_table m !! file_ext line))
  /\ (m <> TclOnly -> Forall accepted cfg ->
      emitCfg opts cfg = (List.filter (printed_source m) cfg, Ok tt)).
Proof.
  intros Hm opts.
  destruct (filter_mode_flags m file target absolute be_quiet hw_lib Hm)
    as (Hf & _). fold opts in Hf.
  assert (emitCfg opts cfg = emit_sources opts (rel_prefix_of opts) cfg) as ->.
  { unfold emitCfg. rewrite Hf. cbn [negb].
    by destruct (emit_sources opts (rel_prefix_of opts) cfg). }
  generalize (rel_prefix_of opts) as pfx. intros pfx.
  split.
  - induction cfg as [|c cfg IH]; [done|].
    intros line. cbn [emit_sources].
    pose proof (proj1 (emit_entry_filter m file target absolute be_quiet
                                         hw_lib pfx c Hm)) as Hc.
    fold opts in Hc.
    destruct (emit_entry opts pfx c) as [out [[]|e|x]]; cbn [fst] in *;
      [|by apply Hc..].
    destruct (emit_sources opts pfx cfg) as [out' r]. cbn [fst] in *.
    intros [?|?]%in_app_or; [by apply Hc|by apply IH].
  - subst opts. intros Hne. induction 1 as [|c cfg Hc _ IH]; [done|].
    cbn [emit_sources List.filter].
    rewrite (proj2 (emit_entry_filter m file target absolute be_quiet
                                      hw_lib pfx c Hm) Hne Hc).
    rewrite IH. by destruct (printed_source m c).
Qed.

Lemma X11_filter_modes_witness :
  emitCfg (mode_options QsysOnly "m.txt" "/w" false true None)
          ["+define+A"; "top.sv"; "ip/x.qsys"; "QI:a.tcl"; "y.ip"]
  = (["ip/x.qsys"; "y.ip"], Ok tt).
Proof.
  refine (proj2 (X11_filter_modes QsysOnly "m.txt" "/w" false true None
            ["+define+A"; "top.sv"; "ip/x.qsys"; "QI:a.tcl"; "y.ip"] _) _ _).
  - rewrite !elem_of_cons. by left.
  - discriminate.
  - repeat (apply Forall_cons; split); try apply Forall_nil_2;
      intros Hsrc; try discriminate Hsrc.
    + exists Synthesis. by eexists.
    + exists QsysOnly. by eexists.
    + exists QsysOnly. by eexists.
Defined.

(** ** The simulation modes *)

Lemma flat_map_emit_define_vlog (opts : options) (cfg : list string) :
  sim_vlog opts = true ->
  flat_map (emit_define opts) cfg = List.filter is_define cfg.
Proof.
  intros Hvl. induction cfg as [|c cfg IH]; [done|].
  cbn [flat_map List.filter]. rewrite IH.
  unfold emit_define. fold (is_define c). rewrite Hvl.
  by destruct (is_define c).
Qed.

Lemma flat_map_emit_incdir_vlog (opts : options) (pfx : string)
      (cfg : list string) :
  sim_vlog opts = true ->
  flat_map (emit_incdir opts pfx) cfg = List.filter is_incdir cfg.
Proof.
  intros Hvl. induction cfg as [|c cfg IH]; [done|].
  cbn [flat_map List.filter]. rewrite IH.
  unfold emit_incdir. fold (is_incdir c). rewrite Hvl.
  by destruct (is_incdir c).
Qed.

Lemma flat_map_emit_vhdl (opts : options) (pfx : string)
      (cfg : list string) :
  sim_vlog opts = false -> sim_vhdl opts = true ->
  flat_map (emit_define opts) cfg = []
  /\ flat_map (emit_incdir opts pfx) cfg = [].
Proof.
  intros Hvl Hvh. induction cfg as [|c cfg [IH1 IH2]]; [done|].
  cbn [flat_map]. rewrite IH1, IH2.
  unfold emit_define, emit_incdir. rewrite Hvl, Hvh.
  by destruct (_ =? _)%string, (_ =? _)%string.
Qed.

(** What one entry prints in a simulation mode. *)
Lemma emit_entry_sim (m : TargetMode) (file target : string)
      (absolute be_quiet : bool) (hw_lib : option string) (pfx c : string) :
  m = SimVerilog \/ m = SimVhdl ->
  Forall (sim_source_line m [c])
         (fst (emit_entry (mode_options m file target absolute be_quiet hw_lib)
                          pfx c)).
Proof.
  intros Hm. set (o := mode_options m file target absolute be_quiet hw_lib).
  assert (sim_vlog o = bool_decide (m = SimVerilog)) as Hvl by reflexivity.
  assert (sim_vhdl o = bool_decide (m = SimVhdl)) as Hvh by reflexivity.
  assert (tcl o = false) as Htcl by (by destruct Hm as [->| ->]).
  assert (sim o = true) as Hsim by (by destruct Hm as [->| ->]).
  assert (m <> Synthesis) as Hsyn by (by destruct Hm as [->| ->]).
  destruct (emit_entry_cases o pfx c)
    as [[Hplus ->]|[[Hsrc ->]|(cmd & value & Hc & Hplus & H)]].
  - constructor.
  - destruct (validateTag c) as [[]|e|x] eqn:Hv.
    + unfold o. rewrite emit_source_file_mode by done.
      rewrite truthy_mode_table. cbn [fst].
      destruct (bool_decide (is_Some _)) eqn:E; [|constructor].
      repeat constructor. exists c. split; [by left|]. left.
      split; [|done]. unfold printed_source. by rewrite Hsrc, E.
    + unfold emit_source_file. rewrite Hv. constructor.
    + unfold emit_source_file. rewrite Hv. constructor.
  - destruct H as [[Hcmd ->]|[[Hcmd ->]|[_ ->]]].
    + rewrite Hvl, Htcl, truthy_tcl, orb_false_r. cbn [fst].
      destruct (bool_decide (m = SimVerilog)) eqn:E;
        [|rewrite andb_false_r; constructor].
      apply bool_decide_eq_true in E. subst m. rewrite andb_true_r.
      assert (own_include SimVerilog cmd = true) as Hown.
      { destruct Hcmd as [-> | ->]; reflexivity. }
      destruct (bool_decide (file_ext value = ".tcl")) eqn:E.
      * apply bool_decide_eq_true in E. repeat constructor.
        exists c. split; [by left|]. right. exists cmd, value.
        split; [done|]. split; [done|]. by left.
      * apply bool_decide_eq_false in E. repeat constructor.
        exists c. split; [by left|]. right. exists cmd, value.
        split; [done|]. split; [done|]. by right.
    + rewrite Hvh, Htcl, truthy_tcl, orb_false_r. cbn [fst].
      destruct (bool_decide (m = SimVhdl)) eqn:E;
        [|rewrite andb_false_r; constructor].
      apply bool_decide_eq_true in E. subst m cmd. rewrite andb_true_r.
      destruct (bool_decide (file_ext value = ".tcl")) eqn:E.
      * apply bool_decide_eq_true in E. repeat constructor.
        exists c. split; [by left|]. right. exists "SI_VHDL", value.
        split; [done|]. split; [done|]. by left.
      * apply bool_decide_eq_false in E. repeat constructor.
        exists c. split; [by left|]. right. exists "SI_VHDL", value.
        split; [done|]. split; [done|]. by right.
    + rewrite Hsim. constructor.
Qed.

Lemma sim_source_line_mono (m : TargetMode) (l1 l2 : list string)
      (line : string) :
  (forall c, In c l1 -> In c l2) ->
  sim_source_line m l1 line -> sim_source_line m l2 line.
Proof. intros Hsub (c & Hin & H). exists c. split; [by apply Hsub|done]. Qed.

(** X12.  In the Verilog simulation the output is the [+define+] entries
    as they are, then the [+incdir+] entries as they are, then the lines
    of the sources; in the VHDL simulation it is the lines of the sources
    alone.  Neither prints a header, an assignment or a Quartus include:
    each line of the sources is a source file in the table of the mode,
    as it is, or the value of a simulator include of the mode, after [-F]
    unless it is a Tcl script. *)
Theorem X12_simulation_output (m : TargetMode) (file target : string)
        (absolute be_quiet : bool) (hw_lib : option string)
        (cfg : list string) :
  m = SimVerilog \/ m = SimVhdl ->
  let opts := mode_options m file target absolute be_quiet hw_lib in
  let pfx := rel_prefix_of opts in
  emitCfg opts cfg
  = ((if bool_decide (m = SimVerilog)
      then List.filter is_define cfg ++ List.filter is_incdir cfg
      else [])
       ++ fst (emit_sources opts pfx cfg),
     snd (emit_sources opts pfx cfg))
  /\ Forall (sim_source_line m cfg) (fst (emit_sources opts pfx cfg)).
Proof.
  intros Hm opts pfx. split.
  - unfold emitCfg. fold pfx.
    destruct (emit_sources opts pfx cfg) as [out r]. cbn [fst snd].
    f_equal. f_equal.
    destruct Hm as [-> | ->].
    + change (file_type_filter opts) with false.
      change (sim opts) with true. cbn [negb andb app].
      rewrite flat_map_emit_define_vlog, flat_map_emit_incdir_vlog by done.
      done.
    + change (file_type_filter opts) with false.
      change (sim opts) with true. cbn [negb andb app].
      destruct (flat_map_emit_vhdl opts pfx cfg) as [-> ->]; done.
  - subst opts. generalize pfx. clear pfx. intros pfx.
    induction cfg as [|c cfg IH]; [by constructor|].
    assert (Forall (sim_source_line m (c :: cfg))
              (fst (emit_sources
                      (mode_options m file target absolute be_quiet hw_lib)
                      pfx cfg))) as IH'.
    { eapply Forall_impl; [exact IH|].
      intros line. apply sim_source_line_mono. intros ? ?. by right. }
    assert (Forall (sim_source_line m (c :: cfg))
              (fst (emit_entry
                      (mode_options m file target absolute be_quiet hw_lib)
                      pfx c))) as Hc.
    { eapply Forall_impl;
        [exact (emit_entry_sim m file target absolute be_quiet hw_lib
                               pfx c Hm)|].
      intros line. apply sim_source_line_mono. intros ? [<-|[]]. by left. }
    cbn [emit_sources].
    destruct (emit_entry _ pfx c) as [out [[]|e|x]]; try exact Hc.
    destruct (emit_sources _ pfx cfg) as [out' r]. cbn [fst] in *.
    by apply Forall_app.
Qed.

Lemma X12_simulation_output_witness :
  emitCfg (mode_options SimVerilog "m.txt" "/w" false true None)
          ["top.sv"; "+incdir+rtl"; "SI:files.f"; "+define+A"; "x.sdc";
           "QI:a.tcl"]
  = (["+define+A"; "+incdir+rtl"; "top.sv"; "-F files.f"], Ok tt).
Proof.
  exact (proj1 (X12_simulation_output SimVerilog "m.txt" "/w" false true None
                  ["top.sv"; "+incdir+rtl"; "SI:files.f"; "+define+A";
                   "x.sdc"; "QI:a.tcl"] (or_introl eq_refl))).
Defined.

(** ** The frame of a parse *)

Lemma extends_refl (q : bool) (w : world) : extends q w w.
Proof.
  split; [done|]. split; [done|]. split.
  - exists []. by rewrite app_nil_r.
  - exists []. by rewrite app_nil_r.
Qed.

Lemma extends_trans (q : bool) (w1 w2 w3 : world) :
  extends q w1 w2 -> extends q w2 w3 -> extends q w1 w3.
Proof.
  intros (Ha & Hb & (c1 & Hc1 & Hf1) & (m1 & Hm1 & Hq1))
         (Ha' & Hb' & (c2 & Hc2 & Hf2) & (m2 & Hm2 & Hq2)).
  split; [|split; [|split]].
  - intros k Hk. by rewrite Ha', Ha.
  - intros k Hk. by apply Hb', Hb.
  - exists (c1 ++ c2). rewrite Hc2, Hc1, app_assoc. split; [done|].
    by apply Forall_app.
  - exists (m1 ++ m2). rewrite Hm2, Hm1, app_assoc. split; [done|].
    intros Hq. by rewrite Hq1, Hq2.
Qed.

Lemma framed_ret {A} (q : bool) (a : A) : framed q (ret a).
Proof. intros w. apply extends_refl. Qed.

Lemma framed_errorExit {A} (q : bool) (e : fatal) :
  framed q (@errorExit A e).
Proof. intros w. apply extends_refl. Qed.

Lemma framed_raise {A} (q : bool) (x : pyexn) : framed q (@raise A x).
Proof. intros w. apply extends_refl. Qed.

Lemma framed_lift {A} (q : bool) (o : outcome A) : framed q (lift o).
Proof. intros w. apply extends_refl. Qed.

Lemma framed_get_environ (q : bool) : framed q get_environ.
Proof. intros w. apply extends_refl. Qed.

Lemma framed_bind {A B} (q : bool) (m : M A) (k : A -> M B) :
  framed q m -> (forall a, framed q (k a)) -> framed q (bind m k).
Proof.
  intros Hm Hk w. unfold bind. specialize (Hm w).
  destruct (m w) as [[a|e|x] w1]; cbn [snd] in *; [|done|done].
  eapply extends_trans; [exact Hm|apply Hk].
Qed.

Lemma framed_except_Exception {A} (q : bool) (m : M A) (e : fatal) :
  framed q m -> framed q (except_Exception m e).
Proof.
  intros Hm w. unfold except_Exception. specialize (Hm w).
  by destruct (m w) as [[a|e'|x] w1].
Qed.

Lemma framed_except_IOError {A} (q : bool) (m : M A) (e : fatal) :
  framed q m -> framed q (except_IOError m e).
Proof.
  intros Hm w. unfold except_IOError. specialize (Hm w).
  by destruct (m w) as [[a|e'|[]] w1].
Qed.

Lemma framed_if {A} (q b : bool) (m1 m2 : M A) :
  framed q m1 -> framed q m2 -> framed q (if b then m1 else m2).
Proof. by destruct b. Qed.

Lemma framed_set (q : bool) (k v : string) :
  k ∈ resolved_variables -> framed q (modify (set_environ k v)).
Proof.
  intros Hk w. unfold modify, set_environ. cbn [snd].
  split; [|split; [|split]]; cbn [environ launched stderr].
  - intros k' Hk'. apply lookup_insert_ne. by intros ->.
  - intros k' Hs. destruct (decide (k = k')) as [->|Hne].
    + rewrite lookup_insert_eq. eauto.
    + by rewrite lookup_insert_ne.
  - exists []. by rewrite app_nil_r.
  - exists []. by rewrite app_nil_r.
Qed.

Lemma framed_log_stderr (msg : string) :
  framed false (modify (log_stderr msg)).
Proof.
  intros w. unfold modify, log_stderr. cbn [snd].
  split; [done|]. split; [done|]. split; cbn [launched stderr].
  - exists []. by rewrite app_nil_r.
  - by exists [msg].
Qed.

Lemma framed_unless_quiet (q : bool) (m : M unit) :
  framed false m -> framed q (if negb q then m else ret tt).
Proof. destruct q; [intros _; apply framed_ret|done]. Qed.

Lemma framed_decode_ascii (q : bool) (line : string) :
  framed q (decode_ascii line).
Proof.
  unfold decode_ascii. apply framed_if; [apply framed_ret|apply framed_raise].
Qed.

Lemma framed_for_each {A} (q : bool) (l : list A) (body : A -> M unit) :
  (forall x, framed q (body x)) -> framed q (for_each l body).
Proof.
  intros Hb. induction l as [|x l IH]; [apply framed_ret|].
  cbn [for_each]. apply framed_bind; [apply Hb|]. by intros _.
Qed.

Section Frame.

Variable sys : system.
Variable opts : options.
Variable tgt_dir : string.

Lemma framed_run (q : bool) (cmd : string) :
  known_command cmd = true -> framed q (run sys cmd).
Proof.
  intros Hk w. unfold run, log_launch. cbn [snd].
  split; [done|]. split; [done|]. split; cbn [launched stderr].
  - exists [cmd]. split; [done|]. by repeat constructor.
  - exists []. by rewrite app_nil_r.
Qed.

Lemma framed_getHWLibPath (q : bool) : framed q (getHWLibPath sys opts).
Proof.
  unfold getHWLibPath.
  apply framed_bind; [apply framed_get_environ|]. intros env.
  apply framed_bind.
  - destruct (lib opts); [apply framed_ret|].
    destruct (env !! "BBS_LIB_PATH"); [apply framed_ret|].
    destruct (env !! "OPAE_PLATFORM_ROOT");
      [apply framed_ret|apply framed_errorExit].
  - intros d. apply framed_if; [apply framed_errorExit|apply framed_ret].
Qed.

Lemma framed_read_file (q : bool) (name : string) :
  framed q (read_file sys name).
Proof.
  unfold read_file.
  destruct (file_lines sys name); [apply framed_ret|apply framed_raise].
Qed.

Lemma framed_addDefaultFpgaFamily :
  framed (quiet opts) (addDefaultFpgaFamily sys opts).
Proof.
  unfold addDefaultFpgaFamily.
  apply framed_bind; [apply framed_get_environ|]. intros env.
  apply framed_if; [|apply framed_ret].
  apply framed_except_Exception.
  apply framed_bind; [apply framed_getHWLibPath|]. intros d.
  apply framed_bind; [apply framed_read_file|]. intros text.
  apply framed_bind.
  { apply framed_run. unfold known_command.
    by rewrite is_family_cmd_afu. }
  intros proc.
  apply framed_bind.
  { apply framed_for_each. intros line.
    apply framed_bind; [apply framed_decode_ascii|]. intros l.
    apply framed_set. unfold resolved_variables. rewrite !elem_of_cons.
    by left. }
  intros _.
  apply framed_bind;
    [apply framed_if; [apply framed_errorExit|apply framed_ret]|].
  intros _. apply framed_unless_quiet.
  apply framed_bind; [apply framed_get_environ|]. intros env'.
  destruct (env' !! FPGA_FAMILY); [apply framed_log_stderr|apply framed_raise].
Qed.

Lemma framed_scan_version (q : bool) (lines : list string) (ok : bool) :
  framed q (scan_version lines ok).
Proof.
  revert ok. induction lines as [|line lines IH]; intros ok.
  - apply framed_ret.
  - cbn [scan_version]. apply framed_bind; [apply framed_decode_ascii|].
    intros l. apply framed_if; [|apply IH].
    apply framed_bind.
    { apply framed_set. unfold resolved_variables. rewrite !elem_of_cons.
      tauto. }
    intros _. apply framed_bind.
    { apply framed_set. unfold resolved_variables. rewrite !elem_of_cons.
      tauto. }
    intros _. apply IH.
Qed.

Lemma framed_getQuartusVersion :
  framed (quiet opts) (getQuartusVersion sys opts).
Proof.
  unfold getQuartusVersion.
  apply framed_bind; [apply framed_get_environ|]. intros env.
  apply framed_if; [|apply framed_ret].
  apply framed_except_Exception.
  apply framed_bind.
  { apply framed_run. unfold known_command.
    by rewrite String.eqb_refl, orb_true_r. }
  intros proc.
  apply framed_bind; [apply framed_scan_version|]. intros ok.
  apply framed_bind;
    [apply framed_if; [apply framed_errorExit|apply framed_ret]|].
  intros _. apply framed_unless_quiet.
  apply framed_bind; [apply framed_get_environ|]. intros env'.
  destruct (env' !! "QUARTUS_VERSION"); [|apply framed_raise].
  destruct (env' !! "QUARTUS_VERSION_MAJOR"); [|apply framed_raise].
  apply framed_bind; [apply framed_log_stderr|]. intros _.
  apply framed_log_stderr.
Qed.

Lemma framed_substitute (c : string) :
  framed (quiet opts) (substitute sys opts c).
Proof.
  unfold substitute.
  apply framed_bind; [apply framed_get_environ|]. intros env.
  apply framed_bind;
    [apply framed_if; [apply framed_addDefaultFpgaFamily|apply framed_ret]|].
  intros _.
  apply framed_bind; [apply framed_get_environ|]. intros env'.
  apply framed_bind;
    [apply framed_if; [apply framed_getQuartusVersion|apply framed_ret]|].
  intros _.
  apply framed_bind; [apply framed_get_environ|]. intros env''.
  apply framed_ret.
Qed.

Lemma framed_parseLine (parse : string -> M (list string))
      (dir line : string) :
  (forall name, framed (quiet opts) (parse name)) ->
  framed (quiet opts) (parseLine sys parse opts dir tgt_dir line).
Proof.
  intros Hp. unfold parseLine.
  apply framed_bind; [apply framed_substitute|]. intros c.
  apply framed_if; [apply Hp|].
  apply framed_if; [|apply framed_ret].
  apply framed_bind; [apply framed_lift|]. intros e. apply framed_ret.
Qed.

Lemma framed_parseLines (parse : string -> M (list string))
      (dir : string) (lines cfg : list string) :
  (forall name, framed (quiet opts) (parse name)) ->
  framed (quiet opts) (parseLines sys parse opts dir tgt_dir lines cfg).
Proof.
  intros Hp. revert cfg. induction lines as [|c lines IH]; intros cfg.
  - apply framed_ret.
  - cbn [parseLines]. apply framed_bind; [by apply framed_parseLine|].
    intros new. apply IH.
Qed.

Lemma framed_parseConfigFile (fuel : nat) (name : string) :
  framed (quiet opts) (parseConfigFile sys fuel opts name tgt_dir).
Proof.
  revert name. induction fuel as [|fuel IH]; intros name.
  - apply framed_raise.
  - cbn [parseConfigFile]. apply framed_if; [apply framed_ret|].
    apply framed_except_IOError.
    destruct (file_lines sys name); [|apply framed_raise].
    by apply framed_parseLines.
Qed.

End Frame.



(** ** Parses that resolve nothing *)

Section Still.

Variable sys : system.
Variable opts : options.
Variable tgt_dir : string.
Variable w : world.

Hypothesis family : family_known w \/ unmentioned sys FPGA_FAMILY.
Hypothesis version :
  version_known (environ w) = true \/ unmentioned sys "QUARTUS_VERSION".

Lemma still_bind {A B} (m : M A) (k : A -> M B) :
  snd (m w) = w -> (forall a, snd (k a w) = w) -> snd (bind m k w) = w.
Proof.
  intros Hm Hk. unfold bind. destruct (m w) as [[a|e|x] w1]; cbn [snd] in *;
    subst w1; [apply Hk|done|done].
Qed.

Lemma still_substitute (c : string) :
  PyStr.contains FPGA_FAMILY c = false \/ family_known w ->
  PyStr.contains "QUARTUS_VERSION" c = false
  \/ version_known (environ w) = true ->
  substitute sys opts c w = (Ok (PosixPath.expandvars (environ w) c), w).
Proof.
  intros Hf Hv. unfold substitute.
  unfold bind at 1. unfold get_environ at 1.
  assert (PyStr.contains FPGA_FAMILY c
          && negb (bool_decide (is_Some (environ w !! FPGA_FAMILY))) = false)
    as ->.
  { destruct Hf as [->|Hk]; [done|].
    rewrite (bool_decide_eq_true_2 _ Hk). apply andb_false_r. }
  unfold bind at 1. unfold ret at 1.
  unfold bind at 1. unfold get_environ at 1.
  assert (PyStr.contains "QUARTUS_VERSION" c
          && negb (version_known (environ w)) = false) as ->.
  { destruct Hv as [->| ->]; [done|]. apply andb_false_r. }
  reflexivity.
Qed.

Lemma still_parseLine (parse : string -> M (list string))
      (dir line : string) :
  (forall name, snd (parse name w) = w) ->
  PyStr.contains FPGA_FAMILY (clean_line line) = false \/ family_known w ->
  PyStr.contains "QUARTUS_VERSION" (clean_line line) = false
  \/ version_known (environ w) = true ->
  snd (parseLine sys parse opts dir tgt_dir line w) = w.
Proof.
  intros Hp Hf Hv. unfold parseLine. unfold bind at 1.
  rewrite still_substitute by done.
  destruct (_ =? "C:")%string; [apply Hp|].
  destruct (negb _); [|done].
  unfold bind, lift, ret. by destruct (fixRelPath _ _ _ _ _).
Qed.

Lemma still_parseLines (parse : string -> M (list string))
      (dir : string) (lines cfg : list string) :
  (forall name, snd (parse name w) = w) ->
  Forall (fun line =>
            (PyStr.contains FPGA_FAMILY (clean_line line) = false
             \/ family_known w)
            /\ (PyStr.contains "QUARTUS_VERSION" (clean_line line) = false
                \/ version_known (environ w) = true)) lines ->
  snd (parseLines sys parse opts dir tgt_dir lines cfg w) = w.
Proof.
  intros Hp Hl. revert cfg.
  induction Hl as [|line lines [Hf Hv] _ IH]; intros cfg; [done|].
  cbn [parseLines]. apply still_bind; [by apply still_parseLine|].
  intros new. apply IH.
Qed.

Lemma still_parseConfigFile (fuel : nat) (name : string) :
  snd (parseConfigFile sys fuel opts name tgt_dir w) = w.
Proof.
  revert name. induction fuel as [|fuel IH]; intros name; [done|].
  cbn [parseConfigFile]. destruct (_ =? 0); [done|].
  unfold except_IOError.
  destruct (file_lines sys name) as [lines|] eqn:Hfile; [|done].
  assert (snd (parseLines sys
                 (fun name => parseConfigFile sys fuel opts name tgt_dir)
                 opts (PosixPath.dirname name) tgt_dir lines [] w) = w) as H.
  { apply still_parseLines; [exact IH|].
    apply Forall_forall. intros line Hin. split.
    - destruct family as [?|Hu]; [by right|left].
      specialize (Hu name lines Hfile).
      by apply (proj1 (Forall_forall _ _) Hu).
    - destruct version as [?|Hu]; [by right|left].
      specialize (Hu name lines Hfile).
      by apply (proj1 (Forall_forall _ _) Hu). }
  by destruct (parseLines _ _ _ _ _ _ _ _) as [[r|e|[]] w1].
Qed.

End Still.



(** ** Files that cannot be opened *)

(** X15.  [parseConfigFile] answers an empty list for an empty name
    without opening anything.  A manifest that cannot be opened ends the
    script with the error that names it, the world untouched.  An error
    that ends the parse of an included file ends the parse of the file
    that includes it with the same error: it is the included file that a
    failure to open names. *)
Theorem X15_parseConfigFile_errors (sys : system) (fuel : nat)
        (opts : options) (name tgt_dir : string) (w : world) :
  parseConfigFile sys (S fuel) opts "" tgt_dir w = (Ok [], w)
  /\ (name <> "" -> file_lines sys name = None ->
      parseConfigFile sys (S fuel) opts name tgt_dir w
      = (Exit (OpenFailed name), w))
  /\ (forall l1 line l2 r1 w1 c w2 e w3,
         name <> "" ->
         file_lines sys name = Some (l1 ++ line :: l2) ->
         parseLines sys (fun n => parseConfigFile sys fuel opts n tgt_dir)
                    opts (PosixPath.dirname name) tgt_dir l1 [] w
         = (Ok r1, w1) ->
         substitute sys opts (clean_line line) w1 = (Ok c, w2) ->
         PyStr.take 2 c = "C:" ->
         parseConfigFile sys fuel opts
           (PosixPath.join (PosixPath.dirname name) (PyStr.drop 2 c))
           tgt_dir w2
         = (Exit e, w3) ->
         parseConfigFile sys (S fuel) opts name tgt_dir w = (Exit e, w3)).
Proof.
  assert (forall n : string, n <> "" -> (String.length n =? 0) = false) as Hlen.
  { intros [|? ?] H; [done|reflexivity]. }
  split; [done|]. split.
  - intros Hname Hfile. cbn [parseConfigFile]. rewrite Hlen by done.
    unfold except_IOError. by rewrite Hfile.
  - intros l1 line l2 r1 w1 c w2 e w3 Hname Hfile H1 Hsub Hc Hinc.
    cbn [parseConfigFile]. rewrite Hlen by done.
    unfold except_IOError. rewrite Hfile.
    rewrite parseLines_splice.
    unfold bind at 1. rewrite H1.
    unfold bind at 1. unfold parseLine. unfold bind at 1. rewrite Hsub.
    rewrite Hc. cbn [String.eqb Ascii.eqb Bool.eqb]. by rewrite Hinc.
Qed.

Lemma X15_parseConfigFile_errors_witness :
  parseConfigFile
    {| getcwd := "/w";
       file_lines := fun n => if (n =? "src/top.txt")%string
                              then Some ["a.sv" +:+ newline;
                                         "C:ip/list.txt" +:+ newline]
                              else None;
       isdir := fun _ => false; path_exists := fun _ => false;
       popen := fun _ => ([], 0%Z) |}
    3 (mode_options Synthesis "src/top.txt" "/w" false true None)
    "src/top.txt" "/w" {| environ := ∅; launched := []; stderr := [] |}
  = (Exit (OpenFailed "src/ip/list.txt"),
     {| environ := ∅; launched := []; stderr := [] |}).
Proof.
  refine (proj2 (proj2 (X15_parseConfigFile_errors _ 2 _ "src/top.txt" "/w" _))
                ["a.sv" +:+ newline] ("C:ip/list.txt" +:+ newline) []
                ["src/a.sv"] {| environ := ∅; launched := []; stderr := [] |}
                "C:ip/list.txt"
                {| environ := ∅; launched := []; stderr := [] |}
                (OpenFailed "src/ip/list.txt")
                {| environ := ∅; launched := []; stderr := [] |}
                _ _ _ _ _ _);
    try discriminate; try (vm_compute; reflexivity).
Defined.

(** ** Comments and blank lines *)

Lemma lstrip_before_hash (a rest : string) :
  PyStr.lstrip (a +:+ String "#" rest) = PyStr.lstrip a +:+ String "#" rest.
Proof.
  induction a as [|c a IH]; [done|].
  rewrite append_cons. cbn [PyStr.lstrip].
  destruct (PyStr.isspace c); [exact IH|by rewrite append_cons].
Qed.

Lemma lstrip_has_char (c : ascii) (a : string) :
  PyStr.has_char c a = false -> PyStr.has_char c (PyStr.lstrip a) = false.
Proof.
  induction a as [|x a IH]; [done|]. intros H. cbn [PyStr.lstrip].
  destruct (PyStr.isspace x); [|done].
  cbn [PyStr.has_char] in H. apply orb_false_iff in H as [_ H]. by apply IH.
Qed.

Lemma lstrip_spaces (ws : string) :
  PyStr.all_chars PyStr.isspace ws = true -> PyStr.lstrip ws = "".
Proof.
  induction ws as [|c ws IH]; [done|]. cbn [PyStr.all_chars PyStr.lstrip].
  intros [-> H]%andb_true_iff. by apply IH.
Qed.

(** The text of a line with a comment is what precedes the comment,
    without the blanks that lead the line. *)
Lemma clean_line_before_hash (a comment : string) :
  PyStr.has_char "#" a = false ->
  clean_line (a +:+ String "#" comment) = PyStr.lstrip a.
Proof.
  intros Ha. unfold clean_line, PyStr.strip.
  rewrite lstrip_before_hash.
  assert (PyStr.rstrip (String "#" comment)
          = String "#" (PyStr.rstrip comment)) as Hr
      by (by apply rstrip_nonspace).
  rewrite rstrip_app by (by rewrite Hr). rewrite Hr.
  unfold PyStr.before_first.
  by rewrite split_once_app by (by apply lstrip_has_char).
Qed.

Lemma parseLine_blank (sys : system) (parse : string -> M (list string))
      (opts : options) (dir tgt_dir line : string) (w : world) :
  clean_line line = "" ->
  parseLine sys parse opts dir tgt_dir line w = (Ok [], w).
Proof.
  intros E. unfold parseLine. rewrite E. unfold bind at 1.
  by rewrite substitute_plain by done.
Qed.

(** X16.  The text after the first [#] of a line is never read: the line
    parses as it would with an empty comment, whatever the comment
    mentions.  A line of blanks, and a line of blanks followed by a
    comment, add no entry, launch nothing and change nothing. *)
Theorem X16_comments_and_blank_lines (sys : system)
        (parse : string -> M (list string)) (opts : options)
        (dir tgt_dir a comment : string) (w : world) :
  PyStr.has_char "#" a = false ->
  parseLine sys parse opts dir tgt_dir (a +:+ "#" +:+ comment) w
  = parseLine sys parse opts dir tgt_dir (a +:+ "#") w
  /\ (PyStr.all_chars PyStr.isspace a = true ->
      parseLine sys parse opts dir tgt_dir a w = (Ok [], w)
      /\ parseLine sys parse opts dir tgt_dir (a +:+ "#" +:+ comment) w
         = (Ok [], w)).
Proof.
  intros Ha.
  assert (clean_line (a +:+ "#" +:+ comment) = PyStr.lstrip a) as E1
      by (by apply clean_line_before_hash).
  assert (clean_line (a +:+ "#") = PyStr.lstrip a) as E2
      by (by apply (clean_line_before_hash a "")).
  split.
  - unfold parseLine. by rewrite E1, E2.
  - intros Hws. split; apply parseLine_blank.
    + unfold clean_line, PyStr.strip. by rewrite lstrip_spaces.
    + rewrite E1. by apply lstrip_spaces.
Qed.

Lemma X16_comments_and_blank_lines_witness :
  parseLine sample_system
    (fun _ => ret [])
    (mode_options Synthesis "m.txt" "/w" false true None) "" "/w"
    ("  " +:+ "#" +:+ " needs $OPAE_PLATFORM_FPGA_FAMILY") sample_world
  = (Ok [], sample_world).
Proof.
  apply (proj2 (X16_comments_and_blank_lines sample_system (fun _ => ret [])
                  (mode_options Synthesis "m.txt" "/w" false true None)
                  "" "/w" "  " " needs $OPAE_PLATFORM_FPGA_FAMILY"
                  sample_world eq_refl) eq_refl).
Defined.

(** ** Reading the extension of a name *)

Lemma has_char_app_false (c : ascii) (a b : string) :
  PyStr.has_char c a = false -> PyStr.has_char c b = false ->
  PyStr.has_char c (a +:+ b) = false.
Proof.
  intros Ha Hb. induction a as [|x a IH]; [by rewrite append_nil_l|].
  rewrite append_cons. cbn [PyStr.has_char] in *.
  apply orb_false_iff in Ha as [-> Ha]. by apply IH.
Qed.

Lemma take_length_app (a b : string) :
  PyStr.take (String.length a) (a +:+ b) = a.
Proof.
  induction a as [|x a IH]; [by destruct b|].
  rewrite append_cons. cbn [String.length PyStr.take]. by rewrite IH.
Qed.

Lemma drop_length_app (a b : string) :
  PyStr.drop (String.length a) (a +:+ b) = b.
Proof.
  induction a as [|x a IH]; [by destruct b|].
  rewrite append_cons. by cbn [String.length PyStr.drop].
Qed.

(** The extension of a last component [base.e]. *)
Lemma splitext_base (base e : string) :
  slashfree base -> PyStr.has_char "." e = false ->
  PyStr.has_char "/" e = false ->
  snd (PosixPath.splitext (base +:+ String "." e))
  = if PyStr.all_chars (fun c => Ascii.eqb c ".") base then ""
    else String "." e.
Proof.
  intros Hb He Hs.
  rewrite splitext_name by (by apply has_char_app_false).
  rewrite rfind_app. cbn [PyStr.rfind]. rewrite (rfind_absent "." e He).
  change (0 <=? -1)%Z with false. cbn [Ascii.eqb Bool.eqb].
  change (0 <=? 0)%Z with true. cbn beta iota.
  assert ((0 <=? Z.of_nat (String.length base) + 0)%Z = true) as ->
      by (apply Z.leb_le; lia).
  replace (Z.to_nat (Z.of_nat (String.length base) + 0))
    with (String.length base) by lia.
  rewrite take_length_app, drop_length_app. cbn [andb].
  by destruct (PyStr.all_chars _ base).
Qed.

(** X17.  [validateTag] and [lookupTag] read the extension of a name off
    its last component, from the last dot on, in lower case: the case of
    the extension and the directories of the name do not matter.  A last
    component with nothing but dots before its last dot, a hidden file
    such as [.tcl], has no extension: no table has it and [validateTag]
    ends the script. *)
Theorem X17_extension_of_a_name (stem base e : string)
        (db : gmap string string) :
  is_stem stem -> slashfree base ->
  PyStr.has_char "." e = false -> PyStr.has_char "/" e = false ->
  let name := stem +:+ base +:+ "." +:+ e in
  (PyStr.all_chars (fun c => Ascii.eqb c ".") base = false ->
   file_ext name = "." +:+ PyStr.lower e
   /\ lookupTag name db = db !! ("." +:+ PyStr.lower e))
  /\ (PyStr.all_chars (fun c => Ascii.eqb c ".") base = true ->
      file_ext name = ""
      /\ (forall m, lookupTag name (mode_table m) = None)
      /\ validateTag name = Exit (UnrecognizedExtension "" name)).
Proof.
  intros Hstem Hbase He Hs name.
  assert (snd (PosixPath.splitext name)
          = if PyStr.all_chars (fun c => Ascii.eqb c ".") base then ""
            else String "." e) as Hext.
  { unfold name. change ("." +:+ e) with (String "." e).
    rewrite splitext_stem.
    - by apply splitext_base.
    - exact Hstem.
    - apply has_char_app_false; [done|].
      cbn [PyStr.has_char Ascii.eqb Bool.eqb orb]. exact Hs. }
  split.
  - intros Hd. rewrite Hd in Hext.
    assert (file_ext name = "." +:+ PyStr.lower e) as E.
    { unfold file_ext. by rewrite Hext. }
    split; [done|]. by rewrite lookupTag_lookup, E.
  - intros Hd. rewrite Hd in Hext.
    assert (file_ext name = "") as E.
    { unfold file_ext. by rewrite Hext. }
    split; [done|].
    assert (forall m, mode_table m !! file_ext name = None) as Hnone.
    { intros m. rewrite E. by destruct m. }
    split.
    + intros m. rewrite lookupTag_lookup. apply Hnone.
    + rewrite <- E at 1. by apply validateTag_Exit.
Qed.

Lemma X17_extension_of_a_name_witness :
  file_ext "rtl/Top.SV" = ".sv"
  /\ lookupTag "rtl/Top.SV" quartus_tag_map = Some "SYSTEMVERILOG_FILE".
Proof.
  destruct (proj1 (X17_extension_of_a_name "rtl/" "Top" "SV" quartus_tag_map
                     (or_intror (ex_intro _ "rtl" eq_refl))
                     eq_refl eq_refl eq_refl) eq_refl) as [H1 H2].
  split; [exact H1|]. refine (eq_trans H2 _). vm_compute. reflexivity.
Defined.
